(** * Voice typing assistant: hotkey matching, key tracking, recording session

    A shallow embedding of [voice_typing.py] (class [VoiceTypingAssistant])
    and the properties of its hotkey matcher, key-event handlers, silence
    detection state machine, controller loop and transcript post-processing.

    Conventions of the embedding.
    - A Python [str] is the list of its code points ([list N]); [py "..."]
      writes an ASCII literal. [str.isspace], [str.strip] and [str.lower]
      follow the Unicode tables of CPython.
    - [time.time()] and the configured durations are rationals ([Q]); the
      clock reading is an argument of every handler that reads the clock.
    - [self.pressed_keys] is a [gset] of key identifiers; the two literal
      dictionaries of [is_hotkey_pressed] are [gmap]s.
    - Every method takes the assistant object and returns the updated object
      together with the list of effects it performed ([print]s, stream
      operations, collaborator calls), oldest first.
    - A call into the outside world that can raise takes its outcome as an
      argument.
    - The three threads of the program (keyboard listener, audio callback,
      control loop) are interleaved at the granularity of one handler call. *)

From Stdlib Require Import Ascii String QArith Qround Lqa.
From stdpp Require Import gmap strings list.

Local Open Scope Z_scope.
Local Open Scope string_scope.
Local Open Scope list_scope.

(** ** Unicode tables

    The tables behind [str.isspace], [str.strip] and [str.lower] of
    CPython 3.11 (Unicode 14.0), by code point. *)

Module Unicode.

Local Open Scope N_scope.

(** The code points for which [str.isspace] holds; [str.strip] removes
    exactly these. *)
Definition whitespace : list N :=
  [
    9; 10; 11; 12; 13; 28; 29; 30; 31; 32; 133; 160; 5760; 8192; 8193; 8194;
    8195; 8196; 8197; 8198; 8199; 8200; 8201; 8202; 8232; 8233; 8239; 8287;
    12288
  ].

(** The code points that [str.lower] changes, each with what it becomes
    (the capital sigma appears with its non-final form). *)
Definition lower_pairs : list (N * list N) :=
  [
    (65, [97]); (66, [98]); (67, [99]); (68, [100]); (69, [101]); (70, [102]);
    (71, [103]); (72, [104]); (73, [105]); (74, [106]); (75, [107]); (76,
    [108]); (77, [109]); (78, [110]); (79, [111]); (80, [112]); (81, [113]);
    (82, [114]); (83, [115]); (84, [116]); (85, [117]); (86, [118]); (87,
    [119]); (88, [120]); (89, [121]); (90, [122]); (192, [224]); (193, [225]);
    (194, [226]); (195, [227]); (196, [228]); (197, [229]); (198, [230]);
    (199, [231]); (200, [232]); (201, [233]); (202, [234]); (203, [235]);
    (204, [236]); (205, [237]); (206, [238]); (207, [239]); (208, [240]);
    (209, [241]); (210, [242]); (211, [243]); (212, [244]); (213, [245]);
    (214, [246]); (216, [248]); (217, [249]); (218, [250]); (219, [251]);
    (220, [252]); (221, [253]); (222, [254]); (256, [257]); (258, [259]);
    (260, [261]); (262, [263]); (264, [265]); (266, [267]); (268, [269]);
    (270, [271]); (272, [273]); (274, [275]); (276, [277]); (278, [279]);
    (280, [281]); (282, [283]); (284, [285]); (286, [287]); (288, [289]);
    (290, [291]); (292, [293]); (294, [295]); (296, [297]); (298, [299]);
    (300, [301]); (302, [303]); (304, [105; 775]); (306, [307]); (308, [309]);
    (310, [311]); (313, [314]); (315, [316]); (317, [318]); (319, [320]);
    (321, [322]); (323, [324]); (325, [326]); (327, [328]); (330, [331]);
    (332, [333]); (334, [335]); (336, [337]); (338, [339]); (340, [341]);
    (342, [343]); (344, [345]); (346, [347]); (348, [349]); (350, [351]);
    (352, [353]); (354, [355]); (356, [357]); (358, [359]); (360, [361]);
    (362, [363]); (364, [365]); (366, [367]); (368, [369]); (370, [371]);
    (372, [373]); (374, [375]); (376, [255]); (377, [378]); (379, [380]);
    (381, [382]); (385, [595]); (386, [387]); (388, [389]); (390, [596]);
    (391, [392]); (393, [598]); (394, [599]); (395, [396]); (398, [477]);
    (399, [601]); (400, [603]); (401, [402]); (403, [608]); (404, [611]);
    (406, [617]); (407, [616]); (408, [409]); (412, [623]); (413, [626]);
    (415, [629]); (416, [417]); (418, [419]); (420, [421]); (422, [640]);
    (423, [424]); (425, [643]); (428, [429]); (430, [648]); (431, [432]);
    (433, [650]); (434, [651]); (435, [436]); (437, [438]); (439, [658]);
    (440, [441]); (444, [445]); (452, [454]); (453, [454]); (455, [457]);
    (456, [457]); (458, [460]); (459, [460]); (461, [462]); (463, [464]);
    (465, [466]); (467, [468]); (469, [470]); (471, [472]); (473, [474]);
    (475, [476]); (478, [479]); (480, [481]); (482, [483]); (484, [485]);
    (486, [487]); (488, [489]); (490, [491]); (492, [493]); (494, [495]);
    (497, [499]); (498, [499]); (500, [501]); (502, [405]); (503, [447]);
    (504, [505]); (506, [507]); (508, [509]); (510, [511]); (512, [513]);
    (514, [515]); (516, [517]); (518, [519]); (520, [521]); (522, [523]);
    (524, [525]); (526, [527]); (528, [529]); (530, [531]); (532, [533]);
    (534, [535]); (536, [537]); (538, [539]); (540, [541]); (542, [543]);
    (544, [414]); (546, [547]); (548, [549]); (550, [551]); (552, [553]);
    (554, [555]); (556, [557]); (558, [559]); (560, [561]); (562, [563]);
    (570, [11365]); (571, [572]); (573, [410]); (574, [11366]); (577, [578]);
    (579, [384]); (580, [649]); (581, [652]); (582, [583]); (584, [585]);
    (586, [587]); (588, [589]); (590, [591]); (880, [881]); (882, [883]);
    (886, [887]); (895, [1011]); (902, [940]); (904, [941]); (905, [942]);
    (906, [943]); (908, [972]); (910, [973]); (911, [974]); (913, [945]);
    (914, [946]); (915, [947]); (916, [948]); (917, [949]); (918, [950]);
    (919, [951]); (920, [952]); (921, [953]); (922, [954]); (923, [955]);
    (924, [956]); (925, [957]); (926, [958]); (927, [959]); (928, [960]);
    (929, [961]); (931, [963]); (932, [964]); (933, [965]); (934, [966]);
    (935, [967]); (936, [968]); (937, [969]); (938, [970]); (939, [971]);
    (975, [983]); (984, [985]); (986, [987]); (988, [989]); (990, [991]);
    (992, [993]); (994, [995]); (996, [997]); (998, [999]); (1000, [1001]);
    (1002, [1003]); (1004, [1005]); (1006, [1007]); (1012, [952]); (1015,
    [1016]); (1017, [1010]); (1018, [1019]); (1021, [891]); (1022, [892]);
    (1023, [893]); (1024, [1104]); (1025, [1105]); (1026, [1106]); (1027,
    [1107]); (1028, [1108]); (1029, [1109]); (1030, [1110]); (1031, [1111]);
    (1032, [1112]); (1033, [1113]); (1034, [1114]); (1035, [1115]); (1036,
    [1116]); (1037, [1117]); (1038, [1118]); (1039, [1119]); (1040, [1072]);
    (1041, [1073]); (1042, [1074]); (1043, [1075]); (1044, [1076]); (1045,
    [1077]); (1046, [1078]); (1047, [1079]); (1048, [1080]); (1049, [1081]);
    (1050, [1082]); (1051, [1083]); (1052, [1084]); (1053, [1085]); (1054,
    [1086]); (1055, [1087]); (1056, [1088]); (1057, [1089]); (1058, [1090]);
    (1059, [1091]); (1060, [1092]); (1061, [1093]); (1062, [1094]); (1063,
    [1095]); (1064, [1096]); (1065, [1097]); (1066, [1098]); (1067, [1099]);
    (1068, [1100]); (1069, [1101]); (1070, [1102]); (1071, [1103]); (1120,
    [1121]); (1122, [1123]); (1124, [1125]); (1126, [1127]); (1128, [1129]);
    (1130, [1131]); (1132, [1133]); (1134, [1135]); (1136, [1137]); (1138,
    [1139]); (1140, [1141]); (1142, [1143]); (1144, [1145]); (1146, [1147]);
    (1148, [1149]); (1150, [1151]); (1152, [1153]); (1162, [1163]); (1164,
    [1165]); (1166, [1167]); (1168, [1169]); (1170, [1171]); (1172, [1173]);
    (1174, [1175]); (1176, [1177]); (1178, [1179]); (1180, [1181]); (1182,
    [1183]); (1184, [1185]); (1186, [1187]); (1188, [1189]); (1190, [1191]);
    (1192, [1193]); (1194, [1195]); (1196, [1197]); (1198, [1199]); (1200,
    [1201]); (1202, [1203]); (1204, [1205]); (1206, [1207]); (1208, [1209]);
    (1210, [1211]); (1212, [1213]); (1214, [1215]); (1216, [1231]); (1217,
    [1218]); (1219, [1220]); (1221, [1222]); (1223, [1224]); (1225, [1226]);
    (1227, [1228]); (1229, [1230]); (1232, [1233]); (1234, [1235]); (1236,
    [1237]); (1238, [1239]); (1240, [1241]); (1242, [1243]); (1244, [1245]);
    (1246, [1247]); (1248, [1249]); (1250, [1251]); (1252, [1253]); (1254,
    [1255]); (1256, [1257]); (1258, [1259]); (1260, [1261]); (1262, [1263]);
    (1264, [1265]); (1266, [1267]); (1268, [1269]); (1270, [1271]); (1272,
    [1273]); (1274, [1275]); (1276, [1277]); (1278, [1279]); (1280, [1281]);
    (1282, [1283]); (1284, [1285]); (1286, [1287]); (1288, [1289]); (1290,
    [1291]); (1292, [1293]); (1294, [1295]); (1296, [1297]); (1298, [1299]);
    (1300, [1301]); (1302, [1303]); (1304, [1305]); (1306, [1307]); (1308,
    [1309]); (1310, [1311]); (1312, [1313]); (1314, [1315]); (1316, [1317]);
    (1318, [1319]); (1320, [1321]); (1322, [1323]); (1324, [1325]); (1326,
    [1327]); (1329, [1377]); (1330, [1378]); (1331, [1379]); (1332, [1380]);
    (1333, [1381]); (1334, [1382]); (1335, [1383]); (1336, [1384]); (1337,
    [1385]); (1338, [1386]); (1339, [1387]); (1340, [1388]); (1341, [1389]);
    (1342, [1390]); (1343, [1391]); (1344, [1392]); (1345, [1393]); (1346,
    [1394]); (1347, [1395]); (1348, [1396]); (1349, [1397]); (1350, [1398]);
    (1351, [1399]); (1352, [1400]); (1353, [1401]); (1354, [1402]); (1355,
    [1403]); (1356, [1404]); (1357, [1405]); (1358, [1406]); (1359, [1407]);
    (1360, [1408]); (1361, [1409]); (1362, [1410]); (1363, [1411]); (1364,
    [1412]); (1365, [1413]); (1366, [1414]); (4256, [11520]); (4257, [11521]);
    (4258, [11522]); (4259, [11523]); (4260, [11524]); (4261, [11525]); (4262,
    [11526]); (4263, [11527]); (4264, [11528]); (4265, [11529]); (4266,
    [11530]); (4267, [11531]); (4268, [11532]); (4269, [11533]); (4270,
    [11534]); (4271, [11535]); (4272, [11536]); (4273, [11537]); (4274,
    [11538]); (4275, [11539]); (4276, [11540]); (4277, [11541]); (4278,
    [11542]); (4279, [11543]); (4280, [11544]); (4281, [11545]); (4282,
    [11546]); (4283, [11547]); (4284, [11548]); (4285, [11549]); (4286,
    [11550]); (4287, [11551]); (4288, [11552]); (4289, [11553]); (4290,
    [11554]); (4291, [11555]); (4292, [11556]); (4293, [11557]); (4295,
    [11559]); (4301, [11565]); (5024, [43888]); (5025, [43889]); (5026,
    [43890]); (5027, [43891]); (5028, [43892]); (5029, [43893]); (5030,
    [43894]); (5031, [43895]); (5032, [43896]); (5033, [43897]); (5034,
    [43898]); (5035, [43899]); (5036, [43900]); (5037, [43901]); (5038,
    [43902]); (5039, [43903]); (5040, [43904]); (5041, [43905]); (5042,
    [43906]); (5043, [43907]); (5044, [43908]); (5045, [43909]); (5046,
    [43910]); (5047, [43911]); (5048, [43912]); (5049, [43913]); (5050,
    [43914]); (5051, [43915]); (5052, [43916]); (5053, [43917]); (5054,
    [43918]); (5055, [43919]); (5056, [43920]); (5057, [43921]); (5058,
    [43922]); (5059, [43923]); (5060, [43924]); (5061, [43925]); (5062,
    [43926]); (5063, [43927]); (5064, [43928]); (5065, [43929]); (5066,
    [43930]); (5067, [43931]); (5068, [43932]); (5069, [43933]); (5070,
    [43934]); (5071, [43935]); (5072, [43936]); (5073, [43937]); (5074,
    [43938]); (5075, [43939]); (5076, [43940]); (5077, [43941]); (5078,
    [43942]); (5079, [43943]); (5080, [43944]); (5081, [43945]); (5082,
    [43946]); (5083, [43947]); (5084, [43948]); (5085, [43949]); (5086,
    [43950]); (5087, [43951]); (5088, [43952]); (5089, [43953]); (5090,
    [43954]); (5091, [43955]); (5092, [43956]); (5093, [43957]); (5094,
    [43958]); (5095, [43959]); (5096, [43960]); (5097, [43961]); (5098,
    [43962]); (5099, [43963]); (5100, [43964]); (5101, [43965]); (5102,
    [43966]); (5103, [43967]); (5104, [5112]); (5105, [5113]); (5106, [5114]);
    (5107, [5115]); (5108, [5116]); (5109, [5117]); (7312, [4304]); (7313,
    [4305]); (7314, [4306]); (7315, [4307]); (7316, [4308]); (7317, [4309]);
    (7318, [4310]); (7319, [4311]); (7320, [4312]); (7321, [4313]); (7322,
    [4314]); (7323, [4315]); (7324, [4316]); (7325, [4317]); (7326, [4318]);
    (7327, [4319]); (7328, [4320]); (7329, [4321]); (7330, [4322]); (7331,
    [4323]); (7332, [4324]); (7333, [4325]); (7334, [4326]); (7335, [4327]);
    (7336, [4328]); (7337, [4329]); (7338, [4330]); (7339, [4331]); (7340,
    [4332]); (7341, [4333]); (7342, [4334]); (7343, [4335]); (7344, [4336]);
    (7345, [4337]); (7346, [4338]); (7347, [4339]); (7348, [4340]); (7349,
    [4341]); (7350, [4342]); (7351, [4343]); (7352, [4344]); (7353, [4345]);
    (7354, [4346]); (7357, [4349]); (7358, [4350]); (7359, [4351]); (7680,
    [7681]); (7682, [7683]); (7684, [7685]); (7686, [7687]); (7688, [7689]);
    (7690, [7691]); (7692, [7693]); (7694, [7695]); (7696, [7697]); (7698,
    [7699]); (7700, [7701]); (7702, [7703]); (7704, [7705]); (7706, [7707]);
    (7708, [7709]); (7710, [7711]); (7712, [7713]); (7714, [7715]); (7716,
    [7717]); (7718, [7719]); (7720, [7721]); (7722, [7723]); (7724, [7725]);
    (7726, [7727]); (7728, [7729]); (7730, [7731]); (7732, [7733]); (7734,
    [7735]); (7736, [7737]); (7738, [7739]); (7740, [7741]); (7742, [7743]);
    (7744, [7745]); (7746, [7747]); (7748, [7749]); (7750, [7751]); (7752,
    [7753]); (7754, [7755]); (7756, [7757]); (7758, [7759]); (7760, [7761]);
    (7762, [7763]); (7764, [7765]); (7766, [7767]); (7768, [7769]); (7770,
    [7771]); (7772, [7773]); (7774, [7775]); (7776, [7777]); (7778, [7779]);
    (7780, [7781]); (7782, [7783]); (7784, [7785]); (7786, [7787]); (7788,
    [7789]); (7790, [7791]); (7792, [7793]); (7794, [7795]); (7796, [7797]);
    (7798, [7799]); (7800, [7801]); (7802, [7803]); (7804, [7805]); (7806,
    [7807]); (7808, [7809]); (7810, [7811]); (7812, [7813]); (7814, [7815]);
    (7816, [7817]); (7818, [7819]); (7820, [7821]); (7822, [7823]); (7824,
    [7825]); (7826, [7827]); (7828, [7829]); (7838, [223]); (7840, [7841]);
    (7842, [7843]); (7844, [7845]); (7846, [7847]); (7848, [7849]); (7850,
    [7851]); (7852, [7853]); (7854, [7855]); (7856, [7857]); (7858, [7859]);
    (7860, [7861]); (7862, [7863]); (7864, [7865]); (7866, [7867]); (7868,
    [7869]); (7870, [7871]); (7872, [7873]); (7874, [7875]); (7876, [7877]);
    (7878, [7879]); (7880, [7881]); (7882, [7883]); (7884, [7885]); (7886,
    [7887]); (7888, [7889]); (7890, [7891]); (7892, [7893]); (7894, [7895]);
    (7896, [7897]); (7898, [7899]); (7900, [7901]); (7902, [7903]); (7904,
    [7905]); (7906, [7907]); (7908, [7909]); (7910, [7911]); (7912, [7913]);
    (7914, [7915]); (7916, [7917]); (7918, [7919]); (7920, [7921]); (7922,
    [7923]); (7924, [7925]); (7926, [7927]); (7928, [7929]); (7930, [7931]);
    (7932, [7933]); (7934, [7935]); (7944, [7936]); (7945, [7937]); (7946,
    [7938]); (7947, [7939]); (7948, [7940]); (7949, [7941]); (7950, [7942]);
    (7951, [7943]); (7960, [7952]); (7961, [7953]); (7962, [7954]); (7963,
    [7955]); (7964, [7956]); (7965, [7957]); (7976, [7968]); (7977, [7969]);
    (7978, [7970]); (7979, [7971]); (7980, [7972]); (7981, [7973]); (7982,
    [7974]); (7983, [7975]); (7992, [7984]); (7993, [7985]); (7994, [7986]);
    (7995, [7987]); (7996, [7988]); (7997, [7989]); (7998, [7990]); (7999,
    [7991]); (8008, [8000]); (8009, [8001]); (8010, [8002]); (8011, [8003]);
    (8012, [8004]); (8013, [8005]); (8025, [8017]); (8027, [8019]); (8029,
    [8021]); (8031, [8023]); (8040, [8032]); (8041, [8033]); (8042, [8034]);
    (8043, [8035]); (8044, [8036]); (8045, [8037]); (8046, [8038]); (8047,
    [8039]); (8072, [8064]); (8073, [8065]); (8074, [8066]); (8075, [8067]);
    (8076, [8068]); (8077, [8069]); (8078, [8070]); (8079, [8071]); (8088,
    [8080]); (8089, [8081]); (8090, [8082]); (8091, [8083]); (8092, [8084]);
    (8093, [8085]); (8094, [8086]); (8095, [8087]); (8104, [8096]); (8105,
    [8097]); (8106, [8098]); (8107, [8099]); (8108, [8100]); (8109, [8101]);
    (8110, [8102]); (8111, [8103]); (8120, [8112]); (8121, [8113]); (8122,
    [8048]); (8123, [8049]); (8124, [8115]); (8136, [8050]); (8137, [8051]);
    (8138, [8052]); (8139, [8053]); (8140, [8131]); (8152, [8144]); (8153,
    [8145]); (8154, [8054]); (8155, [8055]); (8168, [8160]); (8169, [8161]);
    (8170, [8058]); (8171, [8059]); (8172, [8165]); (8184, [8056]); (8185,
    [8057]); (8186, [8060]); (8187, [8061]); (8188, [8179]); (8486, [969]);
    (8490, [107]); (8491, [229]); (8498, [8526]); (8544, [8560]); (8545,
    [8561]); (8546, [8562]); (8547, [8563]); (8548, [8564]); (8549, [8565]);
    (8550, [8566]); (8551, [8567]); (8552, [8568]); (8553, [8569]); (8554,
    [8570]); (8555, [8571]); (8556, [8572]); (8557, [8573]); (8558, [8574]);
    (8559, [8575]); (8579, [8580]); (9398, [9424]); (9399, [9425]); (9400,
    [9426]); (9401, [9427]); (9402, [9428]); (9403, [9429]); (9404, [9430]);
    (9405, [9431]); (9406, [9432]); (9407, [9433]); (9408, [9434]); (9409,
    [9435]); (9410, [9436]); (9411, [9437]); (9412, [9438]); (9413, [9439]);
    (9414, [9440]); (9415, [9441]); (9416, [9442]); (9417, [9443]); (9418,
    [9444]); (9419, [9445]); (9420, [9446]); (9421, [9447]); (9422, [9448]);
    (9423, [9449]); (11264, [11312]); (11265, [11313]); (11266, [11314]);
    (11267, [11315]); (11268, [11316]); (11269, [11317]); (11270, [11318]);
    (11271, [11319]); (11272, [11320]); (11273, [11321]); (11274, [11322]);
    (11275, [11323]); (11276, [11324]); (11277, [11325]); (11278, [11326]);
    (11279, [11327]); (11280, [11328]); (11281, [11329]); (11282, [11330]);
    (11283, [11331]); (11284, [11332]); (11285, [11333]); (11286, [11334]);
    (11287, [11335]); (11288, [11336]); (11289, [11337]); (11290, [11338]);
    (11291, [11339]); (11292, [11340]); (11293, [11341]); (11294, [11342]);
    (11295, [11343]); (11296, [11344]); (11297, [11345]); (11298, [11346]);
    (11299, [11347]); (11300, [11348]); (11301, [11349]); (11302, [11350]);
    (11303, [11351]); (11304, [11352]); (11305, [11353]); (11306, [11354]);
    (11307, [11355]); (11308, [11356]); (11309, [11357]); (11310, [11358]);
    (11311, [11359]); (11360, [11361]); (11362, [619]); (11363, [7549]);
    (11364, [637]); (11367, [11368]); (11369, [11370]); (11371, [11372]);
    (11373, [593]); (11374, [625]); (11375, [592]); (11376, [594]); (11378,
    [11379]); (11381, [11382]); (11390, [575]); (11391, [576]); (11392,
    [11393]); (11394, [11395]); (11396, [11397]); (11398, [11399]); (11400,
    [11401]); (11402, [11403]); (11404, [11405]); (11406, [11407]); (11408,
    [11409]); (11410, [11411]); (11412, [11413]); (11414, [11415]); (11416,
    [11417]); (11418, [11419]); (11420, [11421]); (11422, [11423]); (11424,
    [11425]); (11426, [11427]); (11428, [11429]); (11430, [11431]); (11432,
    [11433]); (11434, [11435]); (11436, [11437]); (11438, [11439]); (11440,
    [11441]); (11442, [11443]); (11444, [11445]); (11446, [11447]); (11448,
    [11449]); (11450, [11451]); (11452, [11453]); (11454, [11455]); (11456,
    [11457]); (11458, [11459]); (11460, [11461]); (11462, [11463]); (11464,
    [11465]); (11466, [11467]); (11468, [11469]); (11470, [11471]); (11472,
    [11473]); (11474, [11475]); (11476, [11477]); (11478, [11479]); (11480,
    [11481]); (11482, [11483]); (11484, [11485]); (11486, [11487]); (11488,
    [11489]); (11490, [11491]); (11499, [11500]); (11501, [11502]); (11506,
    [11507]); (42560, [42561]); (42562, [42563]); (42564, [42565]); (42566,
    [42567]); (42568, [42569]); (42570, [42571]); (42572, [42573]); (42574,
    [42575]); (42576, [42577]); (42578, [42579]); (42580, [42581]); (42582,
    [42583]); (42584, [42585]); (42586, [42587]); (42588, [42589]); (42590,
    [42591]); (42592, [42593]); (42594, [42595]); (42596, [42597]); (42598,
    [42599]); (42600, [42601]); (42602, [42603]); (42604, [42605]); (42624,
    [42625]); (42626, [42627]); (42628, [42629]); (42630, [42631]); (42632,
    [42633]); (42634, [42635]); (42636, [42637]); (42638, [42639]); (42640,
    [42641]); (42642, [42643]); (42644, [42645]); (42646, [42647]); (42648,
    [42649]); (42650, [42651]); (42786, [42787]); (42788, [42789]); (42790,
    [42791]); (42792, [42793]); (42794, [42795]); (42796, [42797]); (42798,
    [42799]); (42802, [42803]); (42804, [42805]); (42806, [42807]); (42808,
    [42809]); (42810, [42811]); (42812, [42813]); (42814, [42815]); (42816,
    [42817]); (42818, [42819]); (42820, [42821]); (42822, [42823]); (42824,
    [42825]); (42826, [42827]); (42828, [42829]); (42830, [42831]); (42832,
    [42833]); (42834, [42835]); (42836, [42837]); (42838, [42839]); (42840,
    [42841]); (42842, [42843]); (42844, [42845]); (42846, [42847]); (42848,
    [42849]); (42850, [42851]); (42852, [42853]); (42854, [42855]); (42856,
    [42857]); (42858, [42859]); (42860, [42861]); (42862, [42863]); (42873,
    [42874]); (42875, [42876]); (42877, [7545]); (42878, [42879]); (42880,
    [42881]); (42882, [42883]); (42884, [42885]); (42886, [42887]); (42891,
    [42892]); (42893, [613]); (42896, [42897]); (42898, [42899]); (42902,
    [42903]); (42904, [42905]); (42906, [42907]); (42908, [42909]); (42910,
    [42911]); (42912, [42913]); (42914, [42915]); (42916, [42917]); (42918,
    [42919]); (42920, [42921]); (42922, [614]); (42923, [604]); (42924,
    [609]); (42925, [620]); (42926, [618]); (42928, [670]); (42929, [647]);
    (42930, [669]); (42931, [43859]); (42932, [42933]); (42934, [42935]);
    (42936, [42937]); (42938, [42939]); (42940, [42941]); (42942, [42943]);
    (42944, [42945]); (42946, [42947]); (42948, [42900]); (42949, [642]);
    (42950, [7566]); (42951, [42952]); (42953, [42954]); (42960, [42961]);
    (42966, [42967]); (42968, [42969]); (42997, [42998]); (65313, [65345]);
    (65314, [65346]); (65315, [65347]); (65316, [65348]); (65317, [65349]);
    (65318, [65350]); (65319, [65351]); (65320, [65352]); (65321, [65353]);
    (65322, [65354]); (65323, [65355]); (65324, [65356]); (65325, [65357]);
    (65326, [65358]); (65327, [65359]); (65328, [65360]); (65329, [65361]);
    (65330, [65362]); (65331, [65363]); (65332, [65364]); (65333, [65365]);
    (65334, [65366]); (65335, [65367]); (65336, [65368]); (65337, [65369]);
    (65338, [65370]); (66560, [66600]); (66561, [66601]); (66562, [66602]);
    (66563, [66603]); (66564, [66604]); (66565, [66605]); (66566, [66606]);
    (66567, [66607]); (66568, [66608]); (66569, [66609]); (66570, [66610]);
    (66571, [66611]); (66572, [66612]); (66573, [66613]); (66574, [66614]);
    (66575, [66615]); (66576, [66616]); (66577, [66617]); (66578, [66618]);
    (66579, [66619]); (66580, [66620]); (66581, [66621]); (66582, [66622]);
    (66583, [66623]); (66584, [66624]); (66585, [66625]); (66586, [66626]);
    (66587, [66627]); (66588, [66628]); (66589, [66629]); (66590, [66630]);
    (66591, [66631]); (66592, [66632]); (66593, [66633]); (66594, [66634]);
    (66595, [66635]); (66596, [66636]); (66597, [66637]); (66598, [66638]);
    (66599, [66639]); (66736, [66776]); (66737, [66777]); (66738, [66778]);
    (66739, [66779]); (66740, [66780]); (66741, [66781]); (66742, [66782]);
    (66743, [66783]); (66744, [66784]); (66745, [66785]); (66746, [66786]);
    (66747, [66787]); (66748, [66788]); (66749, [66789]); (66750, [66790]);
    (66751, [66791]); (66752, [66792]); (66753, [66793]); (66754, [66794]);
    (66755, [66795]); (66756, [66796]); (66757, [66797]); (66758, [66798]);
    (66759, [66799]); (66760, [66800]); (66761, [66801]); (66762, [66802]);
    (66763, [66803]); (66764, [66804]); (66765, [66805]); (66766, [66806]);
    (66767, [66807]); (66768, [66808]); (66769, [66809]); (66770, [66810]);
    (66771, [66811]); (66928, [66967]); (66929, [66968]); (66930, [66969]);
    (66931, [66970]); (66932, [66971]); (66933, [66972]); (66934, [66973]);
    (66935, [66974]); (66936, [66975]); (66937, [66976]); (66938, [66977]);
    (66940, [66979]); (66941, [66980]); (66942, [66981]); (66943, [66982]);
    (66944, [66983]); (66945, [66984]); (66946, [66985]); (66947, [66986]);
    (66948, [66987]); (66949, [66988]); (66950, [66989]); (66951, [66990]);
    (66952, [66991]); (66953, [66992]); (66954, [66993]); (66956, [66995]);
    (66957, [66996]); (66958, [66997]); (66959, [66998]); (66960, [66999]);
    (66961, [67000]); (66962, [67001]); (66964, [67003]); (66965, [67004]);
    (68736, [68800]); (68737, [68801]); (68738, [68802]); (68739, [68803]);
    (68740, [68804]); (68741, [68805]); (68742, [68806]); (68743, [68807]);
    (68744, [68808]); (68745, [68809]); (68746, [68810]); (68747, [68811]);
    (68748, [68812]); (68749, [68813]); (68750, [68814]); (68751, [68815]);
    (68752, [68816]); (68753, [68817]); (68754, [68818]); (68755, [68819]);
    (68756, [68820]); (68757, [68821]); (68758, [68822]); (68759, [68823]);
    (68760, [68824]); (68761, [68825]); (68762, [68826]); (68763, [68827]);
    (68764, [68828]); (68765, [68829]); (68766, [68830]); (68767, [68831]);
    (68768, [68832]); (68769, [68833]); (68770, [68834]); (68771, [68835]);
    (68772, [68836]); (68773, [68837]); (68774, [68838]); (68775, [68839]);
    (68776, [68840]); (68777, [68841]); (68778, [68842]); (68779, [68843]);
    (68780, [68844]); (68781, [68845]); (68782, [68846]); (68783, [68847]);
    (68784, [68848]); (68785, [68849]); (68786, [68850]); (71840, [71872]);
    (71841, [71873]); (71842, [71874]); (71843, [71875]); (71844, [71876]);
    (71845, [71877]); (71846, [71878]); (71847, [71879]); (71848, [71880]);
    (71849, [71881]); (71850, [71882]); (71851, [71883]); (71852, [71884]);
    (71853, [71885]); (71854, [71886]); (71855, [71887]); (71856, [71888]);
    (71857, [71889]); (71858, [71890]); (71859, [71891]); (71860, [71892]);
    (71861, [71893]); (71862, [71894]); (71863, [71895]); (71864, [71896]);
    (71865, [71897]); (71866, [71898]); (71867, [71899]); (71868, [71900]);
    (71869, [71901]); (71870, [71902]); (71871, [71903]); (93760, [93792]);
    (93761, [93793]); (93762, [93794]); (93763, [93795]); (93764, [93796]);
    (93765, [93797]); (93766, [93798]); (93767, [93799]); (93768, [93800]);
    (93769, [93801]); (93770, [93802]); (93771, [93803]); (93772, [93804]);
    (93773, [93805]); (93774, [93806]); (93775, [93807]); (93776, [93808]);
    (93777, [93809]); (93778, [93810]); (93779, [93811]); (93780, [93812]);
    (93781, [93813]); (93782, [93814]); (93783, [93815]); (93784, [93816]);
    (93785, [93817]); (93786, [93818]); (93787, [93819]); (93788, [93820]);
    (93789, [93821]); (93790, [93822]); (93791, [93823]); (125184, [125218]);
    (125185, [125219]); (125186, [125220]); (125187, [125221]); (125188,
    [125222]); (125189, [125223]); (125190, [125224]); (125191, [125225]);
    (125192, [125226]); (125193, [125227]); (125194, [125228]); (125195,
    [125229]); (125196, [125230]); (125197, [125231]); (125198, [125232]);
    (125199, [125233]); (125200, [125234]); (125201, [125235]); (125202,
    [125236]); (125203, [125237]); (125204, [125238]); (125205, [125239]);
    (125206, [125240]); (125207, [125241]); (125208, [125242]); (125209,
    [125243]); (125210, [125244]); (125211, [125245]); (125212, [125246]);
    (125213, [125247]); (125214, [125248]); (125215, [125249]); (125216,
    [125250]); (125217, [125251])
  ].

(** The code points with the property Cased, as closed ranges. *)
Definition cased_ranges : list (N * N) :=
  [
    (65, 90); (97, 122); (170, 170); (181, 181); (186, 186); (192, 214); (216,
    246); (248, 442); (444, 447); (452, 659); (661, 696); (704, 705); (736,
    740); (837, 837); (880, 883); (886, 887); (890, 893); (895, 895); (902,
    902); (904, 906); (908, 908); (910, 929); (931, 1013); (1015, 1153);
    (1162, 1327); (1329, 1366); (1376, 1416); (4256, 4293); (4295, 4295);
    (4301, 4301); (4304, 4346); (4349, 4351); (5024, 5109); (5112, 5117);
    (7296, 7304); (7312, 7354); (7357, 7359); (7424, 7615); (7680, 7957);
    (7960, 7965); (7968, 8005); (8008, 8013); (8016, 8023); (8025, 8025);
    (8027, 8027); (8029, 8029); (8031, 8061); (8064, 8116); (8118, 8124);
    (8126, 8126); (8130, 8132); (8134, 8140); (8144, 8147); (8150, 8155);
    (8160, 8172); (8178, 8180); (8182, 8188); (8305, 8305); (8319, 8319);
    (8336, 8348); (8450, 8450); (8455, 8455); (8458, 8467); (8469, 8469);
    (8473, 8477); (8484, 8484); (8486, 8486); (8488, 8488); (8490, 8493);
    (8495, 8500); (8505, 8505); (8508, 8511); (8517, 8521); (8526, 8526);
    (8544, 8575); (8579, 8580); (9398, 9449); (11264, 11492); (11499, 11502);
    (11506, 11507); (11520, 11557); (11559, 11559); (11565, 11565); (42560,
    42605); (42624, 42653); (42786, 42887); (42891, 42894); (42896, 42954);
    (42960, 42961); (42963, 42963); (42965, 42969); (42997, 42998); (43000,
    43002); (43824, 43866); (43868, 43880); (43888, 43967); (64256, 64262);
    (64275, 64279); (65313, 65338); (65345, 65370); (66560, 66639); (66736,
    66771); (66776, 66811); (66928, 66938); (66940, 66954); (66956, 66962);
    (66964, 66965); (66967, 66977); (66979, 66993); (66995, 67001); (67003,
    67004); (67456, 67456); (67459, 67461); (67463, 67504); (67506, 67514);
    (68736, 68786); (68800, 68850); (71840, 71903); (93760, 93823); (119808,
    119892); (119894, 119964); (119966, 119967); (119970, 119970); (119973,
    119974); (119977, 119980); (119982, 119993); (119995, 119995); (119997,
    120003); (120005, 120069); (120071, 120074); (120077, 120084); (120086,
    120092); (120094, 120121); (120123, 120126); (120128, 120132); (120134,
    120134); (120138, 120144); (120146, 120485); (120488, 120512); (120514,
    120538); (120540, 120570); (120572, 120596); (120598, 120628); (120630,
    120654); (120656, 120686); (120688, 120712); (120714, 120744); (120746,
    120770); (120772, 120779); (122624, 122633); (122635, 122654); (125184,
    125251); (127280, 127305); (127312, 127337); (127344, 127369)
  ].

(** The code points with the property Case_Ignorable, as closed ranges. *)
Definition case_ignorable_ranges : list (N * N) :=
  [
    (39, 39); (46, 46); (58, 58); (94, 94); (96, 96); (168, 168); (173, 173);
    (175, 175); (180, 180); (183, 184); (688, 879); (884, 885); (890, 890);
    (900, 901); (903, 903); (1155, 1161); (1369, 1369); (1375, 1375); (1425,
    1469); (1471, 1471); (1473, 1474); (1476, 1477); (1479, 1479); (1524,
    1524); (1536, 1541); (1552, 1562); (1564, 1564); (1600, 1600); (1611,
    1631); (1648, 1648); (1750, 1757); (1759, 1768); (1770, 1773); (1807,
    1807); (1809, 1809); (1840, 1866); (1958, 1968); (2027, 2037); (2042,
    2042); (2045, 2045); (2070, 2093); (2137, 2139); (2184, 2184); (2192,
    2193); (2200, 2207); (2249, 2306); (2362, 2362); (2364, 2364); (2369,
    2376); (2381, 2381); (2385, 2391); (2402, 2403); (2417, 2417); (2433,
    2433); (2492, 2492); (2497, 2500); (2509, 2509); (2530, 2531); (2558,
    2558); (2561, 2562); (2620, 2620); (2625, 2626); (2631, 2632); (2635,
    2637); (2641, 2641); (2672, 2673); (2677, 2677); (2689, 2690); (2748,
    2748); (2753, 2757); (2759, 2760); (2765, 2765); (2786, 2787); (2810,
    2815); (2817, 2817); (2876, 2876); (2879, 2879); (2881, 2884); (2893,
    2893); (2901, 2902); (2914, 2915); (2946, 2946); (3008, 3008); (3021,
    3021); (3072, 3072); (3076, 3076); (3132, 3132); (3134, 3136); (3142,
    3144); (3146, 3149); (3157, 3158); (3170, 3171); (3201, 3201); (3260,
    3260); (3263, 3263); (3270, 3270); (3276, 3277); (3298, 3299); (3328,
    3329); (3387, 3388); (3393, 3396); (3405, 3405); (3426, 3427); (3457,
    3457); (3530, 3530); (3538, 3540); (3542, 3542); (3633, 3633); (3636,
    3642); (3654, 3662); (3761, 3761); (3764, 3772); (3782, 3782); (3784,
    3789); (3864, 3865); (3893, 3893); (3895, 3895); (3897, 3897); (3953,
    3966); (3968, 3972); (3974, 3975); (3981, 3991); (3993, 4028); (4038,
    4038); (4141, 4144); (4146, 4151); (4153, 4154); (4157, 4158); (4184,
    4185); (4190, 4192); (4209, 4212); (4226, 4226); (4229, 4230); (4237,
    4237); (4253, 4253); (4348, 4348); (4957, 4959); (5906, 5908); (5938,
    5939); (5970, 5971); (6002, 6003); (6068, 6069); (6071, 6077); (6086,
    6086); (6089, 6099); (6103, 6103); (6109, 6109); (6155, 6159); (6211,
    6211); (6277, 6278); (6313, 6313); (6432, 6434); (6439, 6440); (6450,
    6450); (6457, 6459); (6679, 6680); (6683, 6683); (6742, 6742); (6744,
    6750); (6752, 6752); (6754, 6754); (6757, 6764); (6771, 6780); (6783,
    6783); (6823, 6823); (6832, 6862); (6912, 6915); (6964, 6964); (6966,
    6970); (6972, 6972); (6978, 6978); (7019, 7027); (7040, 7041); (7074,
    7077); (7080, 7081); (7083, 7085); (7142, 7142); (7144, 7145); (7149,
    7149); (7151, 7153); (7212, 7219); (7222, 7223); (7288, 7293); (7376,
    7378); (7380, 7392); (7394, 7400); (7405, 7405); (7412, 7412); (7416,
    7417); (7468, 7530); (7544, 7544); (7579, 7679); (8125, 8125); (8127,
    8129); (8141, 8143); (8157, 8159); (8173, 8175); (8189, 8190); (8203,
    8207); (8216, 8217); (8228, 8228); (8231, 8231); (8234, 8238); (8288,
    8292); (8294, 8303); (8305, 8305); (8319, 8319); (8336, 8348); (8400,
    8432); (11388, 11389); (11503, 11505); (11631, 11631); (11647, 11647);
    (11744, 11775); (11823, 11823); (12293, 12293); (12330, 12333); (12337,
    12341); (12347, 12347); (12441, 12446); (12540, 12542); (40981, 40981);
    (42232, 42237); (42508, 42508); (42607, 42610); (42612, 42621); (42623,
    42623); (42652, 42655); (42736, 42737); (42752, 42785); (42864, 42864);
    (42888, 42890); (42994, 42996); (43000, 43001); (43010, 43010); (43014,
    43014); (43019, 43019); (43045, 43046); (43052, 43052); (43204, 43205);
    (43232, 43249); (43263, 43263); (43302, 43309); (43335, 43345); (43392,
    43394); (43443, 43443); (43446, 43449); (43452, 43453); (43471, 43471);
    (43493, 43494); (43561, 43566); (43569, 43570); (43573, 43574); (43587,
    43587); (43596, 43596); (43632, 43632); (43644, 43644); (43696, 43696);
    (43698, 43700); (43703, 43704); (43710, 43711); (43713, 43713); (43741,
    43741); (43756, 43757); (43763, 43764); (43766, 43766); (43867, 43871);
    (43881, 43883); (44005, 44005); (44008, 44008); (44013, 44013); (64286,
    64286); (64434, 64450); (65024, 65039); (65043, 65043); (65056, 65071);
    (65106, 65106); (65109, 65109); (65279, 65279); (65287, 65287); (65294,
    65294); (65306, 65306); (65342, 65342); (65344, 65344); (65392, 65392);
    (65438, 65439); (65507, 65507); (65529, 65531); (66045, 66045); (66272,
    66272); (66422, 66426); (67456, 67461); (67463, 67504); (67506, 67514);
    (68097, 68099); (68101, 68102); (68108, 68111); (68152, 68154); (68159,
    68159); (68325, 68326); (68900, 68903); (69291, 69292); (69446, 69456);
    (69506, 69509); (69633, 69633); (69688, 69702); (69744, 69744); (69747,
    69748); (69759, 69761); (69811, 69814); (69817, 69818); (69821, 69821);
    (69826, 69826); (69837, 69837); (69888, 69890); (69927, 69931); (69933,
    69940); (70003, 70003); (70016, 70017); (70070, 70078); (70089, 70092);
    (70095, 70095); (70191, 70193); (70196, 70196); (70198, 70199); (70206,
    70206); (70367, 70367); (70371, 70378); (70400, 70401); (70459, 70460);
    (70464, 70464); (70502, 70508); (70512, 70516); (70712, 70719); (70722,
    70724); (70726, 70726); (70750, 70750); (70835, 70840); (70842, 70842);
    (70847, 70848); (70850, 70851); (71090, 71093); (71100, 71101); (71103,
    71104); (71132, 71133); (71219, 71226); (71229, 71229); (71231, 71232);
    (71339, 71339); (71341, 71341); (71344, 71349); (71351, 71351); (71453,
    71455); (71458, 71461); (71463, 71467); (71727, 71735); (71737, 71738);
    (71995, 71996); (71998, 71998); (72003, 72003); (72148, 72151); (72154,
    72155); (72160, 72160); (72193, 72202); (72243, 72248); (72251, 72254);
    (72263, 72263); (72273, 72278); (72281, 72283); (72330, 72342); (72344,
    72345); (72752, 72758); (72760, 72765); (72767, 72767); (72850, 72871);
    (72874, 72880); (72882, 72883); (72885, 72886); (73009, 73014); (73018,
    73018); (73020, 73021); (73023, 73029); (73031, 73031); (73104, 73105);
    (73109, 73109); (73111, 73111); (73459, 73460); (78896, 78904); (92912,
    92916); (92976, 92982); (92992, 92995); (94031, 94031); (94095, 94111);
    (94176, 94177); (94179, 94180); (110576, 110579); (110581, 110587);
    (110589, 110590); (113821, 113822); (113824, 113827); (118528, 118573);
    (118576, 118598); (119143, 119145); (119155, 119170); (119173, 119179);
    (119210, 119213); (119362, 119364); (121344, 121398); (121403, 121452);
    (121461, 121461); (121476, 121476); (121499, 121503); (121505, 121519);
    (122880, 122886); (122888, 122904); (122907, 122913); (122915, 122916);
    (122918, 122922); (123184, 123197); (123566, 123566); (123628, 123631);
    (125136, 125142); (125252, 125259); (127995, 127999); (917505, 917505);
    (917536, 917631); (917760, 917999)
  ].

End Unicode.

(** ** Python strings *)

(** An ASCII literal as a Python string. *)
Definition py (s : string) : list N :=
  map N_of_ascii (list_ascii_of_string s).

Module PyStr.

(** [c.isspace()] for one code point. *)
Definition isspace (c : N) : bool := bool_decide (c ∈ Unicode.whitespace).

(** The lower-case mapping of single code points as a dictionary. *)
Definition lower_map : gmap N (list N) := list_to_map Unicode.lower_pairs.

Definition in_ranges (c : N) (ranges : list (N * N)) : bool :=
  existsb (λ r, (r.1 <=? c)%N && (c <=? r.2)%N) ranges.

Definition is_cased (c : N) : bool := in_ranges c Unicode.cased_ranges.

Definition is_case_ignorable (c : N) : bool :=
  in_ranges c Unicode.case_ignorable_ranges.

(** The full lower-case mapping of a code point other than the capital
    sigma: what the table says, or the code point itself. *)
Definition lower_cp (c : N) : list N := default [c] (lower_map !! c).

(** The capital sigma, U+03A3, and its two lower-case forms. *)
Definition capital_sigma : N := 931.
Definition final_small_sigma : N := 962.
Definition small_sigma : N := 963.

Fixpoint skip_ignorable (s : list N) : list N :=
  match s with
  | c :: s' => if is_case_ignorable c then skip_ignorable s' else s
  | [] => []
  end.

(** The nearest code point of [s] that is not case-ignorable exists and
    is cased. *)
Definition cased_next (s : list N) : bool :=
  match skip_ignorable s with
  | c :: _ => is_cased c
  | [] => false
  end.

(** The capital sigma is in final position when the nearest code point
    before it that is not case-ignorable is cased, and the nearest one
    after it, if any, is not. [before] is the text before the sigma,
    nearest code point first. *)
Definition final_sigma (before after : list N) : bool :=
  cased_next before && negb (cased_next after).

(** What the code point [c] becomes, with the text [before] it (nearest
    code point first) and the text [after] it. *)
Definition lower_at (before : list N) (c : N) (after : list N) : list N :=
  if bool_decide (c = capital_sigma)
  then [if final_sigma before after then final_small_sigma else small_sigma]
  else lower_cp c.

(** The lower-case form of the part [s] of a string, [before] being the
    text in front of [s], nearest code point first, and [after] the text
    behind it. *)
Fixpoint lower_from (before s after : list N) : list N :=
  match s with
  | [] => []
  | c :: rest =>
      lower_at before c (rest ++ after) ++ lower_from (c :: before) rest after
  end.

(** [s.lower()] *)
Definition lower (s : list N) : list N := lower_from [] s [].

(** White space removed in front, and behind. *)
Fixpoint lstrip (s : list N) : list N :=
  match s with
  | c :: s' => if isspace c then lstrip s' else s
  | [] => []
  end.

(** [s.strip()]: white space removed at both ends. *)
Definition rstrip (s : list N) : list N := rev (lstrip (rev s)).

(** [s.strip()]: white space removed at both ends. *)
Definition strip (s : list N) : list N := rstrip (lstrip s).

(** [s.split(sep)] for a one-character separator: always at least one
    field, empty fields are kept. *)
Fixpoint split (sep : N) (s : list N) : list (list N) :=
  match s with
  | [] => [[]]
  | c :: s' =>
      if decide (c = sep) then [] :: split sep s'
      else match split sep s' with
           | h :: t => (c :: h) :: t
           | [] => [[c]]
           end
  end.

(** [len(s)]: the number of code points. *)
Definition len (s : list N) : nat := length s.

End PyStr.

(** The plus sign that separates the parts of a hotkey. *)
Definition plus_sign : N := 43.
(** ** Key identifiers (pynput) *)

(** The members of [pynput.keyboard.Key] that the program names, and the
    generic modifier members that a listener can also report. *)
Inductive Key : Set :=
  | Key_alt | Key_alt_l | Key_alt_r | Key_alt_gr
  | Key_ctrl | Key_ctrl_l | Key_ctrl_r
  | Key_shift | Key_shift_l | Key_shift_r
  | Key_cmd | Key_cmd_l | Key_cmd_r
  | Key_space | Key_enter | Key_tab | Key_esc | Key_backspace | Key_delete
  | Key_up | Key_down | Key_left | Key_right
  | Key_home | Key_end | Key_page_up | Key_page_down | Key_insert
  | Key_caps_lock
  | Key_f1 | Key_f2 | Key_f3 | Key_f4 | Key_f5 | Key_f6
  | Key_f7 | Key_f8 | Key_f9 | Key_f10 | Key_f11 | Key_f12.

(** [pynput.keyboard.KeyCode]. In a Python set a key code is identified by
    what its [repr] shows: the character the operating system reports for
    the key when there is one, the virtual key code otherwise. *)
Inductive KeyCode : Set :=
  | from_char (c : list N)
  | from_vk (vk : option Z).

(** The attribute [char] of a key code, [None] when it has no character. *)
Definition char (k : KeyCode) : option (list N) :=
  match k with
  | from_char c => Some c
  | from_vk _ => None
  end.

(** What the listener passes to [on_press] and [on_release]. *)
Inductive key_id : Set :=
  | special (k : Key)
  | code (c : KeyCode).

#[global] Instance Key_eq_dec : EqDecision Key.
Proof. solve_decision. Defined.

Definition Key_all : list Key :=
  [ Key_alt; Key_alt_l; Key_alt_r; Key_alt_gr; Key_ctrl; Key_ctrl_l; Key_ctrl_r;
    Key_shift; Key_shift_l; Key_shift_r; Key_cmd; Key_cmd_l; Key_cmd_r;
    Key_space; Key_enter; Key_tab; Key_esc; Key_backspace; Key_delete;
    Key_up; Key_down; Key_left; Key_right; Key_home; Key_end; Key_page_up;
    Key_page_down; Key_insert; Key_caps_lock;
    Key_f1; Key_f2; Key_f3; Key_f4; Key_f5; Key_f6;
    Key_f7; Key_f8; Key_f9; Key_f10; Key_f11; Key_f12 ].

Definition Key_index (k : Key) : nat :=
  default 0%nat (fst <$> list_find (λ k', k' = k) Key_all).

#[global] Instance Key_countable : Countable Key.
Proof.
  apply (inj_countable Key_index (λ n, Key_all !! n)).
  intros k; destruct k; reflexivity.
Defined.

#[global] Instance KeyCode_eq_dec : EqDecision KeyCode.
Proof. solve_decision. Defined.

#[global] Instance KeyCode_countable : Countable KeyCode.
Proof.
  apply (inj_countable'
           (λ k, match k with from_char c => inl c | from_vk v => inr v end)
           (λ s, match s with inl c => from_char c | inr v => from_vk v end)).
  intros []; reflexivity.
Defined.

#[global] Instance key_id_eq_dec : EqDecision key_id.
Proof. solve_decision. Defined.

#[global] Instance key_id_countable : Countable key_id.
Proof.
  apply (inj_countable'
           (λ k, match k with special k => inl k | code c => inr c end)
           (λ s, match s with inl k => special k | inr c => code c end)).
  intros []; reflexivity.
Defined.

(** ** The assistant object *)

(** One block of samples as the audio stream delivers it ([indata]): 32-bit
    floats in [-1, 1], modelled as rationals. *)
Definition frame : Type := list Q.

(** [self.silence_start_time] is not assigned by [__init__]: the attribute
    is missing until [start_recording] assigns [None] to it. *)
Inductive py_attr : Type :=
  | attr_missing
  | attr_None
  | attr_time (t : Q).

(** Attributes read from the environment by [__init__], never reassigned. *)
Record Config : Type := mkConfig {
  RATE : Z;
  DEVICE_INDEX : Z;
  SILENCE_THRESHOLD : Z;
  SILENCE_DURATION : Q;
  hotkey_str : list N
}.

(** The mutable attributes of [self]. [stream] is [None] while the object
    has no [stream] attribute, and otherwise tells whether the last stream
    created is running. *)
Record VoiceTypingAssistant : Type := mkAssistant {
  config : Config;
  is_recording : bool;
  audio_frames : list frame;
  recording_start_time : option Q;
  hotkey_pressed : bool;
  has_detected_speech : bool;
  should_transcribe : bool;
  silence_start_time : py_attr;
  pressed_keys : gset key_id;
  stream : option bool
}.

(** Messages of the [print] calls that the modelled methods make. *)
Inductive message : Type :=
  | msg_recording_started
  | msg_recording_stopped
  | msg_silence_detected (duration : Q)
  | msg_audio_callback_error
  | msg_unknown_key (part hotkey : list N)
  | msg_transcribed (text : list N)
  | msg_text_typed
  | msg_no_speech
  | msg_transcription_error
  | msg_key_press_error.

(** What a method does to the outside world. [call_toggle_recording] marks
    an invocation of [toggle_recording]; [transcriptions_create] is the call
    to the transcription service with the recorded frames; [type_text] is
    the call that injects the text. *)
Inductive effect : Type :=
  | print (m : message)
  | call_toggle_recording
  | stream_start
  | stream_stop_close
  | transcriptions_create (audio : list frame)
  | type_text (text : list N).

(** [__init__]: the state before [run]. *)
Definition init (cfg : Config) : VoiceTypingAssistant :=
  {| config := cfg;
     is_recording := false;
     audio_frames := [];
     recording_start_time := None;
     hotkey_pressed := false;
     has_detected_speech := false;
     should_transcribe := false;
     silence_start_time := attr_missing;
     pressed_keys := ∅;
     stream := None |}.

(** Attribute assignments. *)
Definition set_is_recording (b : bool) (s : VoiceTypingAssistant) :=
  mkAssistant (config s) b (audio_frames s) (recording_start_time s)
    (hotkey_pressed s) (has_detected_speech s) (should_transcribe s)
    (silence_start_time s) (pressed_keys s) (stream s).
Definition set_audio_frames (l : list frame) (s : VoiceTypingAssistant) :=
  mkAssistant (config s) (is_recording s) l (recording_start_time s)
    (hotkey_pressed s) (has_detected_speech s) (should_transcribe s)
    (silence_start_time s) (pressed_keys s) (stream s).
Definition set_recording_start_time (t : option Q) (s : VoiceTypingAssistant) :=
  mkAssistant (config s) (is_recording s) (audio_frames s) t
    (hotkey_pressed s) (has_detected_speech s) (should_transcribe s)
    (silence_start_time s) (pressed_keys s) (stream s).
Definition set_hotkey_pressed (b : bool) (s : VoiceTypingAssistant) :=
  mkAssistant (config s) (is_recording s) (audio_frames s)
    (recording_start_time s) b (has_detected_speech s) (should_transcribe s)
    (silence_start_time s) (pressed_keys s) (stream s).
Definition set_has_detected_speech (b : bool) (s : VoiceTypingAssistant) :=
  mkAssistant (config s) (is_recording s) (audio_frames s)
    (recording_start_time s) (hotkey_pressed s) b (should_transcribe s)
    (silence_start_time s) (pressed_keys s) (stream s).
Definition set_should_transcribe (b : bool) (s : VoiceTypingAssistant) :=
  mkAssistant (config s) (is_recording s) (audio_frames s)
    (recording_start_time s) (hotkey_pressed s) (has_detected_speech s) b
    (silence_start_time s) (pressed_keys s) (stream s).
Definition set_silence_start_time (a : py_attr) (s : VoiceTypingAssistant) :=
  mkAssistant (config s) (is_recording s) (audio_frames s)
    (recording_start_time s) (hotkey_pressed s) (has_detected_speech s)
    (should_transcribe s) a (pressed_keys s) (stream s).
Definition set_pressed_keys (p : gset key_id) (s : VoiceTypingAssistant) :=
  mkAssistant (config s) (is_recording s) (audio_frames s)
    (recording_start_time s) (hotkey_pressed s) (has_detected_speech s)
    (should_transcribe s) (silence_start_time s) p (stream s).
Definition set_stream (o : option bool) (s : VoiceTypingAssistant) :=
  mkAssistant (config s) (is_recording s) (audio_frames s)
    (recording_start_time s) (hotkey_pressed s) (has_detected_speech s)
    (should_transcribe s) (silence_start_time s) (pressed_keys s) o.

(** ** Hotkey parsing and matching *)

(** [parse_hotkey]: the hotkey string split at ['+'], every part stripped
    and lower-cased. The cache [_parsed_hotkey] holds this value, since
    [hotkey_str] is never reassigned. *)
Definition parse_hotkey (cfg : Config) : list (list N) :=
  map (λ p, PyStr.lower (PyStr.strip p))
      (PyStr.split plus_sign (hotkey_str cfg)).

(** The dictionary [modifier_map] of [is_hotkey_pressed]. *)
Definition modifier_map : gmap (list N) (list Key) :=
  list_to_map
    [ (py "ctrl", [Key_ctrl_l; Key_ctrl_r]);
      (py "control", [Key_ctrl_l; Key_ctrl_r]);
      (py "alt", [Key_alt_l; Key_alt_r]);
      (py "shift", [Key_shift_l; Key_shift_r]);
      (py "shift_l", [Key_shift_l]);
      (py "shift_r", [Key_shift_r]);
      (py "ctrl_l", [Key_ctrl_l]);
      (py "ctrl_r", [Key_ctrl_r]);
      (py "alt_l", [Key_alt_l]);
      (py "alt_r", [Key_alt_r]);
      (py "cmd", [Key_cmd_l; Key_cmd_r]);
      (py "cmd_l", [Key_cmd_l]);
      (py "cmd_r", [Key_cmd_r]) ].

(** The dictionary [special_key_map] of [is_hotkey_pressed]. *)
Definition special_key_map : gmap (list N) Key :=
  list_to_map
    [ (py "space", Key_space); (py "enter", Key_enter); (py "tab", Key_tab);
      (py "esc", Key_esc); (py "escape", Key_esc); (py "backspace", Key_backspace);
      (py "delete", Key_delete); (py "up", Key_up); (py "down", Key_down);
      (py "left", Key_left); (py "right", Key_right); (py "home", Key_home);
      (py "end", Key_end); (py "page_up", Key_page_up);
      (py "page_down", Key_page_down); (py "insert", Key_insert);
      (py "f1", Key_f1); (py "f2", Key_f2); (py "f3", Key_f3); (py "f4", Key_f4);
      (py "f5", Key_f5); (py "f6", Key_f6); (py "f7", Key_f7); (py "f8", Key_f8);
      (py "f9", Key_f9); (py "f10", Key_f10); (py "f11", Key_f11); (py "f12", Key_f12) ].

(** [any(key in self.pressed_keys for key in modifier_keys)] *)
Definition any_pressed (pressed : gset key_id) (modifier_keys : list Key) : bool :=
  existsb (λ key, bool_decide (special key ∈ pressed)) modifier_keys.

(** The inner loop over [self.pressed_keys]: some pressed key is a
    [KeyCode] whose [char] equals [part]. *)
Definition char_pressed (pressed : gset key_id) (part : list N) : bool :=
  existsb (λ key, match key with
                  | code c => bool_decide (char c = Some part)
                  | special _ => false
                  end)
          (elements pressed).

(** The loop of [is_hotkey_pressed] over the parts still to check: the
    result, and the warning printed on the way if any. *)
Fixpoint check_parts (hotkey : list N) (pressed : gset key_id)
    (parts : list (list N)) : bool * list effect :=
  match parts with
  | [] => (true, [])
  | part :: rest =>
      match modifier_map !! part with
      | Some modifier_keys =>
          if any_pressed pressed modifier_keys
          then check_parts hotkey pressed rest
          else (false, [])
      | None =>
          match special_key_map !! part with
          | Some k =>
              if bool_decide (special k ∈ pressed)
              then check_parts hotkey pressed rest
              else (false, [])
          | None =>
              if (PyStr.len part =? 1)%nat then
                if char_pressed pressed part
                then check_parts hotkey pressed rest
                else (false, [])
              else (false, [print (msg_unknown_key part hotkey)])
          end
      end
  end.

Definition is_hotkey_pressed (s : VoiceTypingAssistant) : bool * list effect :=
  check_parts (hotkey_str (config s)) (pressed_keys s) (parse_hotkey (config s)).

(** ** Silence classification *)

(** Two's complement wrap-around of a 16-bit integer. *)
Definition wrap_int16 (z : Z) : Z := (z + 32768) mod 65536 - 32768.

(** [x.astype(np.int16)] for one sample: truncation toward zero; a value
    outside the 16-bit range wraps. *)
Definition astype_int16 (x : Q) : Z :=
  wrap_int16 (Z.quot (Qnum x) (Zpos (Qden x))).

(** [(indata.flatten() * 32768).astype(np.int16)] *)
Definition scale_int16 (indata : frame) : list Z :=
  map (λ x, astype_int16 (x * 32768)%Q) indata.

(** [np.abs] on one [int16]: the result is again an [int16], so the
    magnitude of -32768 wraps back to -32768. *)
Definition np_abs (x : Z) : Z := wrap_int16 (Z.abs x).

Definition np_sum (l : list Z) : Z := foldr Z.add 0 l.

(** [a.mean()]: [None] stands for the [nan] of an empty array. *)
Definition np_mean (l : list Z) : option Q :=
  match l with
  | [] => None
  | _ :: _ => Some (np_sum l # Pos.of_nat (length l))
  end.

Definition Qlt_bool (a b : Q) : bool :=
  match (a ?= b)%Q with Lt => true | _ => false end.

(** [is_silent]: [np.abs(audio_data).mean() < self.SILENCE_THRESHOLD];
    a comparison with [nan] is false. *)
Definition is_silent (cfg : Config) (audio_data : list Z) : bool :=
  match np_mean (map np_abs audio_data) with
  | Some m => Qlt_bool m (inject_Z (SILENCE_THRESHOLD cfg))
  | None => false
  end.

(** ** Recording session *)

(** [audio_callback]; [now] is what [time.time()] returns during the call.
    Reading the missing attribute raises, and the handler of the method
    prints the error; the frame has been appended by then. *)
Definition audio_callback (s : VoiceTypingAssistant) (indata : frame) (now : Q)
    : VoiceTypingAssistant * list effect :=
  if is_recording s then
    let s1 := set_audio_frames (audio_frames s ++ [indata]) s in
    let audio_data := scale_int16 indata in
    if is_silent (config s1) audio_data then
      if has_detected_speech s1 then
        match silence_start_time s1 with
        | attr_missing => (s1, [print msg_audio_callback_error])
        | attr_None => (set_silence_start_time (attr_time now) s1, [])
        | attr_time t0 =>
            if Qle_bool (SILENCE_DURATION (config s1)) (now - t0)
            then (set_is_recording false (set_should_transcribe true s1),
                  [print (msg_silence_detected (SILENCE_DURATION (config s1)))])
            else (s1, [])
        end
      else (s1, [])
    else
      (set_has_detected_speech true (set_silence_start_time attr_None s1), [])
  else (s, []).

(** What opening the input stream does: [sd.InputStream(...)] raises, or
    it returns and [self.stream.start()] raises, or both return. *)
Inductive stream_outcome : Set :=
  | stream_opened
  | constructor_raises
  | start_raises.

Definition raises (o : stream_outcome) : bool :=
  match o with
  | stream_opened => false
  | constructor_raises | start_raises => true
  end.

(** [start_recording]. The attributes are assigned before the stream is
    opened, so they keep their new values when opening it raises; when the
    constructor raises, [self.stream] is not assigned. Whether the method
    raises is [raises o]. *)
Definition start_recording (s : VoiceTypingAssistant) (now : Q)
    (o : stream_outcome) : VoiceTypingAssistant * list effect :=
  let s1 := set_has_detected_speech false
              (set_silence_start_time attr_None
                 (set_recording_start_time (Some now)
                    (set_audio_frames []
                       (set_is_recording true s)))) in
  match o with
  | stream_opened =>
      (set_stream (Some true) s1, [print msg_recording_started; stream_start])
  | constructor_raises => (s1, [print msg_recording_started])
  | start_raises => (set_stream (Some false) s1, [print msg_recording_started])
  end.

(** [stop_recording_and_transcribe] *)
Definition stop_recording_and_transcribe (s : VoiceTypingAssistant)
    : VoiceTypingAssistant * list effect :=
  if negb (is_recording s) then (s, [])
  else (set_is_recording false s, [print msg_recording_stopped]).

(** [toggle_recording] *)
Definition toggle_recording (s : VoiceTypingAssistant) (now : Q)
    (o : stream_outcome) : VoiceTypingAssistant * list effect :=
  let r := if negb (is_recording s) then start_recording s now o
           else stop_recording_and_transcribe s in
  (r.1, call_toggle_recording :: r.2).

(** [toggle_recording] raises when it starts a recording and opening the
    stream raises. *)
Definition toggle_raises (s : VoiceTypingAssistant) (o : stream_outcome)
    : bool :=
  negb (is_recording s) && raises o.

(** ** Key-event handlers of [run] *)

(** [on_press]; an exception of [toggle_recording] ends in the handler
    that prints the key press error. *)
Definition on_press (s : VoiceTypingAssistant) (key : key_id) (now : Q)
    (o : stream_outcome) : VoiceTypingAssistant * list effect :=
  let s1 := set_pressed_keys ({[ key ]} ∪ pressed_keys s) s in
  let r := is_hotkey_pressed s1 in
  if r.1 then
    if negb (hotkey_pressed s1) then
      let s2 := set_hotkey_pressed true s1 in
      let t := toggle_recording s2 now o in
      (t.1, r.2 ++ t.2
            ++ if toggle_raises s2 o then [print msg_key_press_error] else [])
    else (s1, r.2)
  else (s1, r.2).

Definition on_release (s : VoiceTypingAssistant) (key : key_id)
    : VoiceTypingAssistant * list effect :=
  let s1 := set_pressed_keys (pressed_keys s ∖ {[ key ]}) s in
  if bool_decide (key = special Key_ctrl_l) || bool_decide (key = special Key_ctrl_r)
  then (set_hotkey_pressed false s1, [])
  else (s1, []).

(** ** Transcript post-processing and the control loop *)

(** [c in ".,;:"] for a one-character string [c]. *)
Definition is_trailing_punct (c : N) : bool :=
  bool_decide (c ∈ py ".,;:").

(** The loop [while text and text[-1] in ".,;:": text = text[:-1]], on the
    reversed text. *)
Fixpoint drop_punct (rev_text : list N) : list N :=
  match rev_text with
  | c :: l => if is_trailing_punct c then drop_punct l else rev_text
  | [] => []
  end.

Definition rstrip_punct (text : list N) : list N :=
  rev (drop_punct (rev text)).

(** Lines 150-162 of [transcribe_and_type]: from the transcript to the text
    that is tested and typed. *)
Definition clean_transcript (transcript : list N) : list N :=
  let text := PyStr.strip transcript in
  if bool_decide (text = []) then text
  else PyStr.strip (rstrip_punct text).

(** [transcribe_and_type]. [whisper] is the transcription service: [None]
    when the call raises. Concatenating an empty list of frames raises
    before the service is called; every exception ends in the handler that
    prints the transcription error. *)
Definition transcribe_and_type (whisper : list frame → option (list N))
    (s : VoiceTypingAssistant) : list effect :=
  match audio_frames s with
  | [] => [print msg_transcription_error]
  | _ :: _ =>
      transcriptions_create (audio_frames s) ::
      match whisper (audio_frames s) with
      | None => [print msg_transcription_error]
      | Some transcript =>
          let text := clean_transcript transcript in
          if bool_decide (text = []) then [print msg_no_speech]
          else [print (msg_transcribed text); type_text text; print msg_text_typed]
      end
  end.

(** One iteration of the [while] loop of [run], after its [sleep]. *)
Definition run_iteration (whisper : list frame → option (list N))
    (s : VoiceTypingAssistant) : VoiceTypingAssistant * list effect :=
  if should_transcribe s then
    let s1 := set_should_transcribe false s in
    let r := match stream s1 with
             | Some _ => (set_stream (Some false) s1, [stream_stop_close])
             | None => (s1, [])
             end in
    match audio_frames r.1 with
    | [] => r
    | _ :: _ => (r.1, r.2 ++ transcribe_and_type whisper r.1)
    end
  else (s, []).

(** ** The whole program as a transition system *)

Inductive input : Type :=
  | key_press (key : key_id) (now : Q) (o : stream_outcome)
  | key_release (key : key_id)
  | audio_block (indata : frame) (now : Q)
  | loop_tick.

Definition step (whisper : list frame → option (list N))
    (s : VoiceTypingAssistant) (i : input) : VoiceTypingAssistant * list effect :=
  match i with
  | key_press key now o => on_press s key now o
  | key_release key => on_release s key
  | audio_block indata now => audio_callback s indata now
  | loop_tick => run_iteration whisper s
  end.

(** The state after a sequence of inputs, and the effects of each input. *)
Fixpoint run_inputs (whisper : list frame → option (list N))
    (s : VoiceTypingAssistant) (l : list input)
    : VoiceTypingAssistant * list (list effect) :=
  match l with
  | [] => (s, [])
  | i :: l' =>
      let r := step whisper s i in
      let r' := run_inputs whisper r.1 l' in
      (r'.1, r.2 :: r'.2)
  end.

Inductive reachable (whisper : list frame → option (list N)) (cfg : Config)
    : VoiceTypingAssistant → Prop :=
  | reachable_init : reachable whisper cfg (init cfg)
  | reachable_step s i :
      reachable whisper cfg s → reachable whisper cfg (step whisper s i).1.

(** ** Vocabulary of the properties *)

(** A code point that [str.lower] leaves as it is. *)
Definition stable (c : N) : Prop :=
  PyStr.lower_map !! c = None ∧ c ≠ PyStr.capital_sigma.

(** A code point that [str.lower] leaves as it is and that is neither
    cased nor case-ignorable: the lower-case forms of the text on its two
    sides do not depend on each other. *)
Definition barrier (c : N) : Prop :=
  PyStr.is_case_ignorable c = false ∧ PyStr.is_cased c = false ∧ stable c.

#[global] Instance stable_dec (c : N) : Decision (stable c).
Proof. unfold stable. apply _. Defined.

#[global] Instance barrier_dec (c : N) : Decision (barrier c).
Proof. unfold barrier. apply _. Defined.

(** No white space at the front, none at the back. *)
Definition no_leading_space (l : list N) : Prop :=
  ∀ c, head l = Some c → PyStr.isspace c = false.

Definition no_trailing_space (l : list N) : Prop :=
  ∀ c, last l = Some c → PyStr.isspace c = false.

(** The token is one that the matcher looks up or compares: a key of one
    of its two dictionaries, or a string of one character. *)
Definition recognised (part : list N) : Prop :=
  is_Some (modifier_map !! part) ∨ is_Some (special_key_map !! part)
  ∨ PyStr.len part = 1%nat.

Module Hotkey.

(** The name of a member of [pynput.keyboard.Key]. *)
Definition Key_name (k : Key) : list N :=
  py match k with
     | Key_alt => "alt" | Key_alt_l => "alt_l" | Key_alt_r => "alt_r"
     | Key_alt_gr => "alt_gr"
     | Key_ctrl => "ctrl" | Key_ctrl_l => "ctrl_l" | Key_ctrl_r => "ctrl_r"
     | Key_shift => "shift" | Key_shift_l => "shift_l"
     | Key_shift_r => "shift_r"
     | Key_cmd => "cmd" | Key_cmd_l => "cmd_l" | Key_cmd_r => "cmd_r"
     | Key_space => "space" | Key_enter => "enter" | Key_tab => "tab"
     | Key_esc => "esc" | Key_backspace => "backspace"
     | Key_delete => "delete"
     | Key_up => "up" | Key_down => "down" | Key_left => "left"
     | Key_right => "right"
     | Key_home => "home" | Key_end => "end" | Key_page_up => "page_up"
     | Key_page_down => "page_down" | Key_insert => "insert"
     | Key_caps_lock => "caps_lock"
     | Key_f1 => "f1" | Key_f2 => "f2" | Key_f3 => "f3" | Key_f4 => "f4"
     | Key_f5 => "f5" | Key_f6 => "f6" | Key_f7 => "f7" | Key_f8 => "f8"
     | Key_f9 => "f9" | Key_f10 => "f10" | Key_f11 => "f11"
     | Key_f12 => "f12"
     end.

(** The four modifiers; a hotkey may name one by its generic name, and
    "control" is another word for "ctrl". *)
Definition generic_modifiers : list (list N) :=
  [py "ctrl"; py "alt"; py "shift"; py "cmd"].

Definition generic_name (part : list N) : list N :=
  if bool_decide (part = py "control") then py "ctrl" else part.

(** The left and right keys of the four modifiers. *)
Definition side_keys : list Key :=
  [ Key_ctrl_l; Key_ctrl_r; Key_alt_l; Key_alt_r;
    Key_shift_l; Key_shift_r; Key_cmd_l; Key_cmd_r ].

(** The keys that a hotkey can name beside the modifiers. *)
Definition named_keys : list Key :=
  [ Key_space; Key_enter; Key_tab; Key_esc; Key_backspace; Key_delete;
    Key_up; Key_down; Key_left; Key_right; Key_home; Key_end;
    Key_page_up; Key_page_down; Key_insert;
    Key_f1; Key_f2; Key_f3; Key_f4; Key_f5; Key_f6;
    Key_f7; Key_f8; Key_f9; Key_f10; Key_f11; Key_f12 ].

(** Key [k] meets the modifier token [part]: it is a left or right
    modifier key, and [part] is its own name, or the generic name of its
    modifier. *)
Definition meets_modifier (k : Key) (part : list N) : Prop :=
  k ∈ side_keys
  ∧ (Key_name k = part
     ∨ (generic_name part ∈ generic_modifiers
        ∧ (Key_name k = generic_name part ++ py "_l"
           ∨ Key_name k = generic_name part ++ py "_r"))).

(** Key [k] meets the special-key token [part]: [part] is the name of
    [k]; "escape" is another word for "esc". *)
Definition meets_special (k : Key) (part : list N) : Prop :=
  k ∈ named_keys
  ∧ (Key_name k = part ∨ (part = py "escape" ∧ k = Key_esc)).

(** A token that a hotkey can be made of: a modifier name, a special-key
    name, or a single character. *)
Definition valid_token (part : list N) : Prop :=
  (∃ k, meets_modifier k part) ∨ (∃ k, meets_special k part)
  ∨ PyStr.len part = 1%nat.

(** Key [key], held on its own, meets the condition of token [part]:
    it is one of the side variants of the modifier, or the named special
    key, or a character key carrying the character. *)
Definition satisfies (key : key_id) (part : list N) : Prop :=
  (∃ k, key = special k ∧ meets_modifier k part)
  ∨ (∃ k, key = special k ∧ meets_special k part)
  ∨ (PyStr.len part = 1%nat ∧ ∃ c, key = code c ∧ char c = Some part).

(** The condition of token [part] holds in the pressed set. *)
Definition token_holds (pressed : gset key_id) (part : list N) : Prop :=
  ∃ key, key ∈ pressed ∧ satisfies key part.


End Hotkey.

#[global] Instance meets_modifier_dec (k : Key) (part : list N) :
  Decision (Hotkey.meets_modifier k part).
Proof. unfold Hotkey.meets_modifier. apply _. Defined.

#[global] Instance meets_special_dec (k : Key) (part : list N) :
  Decision (Hotkey.meets_special k part).
Proof. unfold Hotkey.meets_special. apply _. Defined.

#[global] Instance recognised_dec (part : list N) : Decision (recognised part).
Proof. unfold recognised. apply _. Defined.

(** Concrete inputs used in the examples. *)
Module Sample.

(** A character key as the listener reports it. *)
Definition kc (c : string) : key_id := code (from_char (py c)).

Definition cfg (hotkey : string) : Config := mkConfig 16000 0 500 1 (py hotkey).

(** The assistant after [__init__] with the given keys held. *)
Definition holding (hotkey : string) (pressed : gset key_id)
    : VoiceTypingAssistant :=
  set_pressed_keys pressed (init (cfg hotkey)).

End Sample.

(** Some pressed key carries the character of the token when upper and
    lower case are identified. *)
Definition carries_char_ignoring_case (pressed : gset key_id) (part : list N)
    : Prop :=
  ∃ c ch, code c ∈ pressed ∧ char c = Some ch
          ∧ PyStr.lower ch = PyStr.lower part.

(** The call of the matcher printed a warning about an unknown key. *)
Definition warns (out : list effect) : Prop :=
  ∃ part hotkey, print (msg_unknown_key part hotkey) ∈ out.

(** The mean absolute amplitude of a block of 16-bit samples, as a
    rational number (0 for an empty block). *)
Definition mean_abs_amplitude (audio_data : list Z) : Q :=
  np_sum (map Z.abs audio_data) # Pos.of_nat (length audio_data).

(** The states of a recording session, read off the two flags. *)
Inductive RecordingState : Set := Idle | Recording | ReadyToTranscribe.

Definition session_state (s : VoiceTypingAssistant) : RecordingState :=
  if is_recording s then Recording
  else if should_transcribe s then ReadyToTranscribe
  else Idle.

(** The effects contain a call of the transcription service. *)
Definition transcribes (out : list effect) : Prop :=
  ∃ audio, transcriptions_create audio ∈ out.

(** The classification that [audio_callback] makes of a block. *)
Definition frame_silent (cfg : Config) (indata : frame) : bool :=
  is_silent cfg (scale_int16 indata).

(** The assistant after the audio callback has run on each block in turn;
    a block comes with the clock reading of its callback. *)
Fixpoint feed (s : VoiceTypingAssistant) (blocks : list (frame * Q))
    : VoiceTypingAssistant :=
  match blocks with
  | [] => s
  | ft :: rest => feed (audio_callback s ft.1 ft.2).1 rest
  end.

(** The callback on this block ends the recording and asks the control loop
    to transcribe. *)
Definition auto_stops (s : VoiceTypingAssistant) (ft : frame * Q) : bool :=
  let s' := (audio_callback s ft.1 ft.2).1 in
  is_recording s && negb (is_recording s') && should_transcribe s'.

(** The position of the first block whose callback ends the recording. *)
Fixpoint first_transition (s : VoiceTypingAssistant) (blocks : list (frame * Q))
    : option nat :=
  match blocks with
  | [] => None
  | ft :: rest =>
      if auto_stops s ft then Some 0%nat
      else S <$> first_transition (audio_callback s ft.1 ft.2).1 rest
  end.

(** The silence timestamp is set only after speech has been detected. *)
Definition silence_invariant (s : VoiceTypingAssistant) : Prop :=
  ∀ t, silence_start_time s = attr_time t → has_detected_speech s = true.

Module Sample_audio.
(** A block of digital silence and a block at half of full scale. *)
Definition quiet : frame := [0%Q; 0%Q].
Definition loud : frame := [(1#2)%Q; (-1#2)%Q].
End Sample_audio.

(** The three phases of a recording: nothing heard yet, speech heard and
    no silence running, silence running since [t0]. *)
Definition waiting (s : VoiceTypingAssistant) : Prop :=
  is_recording s = true ∧ has_detected_speech s = false.
Definition heard (s : VoiceTypingAssistant) : Prop :=
  is_recording s = true ∧ has_detected_speech s = true
  ∧ silence_start_time s = attr_None.
Definition timing (t0 : Q) (s : VoiceTypingAssistant) : Prop :=
  is_recording s = true ∧ has_detected_speech s = true
  ∧ silence_start_time s = attr_time t0.


(** A synthetic recording: [N] silent blocks, [M] non-silent blocks, [K]
    silent blocks, each lasting [dt]; the callback of a block runs when the
    block is complete, so the [i]-th callback reads the clock [i * dt]. *)
Definition synthetic (N M K : nat) (dt : Q) : list (frame * Q) :=
  imap (λ i f, (f, (inject_Z (Z.of_nat (S i)) * dt)%Q))
       (replicate N Sample_audio.quiet ++ replicate M Sample_audio.loud
        ++ replicate K Sample_audio.quiet).

(** Counting the invocations of [toggle_recording] among the effects. *)
Definition is_toggle (e : effect) : bool :=
  match e with call_toggle_recording => true | _ => false end.

Definition toggles (out : list effect) : nat :=
  length (List.filter is_toggle out).

(** The release of a concrete ctrl key. *)
Definition is_ctrl_release (i : input) : Prop :=
  i = key_release (special Key_ctrl_l) ∨ i = key_release (special Key_ctrl_r).

Definition state_after (whisper : list frame → option (list N))
    (s : VoiceTypingAssistant) (l : list input) : VoiceTypingAssistant :=
  (run_inputs whisper s l).1.

#[global] Instance Q_eq_dec : EqDecision Q.
Proof. solve_decision. Defined.

#[global] Instance stream_outcome_eq_dec : EqDecision stream_outcome.
Proof. solve_decision. Defined.

#[global] Instance input_eq_dec : EqDecision input.
Proof. solve_decision. Defined.

#[global] Instance is_ctrl_release_dec (i : input) : Decision (is_ctrl_release i).
Proof. unfold is_ctrl_release. apply _. Defined.

(** Inputs that are not key events: audio blocks and loop iterations. *)
Definition background (i : input) : Prop :=
  i = loop_tick ∨ ∃ f t, i = audio_block f t.

(** The text handed to [type_text], if the effects contain such a call. *)
Definition typed (text : list N) (out : list effect) : Prop :=
  type_text text ∈ out.

(** A transcript as the service returns it in text format: the sentence
    followed by a line feed. *)
Definition sample_transcript : list N := py "Hello world." ++ [10%N].

(** A transcript with a no-break space (U+00A0) in front, white space
    before its trailing punctuation, and a next-line character (U+0085)
    and a line feed behind. *)
Definition padded_transcript : list N :=
  [160%N] ++ py "Hello world ;." ++ [133%N; 10%N].

(** The characters that count as trailing punctuation: full stop, comma,
    semicolon and colon. *)
Definition trailing_punctuation : list N := [46; 44; 59; 58]%N.

(** [s] is [t] followed by trailing punctuation, all of it. *)
Definition without_trailing_punctuation (s t : list N) : Prop :=
  ∃ ps, s = t ++ ps ∧ Forall (λ c, c ∈ trailing_punctuation) ps
        ∧ ∀ c, last t = Some c → c ∉ trailing_punctuation.

(** White space in the sense of [str.isspace]. *)
Definition white (s : list N) : Prop :=
  Forall (λ c, PyStr.isspace c = true) s.

(** ** More of the program *)

(** [sep.join(parts)], used by [__init__] to print the parsed hotkey. *)
Fixpoint join (sep : list N) (parts : list (list N)) : list N :=
  match parts with
  | [] => []
  | part :: rest =>
      match rest with
      | [] => part
      | _ :: _ => part ++ sep ++ join sep rest
      end
  end.

(** The string that [__init__] prints after "Parsed hotkey:". *)
Definition parsed_hotkey_display (cfg : Config) : list N :=
  join [plus_sign] (parse_hotkey cfg).

(** ** Vocabulary of the further properties *)

(** The configuration with another hotkey string. *)
Definition with_hotkey (h : list N) (cfg : Config) : Config :=
  mkConfig (RATE cfg) (DEVICE_INDEX cfg) (SILENCE_THRESHOLD cfg)
           (SILENCE_DURATION cfg) h.

(** What an input says about [key]: pressed, released, or nothing. *)
Definition key_event_of (i : input) (key : key_id) : option bool :=
  match i with
  | key_press k _ _ => if decide (k = key) then Some true else None
  | key_release k => if decide (k = key) then Some false else None
  | _ => None
  end.

(** The latest event of [key] among the inputs. *)
Fixpoint last_key_event (l : list input) (key : key_id) : option bool :=
  match l with
  | [] => None
  | i :: l' =>
      match last_key_event l' key with
      | Some b => Some b
      | None => key_event_of i key
      end
  end.

(** The number of times [toggle_recording] is invoked along a run. *)
Definition total_toggles (outs : list (list effect)) : nat :=
  sum_list (toggles <$> outs).

(** The number of releases of a concrete ctrl key among the inputs. *)
Definition ctrl_releases (l : list input) : nat :=
  length (filter is_ctrl_release l).

(** The input is not a key press on which the constructor of the input
    stream raises. *)
Definition stream_constructed (i : input) : Prop :=
  match i with
  | key_press _ _ constructor_raises => False
  | _ => True
  end.

(** The input is an audio block. *)
Definition is_audio_block (i : input) : Prop :=
  match i with audio_block _ _ => True | _ => False end.

(** Truncation toward zero of a rational, as a float to integer cast does
    within range. *)
Definition truncate (x : Q) : Z := Z.quot (Qnum x) (Zpos (Qden x)).

(** ** Typing the text *)

(** Messages printed by [type_text]; [msg_traceback] is the output of
    [traceback.print_exc]. *)
Inductive paste_message : Type :=
  | msg_copied (text : list N)
  | msg_paste_completed
  | msg_paste_error
  | msg_traceback
  | msg_falling_back
  | msg_all_failed.

(** The operations of [type_text] on the outside world: [time.sleep],
    [pyperclip.copy], and [press], [release] and [type] of the keyboard
    controller. *)
Inductive kbd_op : Type :=
  | op_sleep (seconds : Q)
  | op_copy (text : list N)
  | op_press (key : key_id)
  | op_release (key : key_id)
  | op_type (c : N)
  | op_print (m : paste_message).

(** The clipboard and the keyboard controller can raise; sleeping and
    printing do not. *)
Definition may_raise (op : kbd_op) : bool :=
  match op with
  | op_copy _ | op_press _ | op_release _ | op_type _ => true
  | op_sleep _ | op_print _ => false
  end.

(** What happened to an operation: it returned, or it raised. *)
Inductive kbd_event : Type :=
  | returned (op : kbd_op)
  | raised (op : kbd_op).

(** A straight-line block of operations inside a [try]. The outside world
    is a list of outcomes, one for each call that can raise, in the order
    of the calls ([true]: the call raises; a list that has run out: the
    call returns). The block stops at the first call that raises. The
    result is the log, the outcomes left, and whether the block ran to
    its end. *)
Fixpoint perform (ops : list kbd_op) (fails : list bool)
    : list kbd_event * list bool * bool :=
  match ops with
  | [] => ([], fails, true)
  | op :: rest =>
      if may_raise op then
        match fails with
        | true :: fails' => ([raised op], fails', false)
        | false :: fails' =>
            let r := perform rest fails' in (returned op :: r.1.1, r.1.2, r.2)
        | [] =>
            let r := perform rest [] in (returned op :: r.1.1, r.1.2, r.2)
        end
      else
        let r := perform rest fails in (returned op :: r.1.1, r.1.2, r.2)
  end.

(** The [try] block of [type_text]: copy, then ctrl+v. *)
Definition paste_ops (text : list N) : list kbd_op :=
  [ op_sleep (1#5); op_copy text; op_print (msg_copied text); op_sleep (1#10);
    op_press (special Key_ctrl_l); op_sleep (1#20);
    op_press (code (from_char (py "v"))); op_sleep (1#20);
    op_release (code (from_char (py "v"))); op_sleep (1#20);
    op_release (special Key_ctrl_l); op_print msg_paste_completed ].

(** [KeyCode.from_char(char)] as a key identifier. *)
Definition char_key (c : N) : key_id := code (from_char [c]).

(** The delay after a character: doubled when it repeats the one before. *)
Definition char_delay (prev : option N) (c : N) : Q :=
  if bool_decide (prev = Some c) then (2#25)%Q else (1#25)%Q.

(** The fallback loop [for char in text]: press and release the key of the
    character; when that raises, [type] the character instead; when that
    raises too, the loop is left. The result is the log and whether the
    loop ran to its end. *)
Fixpoint type_chars (text : list N) (prev : option N)
    (fails : list bool) : list kbd_event * bool :=
  match text with
  | [] => ([], true)
  | c :: rest =>
      let r := perform [ op_press (char_key c); op_sleep (1#100);
                         op_release (char_key c);
                         op_sleep (char_delay prev c) ] fails in
      if r.2 then
        let r' := type_chars rest (Some c) r.1.2 in (r.1.1 ++ r'.1, r'.2)
      else
        let r2 := perform [ op_type c; op_sleep (char_delay prev c) ] r.1.2 in
        if r2.2 then
          let r' := type_chars rest (Some c) r2.1.2 in
          (r.1.1 ++ r2.1.1 ++ r'.1, r'.2)
        else (r.1.1 ++ r2.1.1, false)
  end.

(** [type_text]: the log of what it does, given the outcomes of the calls
    that can raise. *)
Definition type_text_ops (text : list N) (fails : list bool)
    : list kbd_event :=
  let r := perform (paste_ops text) fails in
  if r.2 then r.1.1
  else
    let r' := type_chars text None r.1.2 in
    r.1.1
    ++ [returned (op_print msg_paste_error); returned (op_print msg_traceback);
        returned (op_print msg_falling_back)]
    ++ r'.1
    ++ (if r'.2 then [] else [returned (op_print msg_all_failed)]).

(** The keys that are down after a log, starting from the set [down]: a
    press that returned puts the key down, a release that returned lets
    it up. *)
Fixpoint keys_down (log : list kbd_event) (down : gset key_id) : gset key_id :=
  match log with
  | [] => down
  | returned (op_press key) :: log' => keys_down log' ({[ key ]} ∪ down)
  | returned (op_release key) :: log' => keys_down log' (down ∖ {[ key ]})
  | _ :: log' => keys_down log' down
  end.

(** The characters that a log sends through the keyboard: the character
    keys whose press returned, and the characters whose [type] returned. *)
Fixpoint chars_sent (log : list kbd_event) : list N :=
  match log with
  | [] => []
  | returned (op_press (code (from_char [c]))) :: log' =>
      c :: chars_sent log'
  | returned (op_type c) :: log' => c :: chars_sent log'
  | _ :: log' => chars_sent log'
  end.

(** The operations of the fallback loop: none touches a special key. *)
Definition char_op (op : kbd_op) : Prop :=
  match op with
  | op_press key | op_release key => ∃ c, key = char_key c
  | op_sleep _ | op_type _ => True
  | op_copy _ | op_print _ => False
  end.

Definition event_op (e : kbd_event) : kbd_op :=
  match e with returned op | raised op => op end.

(** ** Proof automation *)

(** A closed decidable statement is settled by running its decision
    procedure; [refute] does so for a hypothesis that is false. *)
Ltac decide_closed := apply (bool_decide_unpack _); vm_compute; exact I.
Ltac refute H := exfalso; revert H; apply (bool_decide_unpack (¬ _));
                 vm_compute; exact I.
(** * Properties *)

(** ** Strings *)

Section Strings.
Implicit Types (l s x y : list N) (c : N).

(** *** The tables *)

Lemma lower_pairs_facts :
  Forall (λ p, p.2 ≠ []
               ∧ Forall (λ c, stable c ∧ PyStr.isspace c = false
                              ∧ c ≠ plus_sign) p.2)
         Unicode.lower_pairs.
Proof. decide_closed. Qed.

Lemma whitespace_barriers : Forall barrier Unicode.whitespace.
Proof. decide_closed. Qed.

Lemma plus_barrier : barrier plus_sign.
Proof. decide_closed. Qed.

Lemma sigma_forms :
  Forall (λ c, stable c ∧ PyStr.isspace c = false ∧ c ≠ plus_sign)
         [PyStr.final_small_sigma; PyStr.small_sigma].
Proof. decide_closed. Qed.

Lemma isspace_barrier c : PyStr.isspace c = true → barrier c.
Proof.
  unfold PyStr.isspace. intros H. apply bool_decide_eq_true in H.
  by apply (proj1 (Forall_forall _ _) whitespace_barriers).
Qed.

Lemma lower_map_lookup c l :
  PyStr.lower_map !! c = Some l →
  l ≠ [] ∧ Forall (λ c, stable c ∧ PyStr.isspace c = false ∧ c ≠ plus_sign) l.
Proof.
  intros H. apply elem_of_list_to_map_2 in H.
  exact (proj1 (Forall_forall _ _) lower_pairs_facts _ H).
Qed.

(** *** One code point *)

Lemma lower_at_stable before c after : stable c → PyStr.lower_at before c after = [c].
Proof.
  intros [Hm Hs]. unfold PyStr.lower_at, PyStr.lower_cp.
  rewrite bool_decide_false by done. by rewrite Hm.
Qed.

(** What [lower] puts in the place of a code point is not empty and is
    left alone by [lower]; it holds no white space and no plus sign unless
    the code point is one. *)
Lemma lower_at_facts before c after :
  PyStr.lower_at before c after ≠ []
  ∧ Forall stable (PyStr.lower_at before c after)
  ∧ (PyStr.isspace c = false →
     Forall (λ c, PyStr.isspace c = false) (PyStr.lower_at before c after))
  ∧ (c ≠ plus_sign →
     Forall (λ c, c ≠ plus_sign) (PyStr.lower_at before c after)).
Proof.
  pose proof sigma_forms as Hs.
  apply Forall_cons in Hs as [(S1 & S2 & S3) Hs].
  apply Forall_cons in Hs as [(S4 & S5 & S6) _].
  unfold PyStr.lower_at, PyStr.lower_cp. case_bool_decide as Hc.
  - destruct (PyStr.final_sigma before after);
      (split; [done|]); repeat split; intros; by repeat constructor.
  - destruct (PyStr.lower_map !! c) as [l|] eqn:Hm; cbn.
    + destruct (lower_map_lookup _ _ Hm) as [Hne Hl].
      split; [done|]. repeat split; intros;
        (eapply Forall_impl; [exact Hl|]); cbn; tauto.
    + split; [done|]. repeat split; intros; by repeat constructor.
Qed.

(** *** Idempotence *)

Lemma lower_from_stable before s after :
  Forall stable (PyStr.lower_from before s after).
Proof.
  revert before. induction s as [|c s IH]; intros before; [constructor|].
  cbn [PyStr.lower_from]. apply Forall_app.
  split; [apply lower_at_facts|apply IH].
Qed.

Lemma lower_from_fixed before s after :
  Forall stable s → PyStr.lower_from before s after = s.
Proof.
  intros H. revert before. induction H as [|c s Hc _ IH]; intros before; [done|].
  cbn [PyStr.lower_from]. by rewrite (lower_at_stable _ _ _ Hc), IH.
Qed.

Lemma lower_idemp s : PyStr.lower (PyStr.lower s) = PyStr.lower s.
Proof. apply lower_from_fixed, lower_from_stable. Qed.

Lemma lower_from_no_plus before s after :
  plus_sign ∉ s → plus_sign ∉ PyStr.lower_from before s after.
Proof.
  revert before. induction s as [|c s IH]; intros before Hn; [done|].
  cbn [PyStr.lower_from]. intros Hin. apply elem_of_app in Hin as [Hin|Hin].
  - destruct (lower_at_facts before c (s ++ after)) as (_ & _ & _ & Hp).
    assert (Hc : c ≠ plus_sign) by (intros ->; apply Hn; by left).
    by apply (proj1 (Forall_forall _ _) (Hp Hc) _ Hin).
  - revert Hin. apply IH. intros Hin. apply Hn. by right.
Qed.

(** *** Context *)

Lemma cased_next_barrier b x y :
  barrier b → PyStr.cased_next (x ++ b :: y) = PyStr.cased_next x.
Proof.
  intros (Hi & Hc & _). unfold PyStr.cased_next.
  induction x as [|c x IH]; cbn [app PyStr.skip_ignorable].
  - by rewrite Hi, Hc.
  - by destruct (PyStr.is_case_ignorable c).
Qed.

Lemma lower_from_after_barrier b before x after :
  barrier b →
  PyStr.lower_from before x (b :: after) = PyStr.lower_from before x [].
Proof.
  intros Hb. revert before. induction x as [|c x IH]; intros before; [done|].
  cbn [PyStr.lower_from]. rewrite IH. f_equal.
  unfold PyStr.lower_at, PyStr.final_sigma.
  by rewrite (cased_next_barrier _ _ _ Hb), app_nil_r.
Qed.

Lemma lower_from_before_barrier b pre z y after :
  barrier b →
  PyStr.lower_from (pre ++ b :: z) y after = PyStr.lower_from pre y after.
Proof.
  intros Hb. revert pre. induction y as [|c y IH]; intros pre; [done|].
  cbn [PyStr.lower_from].
  change (c :: pre ++ b :: z) with ((c :: pre) ++ b :: z).
  rewrite (IH (c :: pre)). f_equal. unfold PyStr.lower_at, PyStr.final_sigma.
  by rewrite (cased_next_barrier _ _ _ Hb).
Qed.

Lemma lower_from_app before x y after :
  PyStr.lower_from before (x ++ y) after
  = PyStr.lower_from before x (y ++ after)
    ++ PyStr.lower_from (rev x ++ before) y after.
Proof.
  revert before. induction x as [|c x IH]; intros before; [done|].
  cbn [PyStr.lower_from app rev]. rewrite IH, <- !app_assoc. reflexivity.
Qed.

Lemma lower_from_cons_barrier b before y after :
  barrier b →
  PyStr.lower_from before (b :: y) after = b :: PyStr.lower_from [] y after.
Proof.
  intros Hb. cbn [PyStr.lower_from].
  rewrite (lower_at_stable _ _ _ (proj2 (proj2 Hb))).
  f_equal. exact (lower_from_before_barrier b [] before y after Hb).
Qed.

(** The lower-case forms of the two sides of a barrier are independent. *)
Lemma lower_barrier b x y :
  barrier b →
  PyStr.lower (x ++ b :: y) = PyStr.lower x ++ b :: PyStr.lower y.
Proof.
  intros Hb. unfold PyStr.lower.
  rewrite lower_from_app, app_nil_r, (lower_from_after_barrier _ _ _ _ Hb).
  by rewrite (lower_from_cons_barrier _ _ _ _ Hb).
Qed.

(** *** White space at the ends *)

Lemma head_rev l : head (rev l) = last l.
Proof. rewrite rev_alt. apply head_reverse. Qed.

Lemma last_rev l : last (rev l) = head l.
Proof. rewrite rev_alt. apply last_reverse. Qed.

Lemma lstrip_split l :
  ∃ ws, l = ws ++ PyStr.lstrip l ∧ white ws.
Proof.
  induction l as [|c l (ws & Hl & Hws)].
  - exists []. split; [done|constructor].
  - cbn [PyStr.lstrip]. destruct (PyStr.isspace c) eqn:Hc.
    + exists (c :: ws). split; [by rewrite Hl at 1|by constructor].
    + exists []. split; [done|constructor].
Qed.

Lemma rstrip_split l :
  ∃ ws, l = PyStr.rstrip l ++ ws ∧ white ws.
Proof.
  destruct (lstrip_split (rev l)) as (ws & Hl & Hws).
  exists (rev ws). split; [|by apply Forall_rev].
  unfold PyStr.rstrip. by rewrite <- rev_app_distr, <- Hl, rev_involutive.
Qed.

Lemma strip_split l :
  ∃ ws1 ws2, l = ws1 ++ PyStr.strip l ++ ws2 ∧ white ws1 ∧ white ws2.
Proof.
  destruct (lstrip_split l) as (ws1 & H1 & Hw1).
  destruct (rstrip_split (PyStr.lstrip l)) as (ws2 & H2 & Hw2).
  exists ws1, ws2. split; [|done]. unfold PyStr.strip. by rewrite <- H2.
Qed.

Lemma lstrip_no_leading l : no_leading_space (PyStr.lstrip l).
Proof.
  induction l as [|c l IH]; [by intros c Hc|].
  cbn [PyStr.lstrip]. destruct (PyStr.isspace c) eqn:Hc; [exact IH|].
  intros c' Hc'. cbn in Hc'. by injection Hc' as <-.
Qed.

Lemma lstrip_fixed l : no_leading_space l → PyStr.lstrip l = l.
Proof.
  destruct l as [|c l]; [done|]. intros H. cbn [PyStr.lstrip].
  by rewrite (H c eq_refl).
Qed.

Lemma lstrip_last l :
  PyStr.lstrip l ≠ [] → last (PyStr.lstrip l) = last l.
Proof.
  intros Hne. destruct (lstrip_split l) as (ws & Hl & _).
  rewrite Hl at 2. destruct (PyStr.lstrip l) as [|c r] eqn:E; [done|].
  by rewrite last_app_cons.
Qed.

Lemma lstrip_no_trailing l :
  no_trailing_space l → no_trailing_space (PyStr.lstrip l).
Proof.
  intros H c Hc. apply H. rewrite <- lstrip_last; [done|].
  intros E. by rewrite E in Hc.
Qed.

Lemma rev_no_leading l : no_trailing_space l ↔ no_leading_space (rev l).
Proof. unfold no_trailing_space, no_leading_space. by setoid_rewrite head_rev. Qed.

Lemma rev_no_trailing l : no_leading_space l ↔ no_trailing_space (rev l).
Proof. unfold no_trailing_space, no_leading_space. by setoid_rewrite last_rev. Qed.

Lemma rstrip_no_trailing l : no_trailing_space (PyStr.rstrip l).
Proof. apply rev_no_trailing, lstrip_no_leading. Qed.

Lemma rstrip_no_leading l :
  no_leading_space l → no_leading_space (PyStr.rstrip l).
Proof.
  intros H. by apply rev_no_leading, lstrip_no_trailing, rev_no_trailing.
Qed.

Lemma rstrip_fixed l : no_trailing_space l → PyStr.rstrip l = l.
Proof.
  intros H. unfold PyStr.rstrip. rewrite lstrip_fixed; [apply rev_involutive|].
  by apply rev_no_leading.
Qed.

Lemma rstrip_snoc l c :
  PyStr.rstrip (l ++ [c])
  = if PyStr.isspace c then PyStr.rstrip l else l ++ [c].
Proof.
  unfold PyStr.rstrip. rewrite rev_app_distr. cbn [rev app PyStr.lstrip].
  destruct (PyStr.isspace c); [done|]. cbn [rev]. by rewrite rev_involutive.
Qed.

(** What [strip] returns has no white space at either end. *)
Lemma strip_clean l :
  no_leading_space (PyStr.strip l) ∧ no_trailing_space (PyStr.strip l).
Proof.
  unfold PyStr.strip. split.
  - apply rstrip_no_leading, lstrip_no_leading.
  - apply rstrip_no_trailing.
Qed.

(** [strip] leaves alone a string without white space at its ends. *)
Lemma strip_fixed l :
  no_leading_space l → no_trailing_space l → PyStr.strip l = l.
Proof.
  intros Hl Ht. unfold PyStr.strip. rewrite (lstrip_fixed l Hl).
  by apply rstrip_fixed.
Qed.

Lemma strip_idemp s : PyStr.strip (PyStr.strip s) = PyStr.strip s.
Proof. apply strip_fixed; apply strip_clean. Qed.

(** [strip] only removes characters. *)
Lemma strip_subseteq l c : c ∈ PyStr.strip l → c ∈ l.
Proof.
  intros Hc. destruct (strip_split l) as (w1 & w2 & Hl & _).
  rewrite Hl. apply elem_of_app. right. apply elem_of_app. by left.
Qed.

(** A string of white space strips to the empty string, and only such a
    string does. *)
Lemma lstrip_nil l : PyStr.lstrip l = [] ↔ white l.
Proof.
  unfold white. induction l as [|c l IH]; [by split; [constructor|]|].
  cbn [PyStr.lstrip]. destruct (PyStr.isspace c) eqn:Hc.
  - rewrite IH. split.
    + intros H. by constructor.
    + intros H. by apply Forall_cons in H as [_ H].
  - split; [done|]. intros H. apply Forall_cons in H as [H _]. congruence.
Qed.

Lemma strip_nil l : PyStr.strip l = [] ↔ white l.
Proof.
  split.
  - intros H. destruct (strip_split l) as (w1 & w2 & Hl & H1 & H2).
    rewrite Hl, H. apply Forall_app. by split.
  - intros H. apply lstrip_nil in H. unfold PyStr.strip. by rewrite H.
Qed.

(** *** [strip] and [lower] *)

Lemma lstrip_lower s : PyStr.lstrip (PyStr.lower s) = PyStr.lower (PyStr.lstrip s).
Proof.
  induction s as [|c s IH]; [done|]. cbn [PyStr.lstrip].
  destruct (PyStr.isspace c) eqn:Hc.
  - unfold PyStr.lower.
    rewrite (lower_from_cons_barrier _ _ _ _ (isspace_barrier _ Hc)).
    cbn [PyStr.lstrip]. by rewrite Hc.
  - apply lstrip_fixed. unfold PyStr.lower. cbn [PyStr.lower_from].
    destruct (lower_at_facts [] c (s ++ [])) as (Hne & _ & Hsp & _).
    specialize (Hsp Hc).
    destruct (PyStr.lower_at [] c (s ++ [])) as [|h t]; [done|].
    intros c' Hc'. cbn in Hc'. injection Hc' as <-.
    by apply Forall_cons in Hsp as [? _].
Qed.

Lemma rstrip_lower s : PyStr.rstrip (PyStr.lower s) = PyStr.lower (PyStr.rstrip s).
Proof.
  induction s as [|c s IH] using rev_ind; [done|].
  rewrite rstrip_snoc. destruct (PyStr.isspace c) eqn:Hc.
  - rewrite (lower_barrier c s [] (isspace_barrier _ Hc)).
    change (PyStr.lower s ++ c :: PyStr.lower [])
      with (PyStr.lower s ++ [c]).
    by rewrite rstrip_snoc, Hc.
  - apply rstrip_fixed. unfold PyStr.lower.
    rewrite lower_from_app. cbn [PyStr.lower_from app]. rewrite app_nil_r.
    destruct (lower_at_facts (rev s ++ []) c []) as (Hne & _ & Hsp & _).
    specialize (Hsp Hc). intros c' Hc'.
    destruct (PyStr.lower_at (rev s ++ []) c []) as [|h t] using rev_ind;
      [done|].
    rewrite app_assoc, last_snoc in Hc'. injection Hc' as <-.
    apply Forall_app in Hsp as [_ Hsp]. by apply Forall_cons in Hsp as [? _].
Qed.

Lemma strip_lower s : PyStr.strip (PyStr.lower s) = PyStr.lower (PyStr.strip s).
Proof. unfold PyStr.strip. by rewrite lstrip_lower, rstrip_lower. Qed.

(** *** [split] and [join] *)

Lemma split_not_nil sep s : PyStr.split sep s ≠ [].
Proof.
  destruct s as [|c s]; [done|]. cbn.
  destruct (decide (c = sep)); [done|]. by destruct (PyStr.split sep s).
Qed.

Lemma split_no_sep sep s part :
  part ∈ PyStr.split sep s → sep ∉ part.
Proof.
  revert part. induction s as [|c s IH]; intros part Hin.
  - apply list_elem_of_singleton in Hin as ->. apply not_elem_of_nil.
  - cbn in Hin. destruct (decide (c = sep)) as [->|Hc].
    + apply elem_of_cons in Hin as [->|Hin]; [apply not_elem_of_nil|by apply IH].
    + destruct (PyStr.split sep s) as [|h t] eqn:E.
      { by destruct (split_not_nil sep s). }
      apply elem_of_cons in Hin as [->|Hin].
      * intros Hs. apply elem_of_cons in Hs as [->|Hs]; [done|].
        revert Hs. apply IH. by left.
      * apply IH. by right.
Qed.

Lemma split_length sep s :
  length (PyStr.split sep s)
  = S (length (List.filter (λ c, bool_decide (c = sep)) s)).
Proof.
  induction s as [|c s IH]; [done|]. cbn.
  destruct (decide (c = sep)) as [->|Hc].
  - rewrite bool_decide_true by done. cbn. by rewrite IH.
  - rewrite bool_decide_false by done.
    destruct (PyStr.split sep s) as [|h t] eqn:E;
      [by destruct (split_not_nil sep s)|].
    by rewrite <- IH.
Qed.

Lemma split_without_sep sep s :
  sep ∉ s → PyStr.split sep s = [s].
Proof.
  induction s as [|c s IH]; [done|]. cbn. intros Hn.
  destruct (decide (c = sep)) as [->|Hc].
  - exfalso. apply Hn. by left.
  - rewrite IH; [done|]. intros Hs. apply Hn. by right.
Qed.

Lemma split_app sep s rest :
  sep ∉ s →
  PyStr.split sep (s ++ rest)
  = match PyStr.split sep rest with
    | h :: t => (s ++ h) :: t
    | [] => []
    end.
Proof.
  induction s as [|c s IH]; intros Hn.
  - cbn. destruct (PyStr.split sep rest) eqn:E; [|done].
    by destruct (split_not_nil sep rest).
  - cbn [app PyStr.split]. destruct (decide (c = sep)) as [->|Hc].
    + exfalso. apply Hn. by left.
    + rewrite IH by (intros Hs; apply Hn; by right).
      destruct (PyStr.split sep rest) eqn:E; [|done].
      by destruct (split_not_nil sep rest).
Qed.

Lemma split_app_sep sep s rest :
  sep ∉ s →
  PyStr.split sep (s ++ sep :: rest) = s :: PyStr.split sep rest.
Proof.
  intros Hn. rewrite (split_app _ _ _ Hn). cbn [PyStr.split].
  destruct (decide (sep = sep)) as [_|Hne]; [|by destruct Hne].
  by rewrite app_nil_r.
Qed.

(** The first field is the string up to its first separator. *)
Lemma split_head sep s h t :
  PyStr.split sep s = h :: t →
  (sep ∉ h)
  ∧ ((s = h ∧ t = []) ∨ (∃ y, s = h ++ sep :: y ∧ t = PyStr.split sep y)).
Proof.
  revert h t. induction s as [|c s IH]; intros h t H.
  - injection H as <- <-. split; [apply not_elem_of_nil|by left].
  - cbn in H. destruct (decide (c = sep)) as [->|Hc].
    + injection H as <- <-. split; [apply not_elem_of_nil|].
      right. by exists s.
    + destruct (PyStr.split sep s) as [|h' t'] eqn:E;
        [by destruct (split_not_nil sep s)|].
      injection H as <- <-. destruct (IH h' t' eq_refl) as [Hn Hs]. split.
      * intros Hin. apply elem_of_cons in Hin as [->|Hin]; [done|by apply Hn].
      * destruct Hs as [[-> ->]|(y & -> & ->)]; [by left|].
        right. by exists y.
Qed.

(** Splitting what [join] has put together gives the parts back. *)
Lemma split_join sep (parts : list (list N)) :
  parts ≠ [] → (∀ part, part ∈ parts → sep ∉ part) →
  PyStr.split sep (join [sep] parts) = parts.
Proof.
  induction parts as [|a rest IH]; [done|]. intros _ Hs.
  destruct rest as [|b rest].
  - cbn. apply split_without_sep, Hs. by left.
  - change (join [sep] (a :: b :: rest))
      with (a ++ sep :: join [sep] (b :: rest)).
    rewrite split_app_sep by (apply Hs; by left).
    rewrite IH; [done|done|]. intros p Hp. apply Hs. by right.
Qed.

(** [lower] works on each field of a hotkey string on its own. *)
Lemma split_lower_from before s :
  PyStr.split plus_sign (PyStr.lower_from before s [])
  = match PyStr.split plus_sign s with
    | h :: t => PyStr.lower_from before h [] :: map PyStr.lower t
    | [] => []
    end.
Proof.
  revert before. induction s as [|c s IH]; intros before; [done|].
  destruct (decide (c = plus_sign)) as [->|Hc].
  - rewrite (lower_from_cons_barrier _ _ _ _ plus_barrier).
    cbn [PyStr.split]. destruct (decide (plus_sign = plus_sign)) as [_|?]; [|done].
    rewrite IH. cbn. f_equal.
    destruct (PyStr.split plus_sign s) eqn:E; [|done].
    by destruct (split_not_nil plus_sign s).
  - cbn [PyStr.lower_from PyStr.split].
    destruct (decide (c = plus_sign)) as [?|_]; [done|].
    destruct (lower_at_facts before c (s ++ [])) as (_ & _ & _ & Hp).
    rewrite split_app.
    2:{ intros Hin. by apply (proj1 (Forall_forall _ _) (Hp Hc) _ Hin). }
    rewrite IH. destruct (PyStr.split plus_sign s) as [|h t] eqn:E;
      [by destruct (split_not_nil plus_sign s)|].
    cbn [PyStr.lower_from]. f_equal. f_equal.
    destruct (split_head _ _ _ _ E) as [_ [[-> _]|(y & -> & _)]]; [done|].
    unfold PyStr.lower_at, PyStr.final_sigma.
    by rewrite !app_nil_r, (cased_next_barrier _ _ _ plus_barrier).
Qed.

Lemma split_lower s :
  PyStr.split plus_sign (PyStr.lower s)
  = map PyStr.lower (PyStr.split plus_sign s).
Proof.
  unfold PyStr.lower at 1. rewrite split_lower_from.
  by destruct (PyStr.split plus_sign s).
Qed.

End Strings.

(** ** Facts about the two dictionaries *)

Lemma modifier_map_names :
  map_Forall (λ part ks, special_key_map !! part = None
                         ∧ PyStr.len part ≠ 1%nat ∧ ks ≠ [])
             modifier_map.
Proof. decide_closed. Qed.

Lemma special_key_map_names :
  map_Forall (λ part _, PyStr.len part ≠ 1%nat) special_key_map.
Proof. decide_closed. Qed.

Lemma Key_all_complete (k : Key) : k ∈ Key_all.
Proof.
  apply list_elem_of_lookup. exists (Key_index k). by destruct k.
Qed.

(** The keys listed under a modifier name are the keys that meet it. *)
Lemma modifier_map_meets :
  map_Forall (λ part ks,
                Forall (λ k, Hotkey.meets_modifier k part ↔ k ∈ ks) Key_all)
             modifier_map.
Proof. decide_closed. Qed.

(** The key listed under a special-key name is the key that meets it. *)
Lemma special_key_map_meets :
  map_Forall (λ part k0,
                Forall (λ k, Hotkey.meets_special k part ↔ k = k0) Key_all)
             special_key_map.
Proof. decide_closed. Qed.

(** Every name that a key can meet is in the dictionaries. *)
Lemma modifier_names_listed :
  Forall (λ k, is_Some (modifier_map !! Hotkey.Key_name k)) Hotkey.side_keys
  ∧ Forall (λ g, is_Some (modifier_map !! g)) Hotkey.generic_modifiers
  ∧ is_Some (modifier_map !! py "control").
Proof. decide_closed. Qed.

Lemma special_names_listed :
  Forall (λ k, is_Some (special_key_map !! Hotkey.Key_name k)) Hotkey.named_keys
  ∧ is_Some (special_key_map !! py "escape").
Proof. decide_closed. Qed.

(** ** The hotkey matcher *)

Section Matcher.
Import Hotkey.
Implicit Types (pressed : gset key_id) (part : list N) (key : key_id).

Lemma any_pressed_spec pressed (ks : list Key) :
  any_pressed pressed ks = true ↔ ∃ k, k ∈ ks ∧ special k ∈ pressed.
Proof.
  unfold any_pressed. rewrite existsb_exists. split.
  - intros (k & Hin & Hb). exists k. split.
    + by apply list_elem_of_In.
    + by apply bool_decide_eq_true in Hb.
  - intros (k & Hin & Hb). exists k. split.
    + by apply list_elem_of_In.
    + by apply bool_decide_eq_true.
Qed.

Lemma char_pressed_spec pressed part :
  char_pressed pressed part = true
  ↔ ∃ c, code c ∈ pressed ∧ char c = Some part.
Proof.
  unfold char_pressed. rewrite existsb_exists. split.
  - intros ([k|c] & Hin & Hb); [discriminate|].
    exists c. split.
    + apply elem_of_elements. by apply list_elem_of_In.
    + by apply bool_decide_eq_true in Hb.
  - intros (c & Hin & Hc). exists (code c). split.
    + apply list_elem_of_In. by apply elem_of_elements.
    + by apply bool_decide_eq_true.
Qed.

Lemma modifier_not_special part ks :
  modifier_map !! part = Some ks →
  special_key_map !! part = None ∧ PyStr.len part ≠ 1%nat.
Proof.
  intros H. destruct (modifier_map_names part ks H) as (? & ? & _). by split.
Qed.

Lemma special_not_char part k :
  special_key_map !! part = Some k → PyStr.len part ≠ 1%nat.
Proof. intros H. exact (special_key_map_names part k H). Qed.

Lemma meets_modifier_listed (k : Key) part ks :
  modifier_map !! part = Some ks → meets_modifier k part ↔ k ∈ ks.
Proof.
  intros H.
  exact (proj1 (Forall_forall _ _) (modifier_map_meets part ks H) k
           (Key_all_complete k)).
Qed.

Lemma meets_special_listed (k : Key) part k0 :
  special_key_map !! part = Some k0 → meets_special k part ↔ k = k0.
Proof.
  intros H.
  exact (proj1 (Forall_forall _ _) (special_key_map_meets part k0 H) k
           (Key_all_complete k)).
Qed.

Lemma meets_modifier_known (k : Key) part :
  meets_modifier k part → is_Some (modifier_map !! part).
Proof.
  destruct modifier_names_listed as (Hside & Hgen & Hcontrol).
  intros [Hk [<- | [Hg _]]].
  - exact (proj1 (Forall_forall _ _) Hside k Hk).
  - unfold generic_name in Hg. case_bool_decide as Hc; [by rewrite Hc|].
    exact (proj1 (Forall_forall _ _) Hgen part Hg).
Qed.

Lemma meets_special_known (k : Key) part :
  meets_special k part → is_Some (special_key_map !! part).
Proof.
  destruct special_names_listed as (Hnamed & Hescape).
  intros [Hk [<- | [-> _]]].
  - exact (proj1 (Forall_forall _ _) Hnamed k Hk).
  - exact Hescape.
Qed.

(** The tokens of the specification are the tokens that the matcher
    looks up or compares. *)
Lemma valid_token_recognised part : valid_token part ↔ recognised part.
Proof.
  unfold valid_token, recognised. split.
  - intros [[k H] | [[k H] | H]].
    + left. by apply (meets_modifier_known k).
    + right; left. by apply (meets_special_known k).
    + by right; right.
  - intros [[ks H] | [[k H] | H]].
    + left. destruct (modifier_map_names part ks H) as (_ & _ & Hne).
      destruct ks as [|k ks]; [done|]. exists k.
      apply (meets_modifier_listed k part _ H). by left.
    + right; left. exists k. by apply (meets_special_listed k part _ H).
    + by right; right.
Qed.

Lemma token_holds_modifier pressed part ks :
  modifier_map !! part = Some ks →
  token_holds pressed part ↔ ∃ k, k ∈ ks ∧ special k ∈ pressed.
Proof.
  intros Hm. destruct (modifier_not_special _ _ Hm) as [Hs Hl].
  unfold token_holds, satisfies. split.
  - intros (key & Hin & [(k & -> & Hk) | [(k & -> & Hk) | (Hl' & _)]]).
    + exists k. split; [|done]. by apply (meets_modifier_listed k part ks Hm).
    + apply meets_special_known in Hk as [? Hk]. congruence.
    + contradiction.
  - intros (k & Hk & Hin). exists (special k). split; [done|].
    left. exists k. split; [done|]. by apply (meets_modifier_listed k part ks Hm).
Qed.

Lemma token_holds_special pressed part k :
  modifier_map !! part = None → special_key_map !! part = Some k →
  token_holds pressed part ↔ special k ∈ pressed.
Proof.
  intros Hm Hs. pose proof (special_not_char _ _ Hs) as Hl.
  unfold token_holds, satisfies. split.
  - intros (key & Hin & [(k' & -> & Hk) | [(k' & -> & Hk) | (Hl' & _)]]).
    + apply meets_modifier_known in Hk as [? Hk]. congruence.
    + by apply (meets_special_listed k' part k Hs) in Hk as ->.
    + contradiction.
  - intros Hin. exists (special k). split; [done|].
    right; left. exists k. split; [done|].
    by apply (meets_special_listed k part k Hs).
Qed.

Lemma token_holds_char pressed part :
  modifier_map !! part = None → special_key_map !! part = None →
  token_holds pressed part
  ↔ PyStr.len part = 1%nat ∧ ∃ c, code c ∈ pressed ∧ char c = Some part.
Proof.
  intros Hm Hs. unfold token_holds, satisfies. split.
  - intros (key & Hin & [(k' & -> & Hk) | [(k' & -> & Hk) | (Hl & c & -> & Hc)]]).
    + apply meets_modifier_known in Hk as [? Hk]. congruence.
    + apply meets_special_known in Hk as [? Hk]. congruence.
    + split; [done|]. by exists c.
  - intros (Hl & c & Hin & Hc). exists (code c). split; [done|].
    right; right. split; [done|]. by exists c.
Qed.

(** One round of the loop: the result is true exactly when the condition
    of the first token holds and the rest of the loop answers true. *)
Lemma check_parts_cons hotkey pressed part rest :
  (check_parts hotkey pressed (part :: rest)).1 = true
  ↔ token_holds pressed part ∧ (check_parts hotkey pressed rest).1 = true.
Proof.
  cbn [check_parts].
  destruct (modifier_map !! part) as [ks|] eqn:Hm.
  - rewrite (token_holds_modifier _ _ _ Hm), <- any_pressed_spec.
    destruct (any_pressed pressed ks); cbn; intuition congruence.
  - destruct (special_key_map !! part) as [k|] eqn:Hs.
    + rewrite (token_holds_special _ _ _ Hm Hs).
      case_bool_decide; cbn; intuition congruence.
    + rewrite (token_holds_char _ _ Hm Hs), <- char_pressed_spec.
      destruct (Nat.eqb_spec (PyStr.len part) 1) as [Hl|Hl].
      * destruct (char_pressed pressed part); cbn; intuition congruence.
      * cbn. intuition congruence.
Qed.

Lemma check_parts_true hotkey pressed (parts : list (list N)) :
  (check_parts hotkey pressed parts).1 = true
  ↔ ∀ part, part ∈ parts → token_holds pressed part.
Proof.
  induction parts as [|part rest IH].
  - cbn. split; [|done]. intros _ part Hin. by apply elem_of_nil in Hin.
  - rewrite check_parts_cons, IH. split.
    + intros [Hp Hr] q Hq. apply elem_of_cons in Hq as [->|Hq]; auto.
    + intros H. split.
      * apply H. by left.
      * intros q Hq. apply H. by right.
Qed.

End Matcher.

Import Hotkey.



Lemma char_token_not_named (part : list N) :
  PyStr.len part = 1%nat →
  modifier_map !! part = None ∧ special_key_map !! part = None.
Proof.
  intros Hl. split.
  - destruct (modifier_map !! part) as [ks|] eqn:Hm; [|done].
    by destruct (modifier_not_special _ _ Hm).
  - destruct (special_key_map !! part) as [k|] eqn:Hs; [|done].
    by destruct (special_not_char _ _ Hs).
Qed.

(** A single-character token is matched by a pressed key that carries
    exactly this character, and by nothing else. *)
Lemma check_parts_single_char hotkey (pressed : gset key_id) (part : list N) :
  PyStr.len part = 1%nat →
  (check_parts hotkey pressed [part]).1 = true
  ↔ ∃ c, code c ∈ pressed ∧ char c = Some part.
Proof.
  intros Hl. destruct (char_token_not_named _ Hl) as [Hm Hs].
  rewrite check_parts_cons, (token_holds_char _ _ Hm Hs). cbn. tauto.
Qed.

(** C6. The comparison of a single-character token is not
    case-insensitive, and a hotkey of shift and a letter cannot fire:
    [parse_hotkey] lower-cases the configured letter, the key pressed with
    shift held reports the upper-case letter, and [is_hotkey_pressed]
    compares the two as they are. With the hotkey "Shift+A", parsed as
    "shift" and "a", and the left shift key and the key reporting "A"
    pressed, the shift token holds and a pressed key carries the letter of
    the token up to case; the matcher answers false, without a warning. *)
Theorem shift_letter_hotkey_not_matched :
  let s := Sample.holding "Shift+A" {[ special Key_shift_l; Sample.kc "A" ]} in
  parse_hotkey (config s) = [py "shift"; py "a"]
  ∧ token_holds (pressed_keys s) (py "shift")
  ∧ carries_char_ignoring_case (pressed_keys s) (py "a")
  ∧ ¬ token_holds (pressed_keys s) (py "a")
  ∧ is_hotkey_pressed s = (false, []).
Proof.
  intros s. split; [by vm_compute|]. split; [|split; [|split]].
  - exists (special Key_shift_l). split.
    + cbn. apply elem_of_union. left. by apply elem_of_singleton.
    + left. exists Key_shift_l. split; [done|]. decide_closed.
  - exists (from_char (py "A")), (py "A"). split; [|split].
    + cbn. apply elem_of_union. right. by apply elem_of_singleton.
    + reflexivity.
    + by vm_compute.
  - intros (key & Hin & Hsat). cbn in Hin.
    apply elem_of_union in Hin as [Hin|Hin]; apply elem_of_singleton in Hin as ->.
    + destruct Hsat as [(k & [= <-] & Hk) | [(k & [= <-] & Hk) | (_ & c & Hc & _)]];
        [refute Hk|refute Hk|discriminate].
    + destruct Hsat as [(k & Hk & _) | [(k & Hk & _) | (_ & c & [= <-] & Hc)]];
        discriminate.
  - by vm_compute.
Qed.

(** The loop stops with a warning at an unrecognised token. *)
Lemma check_parts_invalid hotkey (pressed : gset key_id) part rest :
  ¬ valid_token part →
  check_parts hotkey pressed (part :: rest)
  = (false, [print (msg_unknown_key part hotkey)]).
Proof.
  rewrite valid_token_recognised. intros Hv. cbn [check_parts].
  destruct (modifier_map !! part) as [ks|] eqn:Hm.
  { exfalso. apply Hv. left. by eexists. }
  destruct (special_key_map !! part) as [k|] eqn:Hs.
  { exfalso. apply Hv. right; left. by eexists. }
  destruct (Nat.eqb_spec (PyStr.len part) 1) as [Hl|Hl]; [|done].
  exfalso. apply Hv. right; right. exact Hl.
Qed.

(** While the tokens are valid, a false answer comes without output. *)
Lemma check_parts_app hotkey (pressed : gset key_id) (pre rest : list (list N)) :
  Forall valid_token pre →
  check_parts hotkey pressed (pre ++ rest)
  = if (check_parts hotkey pressed pre).1
    then check_parts hotkey pressed rest
    else (false, []).
Proof.
  induction 1 as [|part pre Hv _ IH]; [done|].
  apply valid_token_recognised in Hv.
  cbn [app check_parts].
  destruct (modifier_map !! part) as [ks|] eqn:Hm.
  { destruct (any_pressed pressed ks); [exact IH|done]. }
  destruct (special_key_map !! part) as [k|] eqn:Hs.
  { case_bool_decide; [exact IH|done]. }
  destruct (Nat.eqb_spec (PyStr.len part) 1) as [Hl|Hl].
  { destruct (char_pressed pressed part); [exact IH|done]. }
  destruct Hv as [[? Hv]|[[? Hv]|Hv]]; congruence.
Qed.

(** Every list with an invalid token splits at its first invalid token. *)
Lemma first_invalid_token (parts : list (list N)) :
  (∃ part, part ∈ parts ∧ ¬ valid_token part) →
  ∃ pre bad post,
    parts = pre ++ bad :: post ∧ Forall valid_token pre ∧ ¬ valid_token bad.
Proof.
  induction parts as [|p parts IH]; intros (part & Hin & Hbad).
  - by apply elem_of_nil in Hin.
  - destruct (decide (recognised p)) as [Hp|Hp];
      rewrite <- valid_token_recognised in Hp.
    + apply elem_of_cons in Hin as [->|Hin]; [contradiction|].
      destruct IH as (pre & bad & post & -> & Hpre & Hb); [by exists part|].
      exists (p :: pre), bad, post. split; [done|]. split; [by constructor|done].
    + exists [], p, parts. split; [done|]. split; [constructor|done].
Qed.

(** C7 (as amended). A hotkey with an unrecognised token is never matched,
    whatever is pressed. The warning names the first unrecognised token and
    is printed by exactly those calls in which every token before it holds
    in the pressed set; the other calls print nothing. *)
Theorem unknown_token_fails_closed (s : VoiceTypingAssistant) :
  (∃ part, part ∈ parse_hotkey (config s) ∧ ¬ valid_token part) →
  (is_hotkey_pressed s).1 = false
  ∧ ∃ pre bad post,
      parse_hotkey (config s) = pre ++ bad :: post
      ∧ Forall valid_token pre ∧ ¬ valid_token bad
      ∧ ((∀ part, part ∈ pre → token_holds (pressed_keys s) part) →
         (is_hotkey_pressed s).2
         = [print (msg_unknown_key bad (hotkey_str (config s)))])
      ∧ (¬ (∀ part, part ∈ pre → token_holds (pressed_keys s) part) →
         (is_hotkey_pressed s).2 = []).
Proof.
  intros Hbad.
  destruct (first_invalid_token _ Hbad) as (pre & bad & post & Hp & Hpre & Hb).
  unfold is_hotkey_pressed. rewrite Hp, (check_parts_app _ _ _ _ Hpre).
  rewrite (check_parts_invalid _ _ _ _ Hb).
  pose proof (check_parts_true (hotkey_str (config s)) (pressed_keys s) pre) as Ht.
  destruct (check_parts (hotkey_str (config s)) (pressed_keys s) pre).1;
    (split; [done|]); exists pre, bad, post;
    (split; [done|]); (split; [done|]); (split; [done|]); cbn; split.
  - done.
  - intros Hn. exfalso. apply Hn. by apply Ht.
  - intros Hall. apply Ht in Hall. discriminate.
  - done.
Qed.

Lemma unknown_token_fails_closed_witness :
  let s := Sample.holding "ctrl+foo" {[ special Key_ctrl_r ]} in
  (∃ part, part ∈ parse_hotkey (config s) ∧ ¬ valid_token part)
  ∧ (is_hotkey_pressed s).1 = false
  ∧ (is_hotkey_pressed s).2
    = [print (msg_unknown_key (py "foo") (py "ctrl+foo"))].
Proof.
  intros s.
  assert (Hbad : ∃ part, part ∈ parse_hotkey (config s) ∧ ¬ valid_token part).
  { exists (py "foo"). split.
    - vm_compute. right. left.
    - rewrite valid_token_recognised. decide_closed. }
  split; [exact Hbad|]. split.
  - exact (proj1 (unknown_token_fails_closed s Hbad)).
  - by vm_compute.
Defined.

(** C7 (as stated) fails: with the hotkey "ctrl+foo" and nothing pressed,
    the call answers false at the token "ctrl" and prints no warning. *)
Lemma unknown_token_warning_counterexample :
  let s := Sample.holding "ctrl+foo" ∅ in
  (∃ part, part ∈ parse_hotkey (config s) ∧ ¬ valid_token part)
  ∧ ¬ ((is_hotkey_pressed s).1 = false ∧ warns (is_hotkey_pressed s).2).
Proof.
  intros s. split.
  - exists (py "foo"). split.
    + vm_compute. right. left.
    + rewrite valid_token_recognised. decide_closed.
  - intros [_ (part & hotkey & Hin)]. vm_compute in Hin.
    by apply elem_of_nil in Hin.
Qed.

(** ** Silence classification *)

Lemma np_abs_in_range (x : Z) : -32768 < x ≤ 32767 → np_abs x = Z.abs x.
Proof.
  intros Hx. unfold np_abs, wrap_int16.
  rewrite Z.mod_small by lia. lia.
Qed.

Lemma map_np_abs_in_range (l : list Z) :
  Forall (λ x, -32768 < x ≤ 32767) l → map np_abs l = map Z.abs l.
Proof.
  induction 1 as [|x l Hx _ IH]; [done|].
  cbn. by rewrite IH, np_abs_in_range.
Qed.

Lemma Qlt_bool_true (a b : Q) : Qlt_bool a b = true ↔ (a < b)%Q.
Proof.
  unfold Qlt_bool. rewrite Qlt_alt.
  destruct (a ?= b)%Q; intuition congruence.
Qed.

Lemma is_silent_in_range (cfg : Config) (audio_data : list Z) :
  audio_data ≠ [] →
  Forall (λ x, -32768 < x ≤ 32767) audio_data →
  is_silent cfg audio_data
  = Qlt_bool (mean_abs_amplitude audio_data) (inject_Z (SILENCE_THRESHOLD cfg)).
Proof.
  intros Hne Hr. unfold is_silent, mean_abs_amplitude.
  rewrite (map_np_abs_in_range _ Hr).
  destruct audio_data as [|x l]; [done|].
  cbn [map np_mean length]. by rewrite length_map.
Qed.

(** Away from the sample -32768 the classification is the strict
    comparison of the mean absolute amplitude with the threshold: a
    non-empty block with samples in -32767..32767 is silent exactly when
    its mean is strictly below the threshold, and a block whose mean
    equals the threshold is not silent. *)
Lemma is_silent_strict (cfg : Config) (audio_data : list Z) :
  audio_data ≠ [] →
  Forall (λ x, -32768 < x ≤ 32767) audio_data →
  (is_silent cfg audio_data = true
   ↔ (mean_abs_amplitude audio_data < inject_Z (SILENCE_THRESHOLD cfg))%Q)
  ∧ ((mean_abs_amplitude audio_data == inject_Z (SILENCE_THRESHOLD cfg))%Q →
     is_silent cfg audio_data = false).
Proof.
  intros Hne Hr. rewrite (is_silent_in_range _ _ Hne Hr). split.
  - apply Qlt_bool_true.
  - intros Heq. apply not_true_is_false. rewrite Qlt_bool_true, Heq.
    apply Qlt_irrefl.
Qed.

Example is_silent_at_threshold :
  is_silent (Sample.cfg "ctrl+alt+0") [500; -500; 600; -400] = false
  ∧ is_silent (Sample.cfg "ctrl+alt+0") [500; -500; 600; -399] = true.
Proof. split; reflexivity. Qed.

(** C10 (the code at the failing input). A block of full-scale negative
    samples scales to the 16-bit value -32768, whose magnitude wraps back
    to -32768 in [np.abs]: the mean that is compared with the threshold is
    negative, and the block is classified as silent although its mean
    absolute amplitude, 32768, is not below the threshold of 500. *)
Theorem is_silent_full_scale_negative :
  let cfg := Sample.cfg "ctrl+alt+0" in
  let indata : frame := [(-1)%Q; (-1)%Q] in
  scale_int16 indata = [-32768; -32768]
  ∧ np_mean (map np_abs (scale_int16 indata)) = Some (-65536 # 2)%Q
  ∧ (mean_abs_amplitude (scale_int16 indata) == inject_Z 32768)%Q
  ∧ ¬ (mean_abs_amplitude (scale_int16 indata)
       < inject_Z (SILENCE_THRESHOLD cfg))%Q
  ∧ is_silent cfg (scale_int16 indata) = true.
Proof.
  intros cfg indata. split; [reflexivity|]. split; [reflexivity|].
  split; [reflexivity|]. split; [|reflexivity].
  vm_compute. discriminate.
Qed.

(** ** Frames outside a recording *)

(** C8. A frame that arrives while the assistant is not recording leaves
    every attribute as it was and has no effect: nothing is buffered, and
    the silence timestamp and the two flags keep their values. *)
Theorem audio_callback_not_recording
    (s : VoiceTypingAssistant) (indata : frame) (now : Q) :
  is_recording s = false →
  audio_callback s indata now = (s, [])
  ∧ session_state (audio_callback s indata now).1 = session_state s.
Proof.
  intros Hr. unfold audio_callback. rewrite Hr. done.
Qed.

Lemma audio_callback_not_recording_witness :
  let s := set_should_transcribe true (init (Sample.cfg "ctrl+alt+0")) in
  is_recording s = false
  ∧ session_state s = ReadyToTranscribe
  ∧ audio_callback s [(1#2)%Q] 7 = (s, []).
Proof.
  intros s. assert (Hr : is_recording s = false) by reflexivity.
  split; [exact Hr|]. split; [reflexivity|].
  exact (proj1 (audio_callback_not_recording s [(1#2)%Q] 7 Hr)).
Defined.

(** ** The recording session *)

Section Session.
Implicit Types (s : VoiceTypingAssistant) (f : frame) (t now : Q).
Local Opaque scale_int16 is_silent.

Lemma audio_callback_config s f t :
  config (audio_callback s f t).1 = config s.
Proof.
  unfold audio_callback. repeat case_match; reflexivity.
Qed.

Lemma audio_callback_should_transcribe s f t :
  is_recording (audio_callback s f t).1 = true →
  should_transcribe (audio_callback s f t).1 = should_transcribe s.
Proof.
  unfold audio_callback. repeat case_match; cbn; congruence.
Qed.

Lemma waiting_silent s f t :
  waiting s → frame_silent (config s) f = true →
  waiting (audio_callback s f t).1 ∧ auto_stops s (f, t) = false.
Proof.
  intros [Hr Hd] Hs. unfold auto_stops, audio_callback, frame_silent in *.
  cbn. rewrite Hr. cbn. rewrite Hs, Hd. cbn. rewrite ?Hr; done.
Qed.

Lemma recording_loud s f t :
  is_recording s = true → frame_silent (config s) f = false →
  heard (audio_callback s f t).1 ∧ auto_stops s (f, t) = false.
Proof.
  intros Hr Hs. unfold auto_stops, audio_callback, frame_silent in *.
  cbn. rewrite Hr. cbn. rewrite Hs. cbn. rewrite ?Hr; done.
Qed.

Lemma heard_silent s f t :
  heard s → frame_silent (config s) f = true →
  timing t (audio_callback s f t).1 ∧ auto_stops s (f, t) = false.
Proof.
  intros (Hr & Hd & Ht) Hs. unfold auto_stops, audio_callback, frame_silent in *.
  cbn. rewrite Hr. cbn. rewrite Hs, Hd, Ht. cbn. rewrite ?Hr; done.
Qed.

Lemma timing_silent_early s f t t0 :
  timing t0 s → frame_silent (config s) f = true →
  ¬ (SILENCE_DURATION (config s) <= t - t0)%Q →
  timing t0 (audio_callback s f t).1 ∧ auto_stops s (f, t) = false.
Proof.
  intros (Hr & Hd & Ht) Hs Hq. rewrite <- Qle_bool_iff in Hq.
  apply not_true_is_false in Hq.
  unfold auto_stops, audio_callback, frame_silent in *.
  cbn. rewrite Hr. cbn. rewrite Hs, Hd, Ht. cbn. rewrite Hq. cbn.
  rewrite ?Hr; done.
Qed.

Lemma timing_silent_due s f t t0 :
  timing t0 s → frame_silent (config s) f = true →
  (SILENCE_DURATION (config s) <= t - t0)%Q →
  auto_stops s (f, t) = true
  ∧ session_state (audio_callback s f t).1 = ReadyToTranscribe.
Proof.
  intros (Hr & Hd & Ht) Hs Hq. rewrite <- Qle_bool_iff in Hq.
  unfold auto_stops, audio_callback, frame_silent, session_state in *.
  cbn. rewrite Hr. cbn. rewrite Hs, Hd, Ht. cbn. rewrite Hq. done.
Qed.


Lemma first_transition_app s (l1 l2 : list (frame * Q)) :
  first_transition s l1 = None →
  first_transition s (l1 ++ l2)
  = (λ j, (length l1 + j)%nat) <$> first_transition (feed s l1) l2.
Proof.
  revert s. induction l1 as [|ft l1 IH]; intros s H; cbn in *.
  - by destruct (first_transition s l2).
  - destruct (auto_stops s ft); [discriminate|].
    destruct (first_transition (audio_callback s ft.1 ft.2).1 l1) eqn:E;
      [discriminate|].
    rewrite (IH _ E).
    by destruct (first_transition (feed (audio_callback s ft.1 ft.2).1 l1) l2).
Qed.

Lemma feed_config s (l : list (frame * Q)) : config (feed s l) = config s.
Proof.
  revert s. induction l as [|ft l IH]; intros s; [done|].
  cbn. by rewrite IH, audio_callback_config.
Qed.

(** Silence before any speech: the recording goes on. *)
Lemma waiting_feed s (l : list (frame * Q)) :
  waiting s → Forall (λ ft : frame * Q, frame_silent (config s) ft.1 = true) l →
  waiting (feed s l) ∧ first_transition s l = None
  ∧ should_transcribe (feed s l) = should_transcribe s.
Proof.
  intros Hw Hl. revert s Hw Hl.
  induction l as [|[f t] l IH]; intros s Hw Hl; [done|].
  apply Forall_cons in Hl as [Hf Hl]. cbn in Hf.
  destruct (waiting_silent s f t Hw Hf) as [Hw' Hn].
  rewrite <- (audio_callback_config s f t) in Hl.
  destruct (IH _ Hw' Hl) as (H1 & H2 & H3).
  cbn [feed first_transition fst snd]. rewrite Hn, H2, H3.
  split; [done|]. split; [done|].
  apply audio_callback_should_transcribe. apply Hw'.
Qed.

(** Speech: the recording goes on, and the last block leaves the
    timestamp cleared. *)
Lemma loud_feed s (l : list (frame * Q)) :
  is_recording s = true →
  Forall (λ ft : frame * Q, frame_silent (config s) ft.1 = false) l →
  l ≠ [] →
  heard (feed s l) ∧ first_transition s l = None.
Proof.
  intros Hr Hl Hne. revert s Hr Hl.
  induction l as [|[f t] l IH]; intros s Hr Hl; [done|].
  apply Forall_cons in Hl as [Hf Hl]. cbn in Hf.
  destruct (recording_loud s f t Hr Hf) as [Hh Hn].
  cbn [feed first_transition fst snd]. rewrite Hn.
  destruct l as [|ft l]; [done|].
  rewrite <- (audio_callback_config s f t) in Hl.
  destruct (IH ltac:(done) _ (proj1 Hh) Hl) as [H1 H2].
  by rewrite H2.
Qed.

(** Silence after speech, with the timestamp at [t0]: the recording ends
    at the first block whose callback finds the duration elapsed. *)
Lemma timing_feed_due s t0 (l : list (frame * Q)) (j : nat) (ft : frame * Q) :
  timing t0 s → Forall (λ ft : frame * Q, frame_silent (config s) ft.1 = true) l →
  l !! j = Some ft →
  (SILENCE_DURATION (config s) <= ft.2 - t0)%Q →
  (∀ i ft', (i < j)%nat → l !! i = Some ft' →
            ¬ (SILENCE_DURATION (config s) <= ft'.2 - t0)%Q) →
  first_transition s l = Some j.
Proof.
  intros Ht Hl. revert s j Ht Hl.
  induction l as [|[f t] l IH]; intros s j Ht Hl Hj Hd He; [done|].
  apply Forall_cons in Hl as [Hf Hl]. cbn in Hf.
  cbn [first_transition fst snd].
  destruct j as [|j].
  - injection Hj as <-. cbn in Hd.
    by rewrite (proj1 (timing_silent_due s f t t0 Ht Hf Hd)).
  - assert (Hq : ¬ (SILENCE_DURATION (config s) <= t - t0)%Q).
    { apply (He 0%nat (f, t)); [lia|done]. }
    destruct (timing_silent_early s f t t0 Ht Hf Hq) as [Ht' Hn].
    rewrite Hn. rewrite <- (audio_callback_config s f t) in Hl, Hd, He.
    rewrite (IH _ j Ht' Hl Hj Hd); [done|].
    intros i ft' Hi Hft'. apply (He (S i) ft'); [lia|done].
Qed.

Lemma timing_feed_early s t0 (l : list (frame * Q)) :
  timing t0 s → Forall (λ ft : frame * Q, frame_silent (config s) ft.1 = true) l →
  (∀ ft, ft ∈ l → ¬ (SILENCE_DURATION (config s) <= ft.2 - t0)%Q) →
  first_transition s l = None.
Proof.
  intros Ht Hl. revert s Ht Hl.
  induction l as [|[f t] l IH]; intros s Ht Hl He; [done|].
  apply Forall_cons in Hl as [Hf Hl]. cbn in Hf.
  cbn [first_transition fst snd].
  assert (Hq : ¬ (SILENCE_DURATION (config s) <= t - t0)%Q).
  { apply (He (f, t)). by left. }
  destruct (timing_silent_early s f t t0 Ht Hf Hq) as [Ht' Hn].
  rewrite Hn. rewrite <- (audio_callback_config s f t) in Hl, He.
  rewrite (IH _ Ht' Hl); [done|].
  intros ft Hin. apply He. by right.
Qed.

Lemma start_recording_waiting s now (o : stream_outcome) :
  waiting (start_recording s now o).1
  ∧ config (start_recording s now o).1 = config s
  ∧ should_transcribe (start_recording s now o).1 = should_transcribe s.
Proof. by destruct o. Qed.

End Session.

(** *** The silence invariant *)

Lemma audio_callback_invariant (s : VoiceTypingAssistant) (f : frame) (t : Q) :
  silence_invariant s → silence_invariant (audio_callback s f t).1.
Proof.
  unfold silence_invariant, audio_callback. intros Hi.
  repeat case_match; cbn; intros t' Ht'; try discriminate; eauto.
Qed.

Lemma start_recording_invariant (s : VoiceTypingAssistant) (now : Q)
    (o : stream_outcome) :
  silence_invariant (start_recording s now o).1.
Proof. intros t Ht. by destruct o. Qed.

Lemma step_invariant whisper (s : VoiceTypingAssistant) (i : input) :
  silence_invariant s → silence_invariant (step whisper s i).1.
Proof.
  intros Hi. destruct i as [key now o|key|f t|]; cbn [step].
  - unfold on_press, toggle_recording, stop_recording_and_transcribe.
    repeat case_match; cbn; try exact Hi; try apply start_recording_invariant.
  - unfold on_release. case_match; exact Hi.
  - by apply audio_callback_invariant.
  - unfold run_iteration. repeat case_match; exact Hi.
Qed.

(** The attribute [silence_start_time] exists whenever a recording is in
    progress: the audio callback never meets the missing attribute. *)
Lemma attribute_defined_while_recording whisper cfg (s : VoiceTypingAssistant) :
  reachable whisper cfg s →
  is_recording s = true → silence_start_time s ≠ attr_missing.
Proof.
  induction 1 as [|s i _ IH]; [discriminate|].
  destruct i as [key now o|key|f t|]; cbn [step].
  - unfold on_press, toggle_recording, stop_recording_and_transcribe.
    destruct o; repeat case_match; cbn; try exact IH; intros; discriminate.
  - unfold on_release. case_match; exact IH.
  - unfold audio_callback.
    repeat case_match; cbn; intros; try discriminate; intuition congruence.
  - unfold run_iteration. repeat case_match; exact IH.
Qed.

(** C3. The silence timestamp is set only when speech has been detected:
    [start_recording] resets both attributes and so establishes this, every
    audio callback preserves it, and it holds in every reachable state. A
    session whose blocks are all silent stays in the recording state: no
    callback ends it and asks for transcription. *)
Theorem silence_needs_speech :
  (∀ (s : VoiceTypingAssistant) now o,
      silence_start_time (start_recording s now o).1 = attr_None
      ∧ has_detected_speech (start_recording s now o).1 = false
      ∧ silence_invariant (start_recording s now o).1)
  ∧ (∀ (s : VoiceTypingAssistant) f t,
      silence_invariant s → silence_invariant (audio_callback s f t).1)
  ∧ (∀ whisper cfg (s : VoiceTypingAssistant),
      reachable whisper cfg s → silence_invariant s)
  ∧ (∀ (s : VoiceTypingAssistant) now o (blocks : list (frame * Q)),
      Forall (λ ft : frame * Q, frame_silent (config s) ft.1 = true) blocks →
      first_transition (start_recording s now o).1 blocks = None
      ∧ session_state (feed (start_recording s now o).1 blocks) = Recording
      ∧ should_transcribe (feed (start_recording s now o).1 blocks)
        = should_transcribe s).
Proof.
  split; [|split; [|split]].
  - intros s now o. split; [by destruct o|]. split; [by destruct o|].
    apply start_recording_invariant.
  - apply audio_callback_invariant.
  - intros whisper cfg s Hr. induction Hr as [|s i _ IH].
    + intros t Ht. discriminate.
    + by apply step_invariant.
  - intros s now o blocks Hb.
    destruct (start_recording_waiting s now o) as (Hw & Hc & Hst).
    rewrite <- Hc in Hb.
    destruct (waiting_feed _ _ Hw Hb) as ([Hr _] & Hn & Hs).
    split; [exact Hn|]. split.
    + unfold session_state. by rewrite Hr.
    + by rewrite Hs.
Qed.

Lemma silence_needs_speech_witness :
  let s := init (Sample.cfg "ctrl+alt+0") in
  let blocks := [(Sample_audio.quiet, 1%Q); (Sample_audio.quiet, 5%Q);
                 (Sample_audio.quiet, 9%Q)] in
  Forall (λ ft : frame * Q, frame_silent (config s) ft.1 = true) blocks
  ∧ silence_invariant s
  ∧ first_transition (start_recording s 0 stream_opened).1 blocks = None
  ∧ session_state (feed (start_recording s 0 stream_opened).1 blocks) = Recording.
Proof.
  intros s blocks.
  assert (Hb : Forall (λ ft : frame * Q, frame_silent (config s) ft.1 = true)
                      blocks).
  { repeat constructor. }
  pose proof silence_needs_speech as (_ & _ & Hreach & Hsil).
  split; [exact Hb|]. split.
  - apply (Hreach (λ _, None) (Sample.cfg "ctrl+alt+0")). constructor.
  - destruct (Hsil s 0%Q stream_opened blocks Hb) as (H1 & H2 & _). split; [exact H1|exact H2].
Defined.

(** *** The silence timeout *)

(** What [first_transition] reports, in terms of the states passed
    through: the session records up to that block and is ready to
    transcribe after it. *)
Lemma first_transition_Some (s : VoiceTypingAssistant)
    (blocks : list (frame * Q)) (n : nat) :
  first_transition s blocks = Some n →
  (∀ i, (i ≤ n)%nat → session_state (feed s (take i blocks)) = Recording)
  ∧ session_state (feed s (take (S n) blocks)) = ReadyToTranscribe.
Proof.
  revert s n. induction blocks as [|ft l IH]; intros s n H; [done|].
  cbn [first_transition] in H.
  destruct (auto_stops s ft) eqn:Ha.
  - injection H as <-. unfold auto_stops in Ha.
    apply andb_prop in Ha as [Ha Ht]. apply andb_prop in Ha as [Hr Hn].
    apply negb_true_iff in Hn. split.
    + intros i Hi. replace i with 0%nat by lia. cbn.
      unfold session_state. by rewrite Hr.
    + change (feed s (take 1 (ft :: l))) with (audio_callback s ft.1 ft.2).1.
      unfold session_state. by rewrite Hn, Ht.
  - destruct (first_transition (audio_callback s ft.1 ft.2).1 l) as [m|] eqn:E;
      [|discriminate].
    injection H as <-. destruct (IH _ _ E) as [H1 H2]. split; [|exact H2].
    intros [|i] Hi; [|apply H1; lia].
    specialize (H1 0%nat ltac:(lia)). rewrite take_0 in *. cbn [feed] in *.
    unfold session_state in *.
    destruct (is_recording s) eqn:Hr; [done|].
    unfold audio_callback in H1. rewrite Hr in H1. cbn in H1.
    rewrite Hr in H1. destruct (should_transcribe s); discriminate.
Qed.

(** C4 (as amended). In a session that hears [pre] silent blocks, then at
    least one non-silent block, then a silent block at clock reading [t0]
    followed by the silent blocks [tail], the silence timestamp is [t0],
    and the recording ends exactly at the first block of [tail] whose
    callback reads a clock at least the silence duration after [t0], at no
    earlier block; if [tail] has no such block the recording goes on. A
    non-silent block clears the silence timestamp. *)
Theorem silence_timeout_transition
    (s : VoiceTypingAssistant) (now : Q) (o : stream_outcome)
    (pre mid tail : list (frame * Q)) (f0 : frame) (t0 : Q) :
  Forall (λ ft : frame * Q, frame_silent (config s) ft.1 = true) pre →
  Forall (λ ft : frame * Q, frame_silent (config s) ft.1 = false) mid →
  mid ≠ [] →
  frame_silent (config s) f0 = true →
  Forall (λ ft : frame * Q, frame_silent (config s) ft.1 = true) tail →
  let blocks := pre ++ mid ++ (f0, t0) :: tail in
  let s0 := (start_recording s now o).1 in
  (∀ j ft,
      tail !! j = Some ft →
      (SILENCE_DURATION (config s) <= ft.2 - t0)%Q →
      (∀ i ft', (i < j)%nat → tail !! i = Some ft' →
                ¬ (SILENCE_DURATION (config s) <= ft'.2 - t0)%Q) →
      first_transition s0 blocks
      = Some (length pre + (length mid + S j))%nat)
  ∧ ((∀ ft, ft ∈ tail → ¬ (SILENCE_DURATION (config s) <= ft.2 - t0)%Q) →
     first_transition s0 blocks = None)
  ∧ (∀ (s1 : VoiceTypingAssistant) f t,
      is_recording s1 = true → frame_silent (config s1) f = false →
      silence_start_time (audio_callback s1 f t).1 = attr_None).
Proof.
  intros Hpre Hmid Hne Hf0 Htail blocks s0.
  destruct (start_recording_waiting s now o) as (Hw & Hc & _). fold s0 in Hw, Hc.
  rewrite <- Hc in Hpre.
  destruct (waiting_feed _ _ Hw Hpre) as ([Hr1 _] & Hn1 & _).
  set (s1 := feed s0 pre) in *.
  assert (Hc1 : config s1 = config s) by (unfold s1; by rewrite feed_config).
  rewrite <- Hc1 in Hmid.
  destruct (loud_feed _ _ Hr1 Hmid Hne) as [Hh Hn2].
  set (s2 := feed s1 mid) in *.
  assert (Hc2 : config s2 = config s) by (unfold s2; by rewrite feed_config).
  rewrite <- Hc2 in Hf0.
  destruct (heard_silent s2 f0 t0 Hh Hf0) as [Ht Hn3].
  set (s3 := (audio_callback s2 f0 t0).1) in *.
  assert (Hc3 : config s3 = config s).
  { unfold s3. by rewrite audio_callback_config. }
  rewrite <- Hc3 in Htail.
  assert (Hsplit : first_transition s0 blocks
                   = (λ j, (length pre + (length mid + S j))%nat)
                       <$> first_transition s3 tail).
  { unfold blocks. rewrite (first_transition_app _ _ _ Hn1). fold s1.
    rewrite (first_transition_app _ _ _ Hn2). fold s2.
    cbn [first_transition fst snd]. rewrite Hn3. fold s3.
    by destruct (first_transition s3 tail). }
  split; [|split].
  - intros j ft Hj Hd He. rewrite Hsplit. rewrite <- Hc3 in Hd, He.
    by rewrite (timing_feed_due s3 t0 tail j ft Ht Htail Hj Hd He).
  - intros He. rewrite Hsplit. rewrite <- Hc3 in He.
    by rewrite (timing_feed_early s3 t0 tail Ht Htail He).
  - intros s' f t Hr Hl. by destruct (recording_loud s' f t Hr Hl) as [(_ & _ & H) _].
Qed.

Lemma silence_timeout_transition_witness :
  let s := init (Sample.cfg "ctrl+alt+0") in
  let pre := [(Sample_audio.quiet, (1#2)%Q)] in
  let mid := [(Sample_audio.loud, 1%Q)] in
  let tail := [(Sample_audio.quiet, 2%Q); (Sample_audio.quiet, (5#2)%Q);
               (Sample_audio.quiet, 3%Q)] in
  Forall (λ ft : frame * Q, frame_silent (config s) ft.1 = true) pre
  ∧ Forall (λ ft : frame * Q, frame_silent (config s) ft.1 = false) mid
  ∧ mid ≠ []
  ∧ frame_silent (config s) Sample_audio.quiet = true
  ∧ Forall (λ ft : frame * Q, frame_silent (config s) ft.1 = true) tail
  ∧ first_transition (start_recording s 0 stream_opened).1
      (pre ++ mid ++ (Sample_audio.quiet, (3#2)%Q) :: tail) = Some 4%nat.
Proof.
  intros s pre mid tail.
  assert (H1 : Forall (λ ft : frame * Q, frame_silent (config s) ft.1 = true) pre)
    by repeat constructor.
  assert (H2 : Forall (λ ft : frame * Q, frame_silent (config s) ft.1 = false) mid)
    by repeat constructor.
  assert (H3 : mid ≠ []) by discriminate.
  assert (H4 : frame_silent (config s) Sample_audio.quiet = true) by reflexivity.
  assert (H5 : Forall (λ ft : frame * Q, frame_silent (config s) ft.1 = true) tail)
    by repeat constructor.
  do 5 (split; [assumption|]).
  refine (proj1 (silence_timeout_transition s 0 stream_opened pre mid tail Sample_audio.quiet
                   (3#2)%Q H1 H2 H3 H4 H5) 1%nat (Sample_audio.quiet, (5#2)%Q)
                _ _ _).
  - reflexivity.
  - unfold Qle. cbn. lia.
  - intros i ft' Hi Hl. assert (i = 0%nat) as -> by lia.
    injection Hl as <-. unfold Qle. cbn. lia.
Defined.

(** C4 (as stated) fails: two silent blocks, two non-silent blocks and
    four silent blocks, each a quarter of a second long, with a silence
    duration of one second. The trailing silence lasts as long as the
    configured duration, but the timestamp is taken at the callback of the
    first trailing block, the last callback comes three quarters of a
    second later, and the recording goes on. *)
Lemma silence_timeout_counterexample :
  let s := init (Sample.cfg "ctrl+alt+0") in
  let dt := (1#4)%Q in
  ¬ ((SILENCE_DURATION (config s) <= inject_Z 4 * dt)%Q →
     ∃ n, first_transition (start_recording s 0 stream_opened).1 (synthetic 2 2 4 dt)
          = Some n).
Proof.
  intros s dt H.
  destruct H as [n Hn].
  - unfold Qle. cbn. lia.
  - vm_compute in Hn. discriminate.
Qed.

(** ** The toggle edge *)

Section Toggle.
Implicit Types (s : VoiceTypingAssistant) (key : key_id) (i : input).
Variable whisper : list frame → option (list N).

Lemma check_parts_toggles hotkey (pressed : gset key_id) (parts : list (list N)) :
  toggles (check_parts hotkey pressed parts).2 = 0%nat.
Proof.
  induction parts as [|part rest IH]; [done|].
  cbn [check_parts]. repeat case_match; done.
Qed.

Lemma toggle_recording_toggles s now (o : stream_outcome) :
  toggles (toggle_recording s now o).2 = 1%nat
  ∧ hotkey_pressed (toggle_recording s now o).1 = hotkey_pressed s.
Proof.
  unfold toggle_recording, start_recording, stop_recording_and_transcribe.
  by destruct (is_recording s), o.
Qed.

Lemma toggles_app (l1 l2 : list effect) :
  toggles (l1 ++ l2) = (toggles l1 + toggles l2)%nat.
Proof. unfold toggles. by rewrite List.filter_app, length_app. Qed.

Lemma on_press_toggles s key now (o : stream_outcome) :
  toggles (on_press s key now o).2
  = if (is_hotkey_pressed
          (set_pressed_keys ({[ key ]} ∪ pressed_keys s) s)).1
       && negb (hotkey_pressed s)
    then 1%nat else 0%nat.
Proof.
  unfold on_press.
  set (s1 := set_pressed_keys ({[ key ]} ∪ pressed_keys s) s).
  pose proof (check_parts_toggles (hotkey_str (config s1)) (pressed_keys s1)
                (parse_hotkey (config s1))) as Hc.
  fold (is_hotkey_pressed s1) in Hc.
  change (hotkey_pressed s1) with (hotkey_pressed s).
  destruct (is_hotkey_pressed s1).1; [|exact Hc].
  destruct (hotkey_pressed s); cbn [negb andb]; [exact Hc|].
  cbn [snd]. rewrite !toggles_app, Hc.
  destruct (toggle_recording_toggles (set_hotkey_pressed true s1) now o) as [-> _].
  by destruct (toggle_raises _ _).
Qed.

Lemma on_press_armed s key now (o : stream_outcome) :
  hotkey_pressed s = true ∨ toggles (on_press s key now o).2 = 1%nat →
  hotkey_pressed (on_press s key now o).1 = true.
Proof.
  rewrite on_press_toggles. unfold on_press.
  set (s1 := set_pressed_keys ({[ key ]} ∪ pressed_keys s) s).
  change (hotkey_pressed s1) with (hotkey_pressed s).
  destruct (is_hotkey_pressed s1).1, (hotkey_pressed s) eqn:Hh;
    cbn [negb andb fst]; rewrite ?Hh; try done.
  - intros _.
    by destruct (toggle_recording_toggles (set_hotkey_pressed true s1) now o)
      as [_ ->].
  - intros [|]; discriminate.
Qed.

Lemma step_toggles_not_press s i :
  (∀ key now o, i ≠ key_press key now o) → toggles (step whisper s i).2 = 0%nat.
Proof.
  intros Hn. destruct i as [key now o|key|f t|]; cbn [step].
  - by destruct (Hn key now o).
  - unfold on_release. by case_match.
  - unfold audio_callback. repeat case_match; done.
  - unfold run_iteration, transcribe_and_type. repeat case_match; done.
Qed.

(** An armed edge stays armed, and nothing fires, until ctrl is released. *)
Lemma step_armed s i :
  hotkey_pressed s = true →
  toggles (step whisper s i).2 = 0%nat
  ∧ (¬ is_ctrl_release i → hotkey_pressed (step whisper s i).1 = true).
Proof.
  intros Hh. split.
  - destruct i as [key now o|key|f t|];
      [|apply step_toggles_not_press; intros ???; discriminate..].
    cbn [step]. rewrite on_press_toggles, Hh. by rewrite andb_false_r.
  - intros Hn. destruct i as [key now o|key|f t|]; cbn [step].
    + apply on_press_armed. by left.
    + unfold on_release, is_ctrl_release in *.
      repeat case_bool_decide; subst; cbn; try exact Hh; exfalso; apply Hn; auto.
    + unfold audio_callback. repeat case_match; exact Hh.
    + unfold run_iteration. repeat case_match; exact Hh.
Qed.

Lemma step_fires_armed s i :
  toggles (step whisper s i).2 = 1%nat →
  hotkey_pressed (step whisper s i).1 = true.
Proof.
  intros Hf. destruct i as [key now o|key|f t|].
  - apply on_press_armed. by right.
  - rewrite step_toggles_not_press in Hf; [discriminate|]. intros ???; discriminate.
  - rewrite step_toggles_not_press in Hf; [discriminate|]. intros ???; discriminate.
  - rewrite step_toggles_not_press in Hf; [discriminate|]. intros ???; discriminate.
Qed.

Lemma state_after_armed s (l : list input) :
  hotkey_pressed s = true →
  (∀ i, i ∈ l → ¬ is_ctrl_release i) →
  hotkey_pressed (state_after whisper s l) = true.
Proof.
  revert s. induction l as [|i l IH]; intros s Hh Hl; [done|].
  unfold state_after. cbn [run_inputs fst]. apply IH.
  - apply (step_armed s i Hh). apply Hl. by left.
  - intros j Hj. apply Hl. by right.
Qed.

End Toggle.

(** C2. A press fires the toggle exactly once when, with the pressed key
    added, the hotkey is held and the edge is not armed, and not at all
    otherwise; a release never fires it, nor does any input other than a
    press; an armed edge is disarmed only by the release of [ctrl_l] or
    [ctrl_r]; and between two inputs that fire the toggle there is always
    such a release. *)
Theorem toggle_edge_once :
  (∀ (s : VoiceTypingAssistant) key now o,
      toggles (on_press s key now o).2
      = if (is_hotkey_pressed
              (set_pressed_keys ({[ key ]} ∪ pressed_keys s) s)).1
           && negb (hotkey_pressed s)
        then 1%nat else 0%nat)
  ∧ (∀ (s : VoiceTypingAssistant) key, toggles (on_release s key).2 = 0%nat)
  ∧ (∀ whisper (s : VoiceTypingAssistant) i,
      (∀ key now o, i ≠ key_press key now o) →
      toggles (step whisper s i).2 = 0%nat)
  ∧ (∀ whisper (s : VoiceTypingAssistant) i,
      hotkey_pressed s = true →
      hotkey_pressed (step whisper s i).1 = false →
      is_ctrl_release i)
  ∧ (∀ whisper (s : VoiceTypingAssistant) i1 (l : list input) i2,
      toggles (step whisper s i1).2 = 1%nat →
      toggles (step whisper
                 (state_after whisper (step whisper s i1).1 l) i2).2 = 1%nat →
      ∃ i, i ∈ l ∧ is_ctrl_release i).
Proof.
  split; [|split; [|split; [|split]]].
  - apply on_press_toggles.
  - intros s key.
    apply (step_toggles_not_press (λ _, None) s (key_release key)).
    intros ???; discriminate.
  - intros whisper. apply step_toggles_not_press.
  - intros whisper s i Hh Hf.
    destruct (decide (is_ctrl_release i)) as [Hc|Hc]; [exact Hc|].
    rewrite (proj2 (step_armed whisper s i Hh) Hc) in Hf. discriminate.
  - intros whisper s i1 l i2 H1 H2.
    destruct (decide (Exists is_ctrl_release l)) as [He|He].
    { apply Exists_exists in He. exact He. }
    exfalso.
    assert (Ha : hotkey_pressed (state_after whisper (step whisper s i1).1 l) = true).
    { apply state_after_armed; [by apply step_fires_armed|].
      intros i Hi Hc. apply He, Exists_exists. by exists i. }
    rewrite (proj1 (step_armed whisper _ i2 Ha)) in H2. discriminate.
Qed.

Lemma toggle_edge_once_witness :
  let whisper : list frame → option (list N) := λ _, None in
  let s := Sample.holding "ctrl+alt+0"
             {[ special Key_ctrl_l; special Key_alt_l ]} in
  let i1 := key_press (Sample.kc "0") 0%Q stream_opened in
  let l := [key_release (Sample.kc "0"); key_release (special Key_ctrl_l);
            key_press (special Key_ctrl_l) 1%Q stream_opened] in
  let i2 := key_press (Sample.kc "0") 2%Q stream_opened in
  toggles (step whisper s i1).2 = 1%nat
  ∧ toggles (step whisper (state_after whisper (step whisper s i1).1 l) i2).2
    = 1%nat
  ∧ ∃ i, i ∈ l ∧ is_ctrl_release i.
Proof.
  intros whisper s i1 l i2.
  assert (H1 : toggles (step whisper s i1).2 = 1%nat) by (vm_compute; reflexivity).
  assert (H2 : toggles (step whisper
                          (state_after whisper (step whisper s i1).1 l) i2).2
               = 1%nat) by (vm_compute; reflexivity).
  split; [exact H1|]. split; [exact H2|].
  exact (proj2 (proj2 (proj2 (proj2 toggle_edge_once))) whisper s i1 l i2 H1 H2).
Defined.

(** ** Manual stop *)

Lemma run_iteration_idle whisper (s : VoiceTypingAssistant) :
  should_transcribe s = false → run_iteration whisper s = (s, []).
Proof. intros H. unfold run_iteration. by rewrite H. Qed.

Lemma manual_stop_idle whisper (s : VoiceTypingAssistant) (now : Q)
    (o : stream_outcome) :
  is_recording s = true → should_transcribe s = false →
  (toggle_recording s now o).1 = set_is_recording false s
  ∧ session_state (toggle_recording s now o).1 = Idle
  ∧ (∀ l : list input, Forall background l →
       run_inputs whisper (toggle_recording s now o).1 l
       = ((toggle_recording s now o).1, replicate (length l) [])).
Proof.
  intros Hr Hs.
  assert (He : (toggle_recording s now o).1 = set_is_recording false s).
  { unfold toggle_recording, stop_recording_and_transcribe. by rewrite Hr. }
  rewrite He. split; [done|]. split.
  - unfold session_state. cbn. by rewrite Hs.
  - induction 1 as [|i l Hi _ IH]; [done|].
    cbn [run_inputs length replicate].
    assert (Hstep : step whisper (set_is_recording false s) i
                    = (set_is_recording false s, [])).
    { destruct Hi as [->|(f & t & ->)]; cbn [step].
      - unfold run_iteration. cbn. by rewrite Hs.
      - reflexivity. }
    rewrite Hstep. cbn [fst snd]. by rewrite IH.
Qed.

(** C1 (the code at the failing input). The hotkey starts a recording, two
    blocks of speech are buffered, ctrl is released and pressed again: the
    toggle fires and [stop_recording_and_transcribe] runs. The session is
    then idle, not ready to transcribe; the control loop does nothing with
    the two buffered blocks, and the next recording discards them. *)
Theorem manual_stop_not_transcribed :
  let whisper : list frame → option (list N) := λ _, Some (py "hello world") in
  let s := state_after whisper (init (Sample.cfg "ctrl+alt+0"))
             [ key_press (special Key_ctrl_l) 0%Q stream_opened;
               key_press (special Key_alt_l) 0%Q stream_opened;
               key_press (Sample.kc "0") 0%Q stream_opened;
               audio_block Sample_audio.loud 1%Q;
               audio_block Sample_audio.loud 2%Q;
               key_release (special Key_ctrl_l) ] in
  let r := step whisper s (key_press (special Key_ctrl_l) 3%Q stream_opened) in
  session_state s = Recording
  ∧ audio_frames s = [Sample_audio.loud; Sample_audio.loud]
  ∧ r.2 = [call_toggle_recording; print msg_recording_stopped]
  ∧ session_state r.1 = Idle
  ∧ audio_frames r.1 = [Sample_audio.loud; Sample_audio.loud]
  ∧ run_iteration whisper r.1 = (r.1, [])
  ∧ ∀ o, audio_frames (start_recording r.1 4%Q o).1 = [].
Proof.
  intros whisper s r.
  do 5 (split; [vm_compute; reflexivity|]).
  split; [apply run_iteration_idle; vm_compute; reflexivity|].
  intros o. destruct o; vm_compute; reflexivity.
Qed.

(** ** Transcript post-processing *)

Section Transcript.
Implicit Types (l text transcript : list N) (c : N).

Lemma is_trailing_punct_spec c :
  is_trailing_punct c = true ↔ c ∈ trailing_punctuation.
Proof. unfold is_trailing_punct. by rewrite bool_decide_eq_true. Qed.

Lemma drop_punct_split l :
  ∃ ps, l = ps ++ drop_punct l ∧ Forall (λ c, c ∈ trailing_punctuation) ps.
Proof.
  induction l as [|c l (ps & Hl & Hps)].
  - exists []. split; [done|constructor].
  - cbn [drop_punct]. destruct (is_trailing_punct c) eqn:Hc.
    + exists (c :: ps). split; [by rewrite Hl at 1|].
      constructor; [by apply is_trailing_punct_spec|done].
    + exists []. split; [done|constructor].
Qed.

Lemma drop_punct_head l c :
  head (drop_punct l) = Some c → c ∉ trailing_punctuation.
Proof.
  induction l as [|c' l IH]; [done|]. cbn [drop_punct].
  destruct (is_trailing_punct c') eqn:Hc; [exact IH|].
  intros [= <-]. rewrite <- is_trailing_punct_spec. congruence.
Qed.

Lemma drop_punct_fixed l :
  (∀ c, head l = Some c → c ∉ trailing_punctuation) → drop_punct l = l.
Proof.
  destruct l as [|c l]; [done|]. intros H. cbn [drop_punct].
  destruct (is_trailing_punct c) eqn:Hc; [|done].
  apply is_trailing_punct_spec in Hc. by destruct (H c eq_refl).
Qed.

Lemma drop_punct_nil l :
  drop_punct l = [] ↔ Forall (λ c, c ∈ trailing_punctuation) l.
Proof.
  induction l as [|c l IH]; [by split; [constructor|]|].
  cbn [drop_punct]. destruct (is_trailing_punct c) eqn:Hc.
  - rewrite IH. apply is_trailing_punct_spec in Hc. split.
    + intros H. by constructor.
    + intros H. by apply Forall_cons in H as [_ H].
  - split; [done|]. intros H. apply Forall_cons in H as [H _].
    apply is_trailing_punct_spec in H. congruence.
Qed.

(** The loop removes the trailing punctuation, all of it, and nothing
    else. *)
Lemma rstrip_punct_spec text :
  without_trailing_punctuation text (rstrip_punct text).
Proof.
  destruct (drop_punct_split (rev text)) as (ps & Hl & Hps).
  exists (rev ps). split; [|split].
  - unfold rstrip_punct. by rewrite <- rev_app_distr, <- Hl, rev_involutive.
  - by apply Forall_rev.
  - intros c Hc. unfold rstrip_punct in Hc. rewrite last_rev in Hc.
    by apply drop_punct_head in Hc.
Qed.

Lemma clean_transcript_eq transcript :
  clean_transcript transcript
  = PyStr.strip (rstrip_punct (PyStr.strip transcript)).
Proof.
  unfold clean_transcript. case_bool_decide as He; [|done]. by rewrite He.
Qed.

(** The cleaned text inside the transcript: white space in front of it,
    and behind it white space, then trailing punctuation, then white
    space. *)
Lemma clean_transcript_segment transcript :
  ∃ lead gap dots trail,
    transcript = lead ++ clean_transcript transcript ++ gap ++ dots ++ trail
    ∧ white lead ∧ white gap ∧ white trail
    ∧ Forall (λ c, c ∈ trailing_punctuation) dots
    ∧ PyStr.strip transcript = clean_transcript transcript ++ gap ++ dots
    ∧ (∀ c, last (clean_transcript transcript ++ gap) = Some c →
            c ∉ trailing_punctuation).
Proof.
  rewrite clean_transcript_eq.
  destruct (strip_split transcript) as (lead & trail & HT & Hlead & Htrail).
  destruct (strip_clean transcript) as [HA _].
  set (A := PyStr.strip transcript) in *.
  destruct (rstrip_punct_spec A) as (dots & HAB & Hdots & Hlast).
  set (B := rstrip_punct A) in *.
  assert (HB : no_leading_space B).
  { intros c Hc. apply HA. rewrite HAB. by destruct B. }
  destruct (rstrip_split B) as (gap & HBg & Hgap).
  assert (Hs : PyStr.strip B = PyStr.rstrip B).
  { unfold PyStr.strip. by rewrite (lstrip_fixed B HB). }
  rewrite Hs. exists lead, gap, dots, trail.
  split; [|split; [done|]; split; [done|]; split; [done|]; split; [done|]; split].
  - rewrite HT at 1. rewrite HAB at 1. rewrite HBg at 1.
    by rewrite <- !app_assoc.
  - rewrite app_assoc, <- HBg. exact HAB.
  - by rewrite <- HBg.
Qed.

End Transcript.

(** C9 (as amended). The text handed to [type_text] is the transcript
    stripped of surrounding white space, then of trailing '.', ',', ';'
    and ':', then stripped again. The transcript is white space, this
    text, white space, trailing punctuation and white space, in this
    order, where the punctuation is all the trailing punctuation there is
    and the text has no white space at its ends. [type_text] is called
    exactly when the text is not empty, and once; otherwise the "no
    speech" message is printed. *)
Theorem typed_text_is_cleaned_transcript
    (whisper : list frame → option (list N)) (s : VoiceTypingAssistant)
    (transcript : list N) :
  audio_frames s ≠ [] →
  whisper (audio_frames s) = Some transcript →
  let text := PyStr.strip (rstrip_punct (PyStr.strip transcript)) in
  (∀ t, typed t (transcribe_and_type whisper s) ↔ t = text ∧ text ≠ [])
  ∧ (text ≠ [] →
     transcribe_and_type whisper s
     = [transcriptions_create (audio_frames s); print (msg_transcribed text);
        type_text text; print msg_text_typed])
  ∧ (text = [] →
     transcribe_and_type whisper s
     = [transcriptions_create (audio_frames s); print msg_no_speech])
  ∧ no_leading_space text ∧ no_trailing_space text
  ∧ ∃ lead gap dots trail,
      transcript = lead ++ text ++ gap ++ dots ++ trail
      ∧ white lead ∧ white gap ∧ white trail
      ∧ Forall (λ c, c ∈ trailing_punctuation) dots
      ∧ no_leading_space (text ++ gap ++ dots)
      ∧ no_trailing_space (text ++ gap ++ dots)
      ∧ ∀ c, last (text ++ gap) = Some c → c ∉ trailing_punctuation.
Proof.
  intros Hne Hw text.
  assert (Hout : transcribe_and_type whisper s
                 = transcriptions_create (audio_frames s) ::
                   if bool_decide (text = []) then [print msg_no_speech]
                   else [print (msg_transcribed text); type_text text;
                         print msg_text_typed]).
  { unfold transcribe_and_type. rewrite Hw, clean_transcript_eq.
    by destruct (audio_frames s). }
  split; [|split; [|split; [|split; [|split]]]].
  - intros t. unfold typed. rewrite Hout. case_bool_decide as He.
    + split.
      * intros Hin. repeat (apply elem_of_cons in Hin as [Hin|Hin]; [discriminate|]).
        by apply elem_of_nil in Hin.
      * by intros [_ ?].
    + split.
      * intros Hin. apply elem_of_cons in Hin as [Hin|Hin]; [discriminate|].
        apply elem_of_cons in Hin as [Hin|Hin]; [discriminate|].
        apply elem_of_cons in Hin as [Hin|Hin]; [by injection Hin as ->|].
        apply elem_of_cons in Hin as [Hin|Hin]; [discriminate|].
        by apply elem_of_nil in Hin.
      * intros [-> _]. do 2 right. left.
  - intros He. rewrite Hout. by case_bool_decide.
  - intros He. rewrite Hout. by case_bool_decide.
  - apply strip_clean.
  - apply strip_clean.
  - unfold text. rewrite <- clean_transcript_eq.
    destruct (clean_transcript_segment transcript)
      as (lead & gap & dots & trail & HT & H1 & H2 & H3 & H4 & HA & HB).
    exists lead, gap, dots, trail. rewrite <- HA.
    repeat (split; [done|]). split; [|split; [|done]]; apply strip_clean.
Qed.

Lemma typed_text_is_cleaned_transcript_witness :
  let whisper : list frame → option (list N) := λ _, Some padded_transcript in
  let s := set_audio_frames [Sample_audio.loud] (init (Sample.cfg "ctrl+alt+0")) in
  audio_frames s ≠ []
  ∧ whisper (audio_frames s) = Some padded_transcript
  ∧ typed (py "Hello world") (transcribe_and_type whisper s).
Proof.
  intros whisper s.
  assert (H1 : audio_frames s ≠ []) by discriminate.
  assert (H2 : whisper (audio_frames s) = Some padded_transcript) by reflexivity.
  split; [exact H1|]. split; [exact H2|].
  apply (proj1 (typed_text_is_cleaned_transcript whisper s padded_transcript
                  H1 H2)).
  split; [by vm_compute|by vm_compute].
Defined.

(** C9 (as stated) fails: the service returns the sentence followed by a
    line feed. This transcript has no trailing punctuation to trim, since
    it ends in the line feed; the text typed has lost both the line feed
    and the full stop. *)
Lemma typed_text_counterexample :
  let whisper : list frame → option (list N) := λ _, Some sample_transcript in
  let s := set_audio_frames [Sample_audio.loud] (init (Sample.cfg "ctrl+alt+0")) in
  ¬ (∀ t, typed t (transcribe_and_type whisper s) →
          without_trailing_punctuation sample_transcript t).
Proof.
  intros whisper s H.
  assert (Ht : typed (py "Hello world") (transcribe_and_type whisper s)).
  { unfold typed. vm_compute. do 2 right. left. }
  apply H in Ht. destruct Ht as (ps & Hps & Hall & _).
  change sample_transcript with (py "Hello world" ++ [46; 10]%N) in Hps.
  apply app_inv_head in Hps as <-.
  apply Forall_cons in Hall as [_ Hall]. apply Forall_cons in Hall as [Hall _].
  revert Hall. decide_closed.
Qed.

(** ** The parsed hotkey *)

Lemma parse_hotkey_token_normal (cfg : Config) (part : list N) :
  part ∈ parse_hotkey cfg →
  PyStr.lower part = part ∧ PyStr.strip part = part ∧ plus_sign ∉ part.
Proof.
  unfold parse_hotkey. intros Hin.
  apply list_elem_of_In, in_map_iff in Hin as (p & <- & Hp).
  apply list_elem_of_In in Hp. split; [|split].
  - apply lower_idemp.
  - by rewrite <- strip_lower, strip_idemp.
  - apply lower_from_no_plus. intros Hin. apply strip_subseteq in Hin.
    by apply (split_no_sep _ _ _ Hp).
Qed.

(** The parsed hotkey has one token more than the hotkey string has plus
    signs, and every token is in normal form: lower case, without white
    space at its ends, without a plus sign. *)
Theorem parse_hotkey_normal_form (cfg : Config) :
  length (parse_hotkey cfg)
  = S (length (List.filter (λ c, bool_decide (c = plus_sign))
                           (hotkey_str cfg)))
  ∧ ∀ part, part ∈ parse_hotkey cfg →
      PyStr.lower part = part ∧ PyStr.strip part = part
      ∧ plus_sign ∉ part.
Proof.
  split.
  - unfold parse_hotkey. rewrite length_map. apply split_length.
  - apply parse_hotkey_token_normal.
Qed.

(** The case of the hotkey string does not matter: two configurations
    whose hotkey strings differ only in case parse to the same tokens, and
    the matcher gives the same answer for them on every pressed set. *)
Theorem parse_hotkey_ignores_case (s s' : VoiceTypingAssistant) :
  PyStr.lower (hotkey_str (config s)) = PyStr.lower (hotkey_str (config s')) →
  pressed_keys s = pressed_keys s' →
  parse_hotkey (config s) = parse_hotkey (config s')
  ∧ (is_hotkey_pressed s).1 = (is_hotkey_pressed s').1.
Proof.
  intros Hl Hp.
  assert (Hlow : ∀ cfg, parse_hotkey cfg
                        = map PyStr.lower
                            (map PyStr.strip
                               (PyStr.split plus_sign (PyStr.lower (hotkey_str cfg))))).
  { intros cfg. unfold parse_hotkey. rewrite split_lower, !map_map.
    apply map_ext. intros p. by rewrite strip_lower, lower_idemp. }
  assert (He : parse_hotkey (config s) = parse_hotkey (config s')).
  { by rewrite (Hlow (config s)), (Hlow (config s')), Hl. }
  split; [exact He|].
  unfold is_hotkey_pressed. rewrite He, Hp.
  apply Bool.eq_true_iff_eq. by rewrite !check_parts_true.
Qed.

Lemma parse_hotkey_ignores_case_witness :
  let s := Sample.holding "Ctrl + ALT+0" {[ special Key_ctrl_r ]} in
  let s' := Sample.holding "ctrl + alt+0" {[ special Key_ctrl_r ]} in
  PyStr.lower (hotkey_str (config s)) = PyStr.lower (hotkey_str (config s'))
  ∧ pressed_keys s = pressed_keys s'
  ∧ parse_hotkey (config s) = parse_hotkey (config s')
  ∧ (is_hotkey_pressed s).1 = (is_hotkey_pressed s').1.
Proof.
  intros s s'.
  assert (H1 : PyStr.lower (hotkey_str (config s))
               = PyStr.lower (hotkey_str (config s'))) by (vm_compute; reflexivity).
  assert (H2 : pressed_keys s = pressed_keys s') by reflexivity.
  split; [exact H1|]. split; [exact H2|].
  exact (parse_hotkey_ignores_case s s' H1 H2).
Defined.

(** What [__init__] prints as the parsed hotkey parses back to the same
    tokens. *)
Theorem parsed_hotkey_display_round_trip (cfg : Config) :
  parse_hotkey (with_hotkey (parsed_hotkey_display cfg) cfg) = parse_hotkey cfg.
Proof.
  unfold parsed_hotkey_display.
  unfold parse_hotkey at 1. cbn [hotkey_str with_hotkey].
  rewrite (split_join plus_sign).
  - rewrite <- (map_id (parse_hotkey cfg)) at 2. apply map_ext_in.
    intros part Hin. apply list_elem_of_In in Hin.
    destruct (parse_hotkey_token_normal cfg part Hin) as (Hl & Hs & _).
    by rewrite Hs, Hl.
  - unfold parse_hotkey. intros E. apply map_eq_nil in E.
    by apply split_not_nil in E.
  - intros part Hin. by apply (parse_hotkey_token_normal cfg part).
Qed.

(** ** More on the matcher *)

Lemma token_holds_mono (pressed pressed' : gset key_id) (part : list N) :
  pressed ⊆ pressed' → token_holds pressed part → token_holds pressed' part.
Proof. intros Hs (key & Hin & Hsat). exists key. split; [by apply Hs|done]. Qed.

Lemma satisfies_valid (key : key_id) (part : list N) :
  satisfies key part → valid_token part.
Proof.
  intros [(k & _ & Hk) | [(k & _ & Hk) | (Hl & _)]].
  - left. by exists k.
  - right; left. by exists k.
  - by right; right.
Qed.

Lemma check_parts_match_quiet hotkey (pressed : gset key_id) (parts : list (list N)) :
  (check_parts hotkey pressed parts).1 = true →
  (check_parts hotkey pressed parts).2 = [].
Proof.
  induction parts as [|part rest IH]; [done|].
  cbn [check_parts].
  destruct (modifier_map !! part) as [ks|].
  { by destruct (any_pressed pressed ks). }
  destruct (special_key_map !! part) as [k|].
  { by case_bool_decide. }
  destruct (PyStr.len part =? 1)%nat; [|done].
  by destruct (char_pressed pressed part).
Qed.

(** Holding more keys never undoes a match. *)
Theorem match_is_monotone (s s' : VoiceTypingAssistant) :
  config s = config s' →
  pressed_keys s ⊆ pressed_keys s' →
  (is_hotkey_pressed s).1 = true →
  (is_hotkey_pressed s').1 = true.
Proof.
  intros Hc Hs. unfold is_hotkey_pressed. rewrite <- Hc, !check_parts_true.
  intros H part Hin. eapply token_holds_mono; [exact Hs|by apply H].
Qed.

Lemma match_is_monotone_witness :
  let s := Sample.holding "ctrl+alt+0"
             {[ special Key_ctrl_l; special Key_alt_l; Sample.kc "0" ]} in
  let s' := Sample.holding "ctrl+alt+0"
              {[ special Key_ctrl_l; special Key_alt_l; Sample.kc "0";
                 special Key_shift_l; Sample.kc "x" ]} in
  config s = config s'
  ∧ pressed_keys s ⊆ pressed_keys s'
  ∧ (is_hotkey_pressed s).1 = true
  ∧ (is_hotkey_pressed s').1 = true.
Proof.
  intros s s'.
  assert (H1 : config s = config s') by reflexivity.
  assert (H2 : pressed_keys s ⊆ pressed_keys s').
  { cbn. etrans; [|apply union_subseteq_l]. apply union_subseteq_l. }
  assert (H3 : (is_hotkey_pressed s).1 = true) by (vm_compute; reflexivity).
  split; [exact H1|]. split; [exact H2|]. split; [exact H3|].
  exact (match_is_monotone s s' H1 H2 H3).
Defined.

(** A call that answers true has met only valid tokens, has printed
    nothing, and has found at least one key pressed: with no key held no
    hotkey matches. *)
Theorem match_needs_keys (s : VoiceTypingAssistant) :
  (is_hotkey_pressed s).1 = true →
  (is_hotkey_pressed s).2 = []
  ∧ Forall valid_token (parse_hotkey (config s))
  ∧ pressed_keys s ≠ ∅.
Proof.
  intros Hm. split; [by apply check_parts_match_quiet|].
  pose proof (proj1 (check_parts_true _ _ _) Hm) as Hall. split.
  - apply Forall_forall. intros part Hin.
    destruct (Hall part Hin) as (key & _ & Hsat). by eapply satisfies_valid.
  - destruct (parse_hotkey (config s)) as [|part rest] eqn:E.
    { unfold parse_hotkey in E. apply map_eq_nil in E.
      by apply split_not_nil in E. }
    destruct (Hall part ltac:(by left)) as (key & Hin & _).
    intros Hempty. rewrite Hempty in Hin. by apply not_elem_of_empty in Hin.
Qed.

Lemma match_needs_keys_witness :
  let s := Sample.holding "shift+f5" {[ special Key_shift_r; special Key_f5 ]} in
  (is_hotkey_pressed s).1 = true
  ∧ (is_hotkey_pressed s).2 = []
  ∧ pressed_keys s ≠ ∅.
Proof.
  intros s.
  assert (H : (is_hotkey_pressed s).1 = true) by (vm_compute; reflexivity).
  split; [exact H|].
  destruct (match_needs_keys s H) as (H1 & _ & H3). split; [exact H1|exact H3].
Defined.

(** The order of the tokens does not matter to the answer. *)
Theorem match_order_independent (s s' : VoiceTypingAssistant) :
  parse_hotkey (config s) ≡ₚ parse_hotkey (config s') →
  pressed_keys s = pressed_keys s' →
  (is_hotkey_pressed s).1 = (is_hotkey_pressed s').1.
Proof.
  intros Hp He. unfold is_hotkey_pressed. rewrite He.
  apply Bool.eq_true_iff_eq. rewrite !check_parts_true.
  by setoid_rewrite Hp.
Qed.

Lemma match_order_independent_witness :
  let s := Sample.holding "ctrl+alt+0" {[ special Key_ctrl_l; Sample.kc "0" ]} in
  let s' := Sample.holding "0+ctrl+alt" {[ special Key_ctrl_l; Sample.kc "0" ]} in
  parse_hotkey (config s) ≡ₚ parse_hotkey (config s')
  ∧ pressed_keys s = pressed_keys s'
  ∧ (is_hotkey_pressed s).1 = (is_hotkey_pressed s').1.
Proof.
  intros s s'.
  assert (H1 : parse_hotkey (config s) ≡ₚ parse_hotkey (config s')).
  { assert (Hs : parse_hotkey (config s) = [py "ctrl"; py "alt"; py "0"])
      by (vm_compute; reflexivity).
    assert (Hs' : parse_hotkey (config s') = [py "0"; py "ctrl"; py "alt"])
      by (vm_compute; reflexivity).
    rewrite Hs, Hs'. symmetry.
    apply (Permutation_cons_append [py "ctrl"; py "alt"] (py "0")). }
  assert (H2 : pressed_keys s = pressed_keys s') by reflexivity.
  split; [exact H1|]. split; [exact H2|].
  exact (match_order_independent s s' H1 H2).
Defined.

(** ** The pressed set and the toggle along a run *)

Section Runs.
Variable whisper : list frame → option (list N).
Implicit Types (s : VoiceTypingAssistant) (i : input) (l : list input).

Lemma toggle_recording_pressed_keys s now (o : stream_outcome) :
  pressed_keys (toggle_recording s now o).1 = pressed_keys s.
Proof.
  unfold toggle_recording, stop_recording_and_transcribe.
  by destruct (is_recording s), o.
Qed.

Lemma step_pressed_keys s i :
  pressed_keys (step whisper s i).1
  = match i with
    | key_press k _ _ => {[ k ]} ∪ pressed_keys s
    | key_release k => pressed_keys s ∖ {[ k ]}
    | _ => pressed_keys s
    end.
Proof.
  destruct i as [key now o|key|f t|]; cbn [step].
  - unfold on_press.
    destruct (is_hotkey_pressed _).1; [|done].
    destruct (negb _); [|done].
    cbn [fst]. by rewrite toggle_recording_pressed_keys.
  - unfold on_release. by destruct (_ || _).
  - unfold audio_callback.
    destruct (is_recording s); [|done].
    destruct (is_silent _ _); [|done].
    cbn. destruct (has_detected_speech s); [|done].
    destruct (silence_start_time s); try done.
    by destruct (Qle_bool _ _).
  - unfold run_iteration.
    destruct (should_transcribe s); [|done].
    cbn. destruct (stream s); cbn; by destruct (audio_frames s).
Qed.

Lemma state_after_cons s i l :
  state_after whisper s (i :: l) = state_after whisper (step whisper s i).1 l.
Proof. reflexivity. Qed.

Lemma state_after_app s l1 l2 :
  state_after whisper s (l1 ++ l2)
  = state_after whisper (state_after whisper s l1) l2.
Proof.
  revert s. induction l1 as [|i l1 IH]; intros s; [done|].
  cbn [app]. by rewrite !state_after_cons, IH.
Qed.

End Runs.

(** The pressed set holds exactly the keys whose latest event is a press:
    after any inputs a key is in the set if it was pressed and not
    released since, or if it has had no event and was in the set before.
    Releasing a key that is not in the set changes nothing. *)
Theorem pressed_keys_tracks_events whisper (s : VoiceTypingAssistant)
    (l : list input) (key : key_id) :
  key ∈ pressed_keys (state_after whisper s l)
  ↔ match last_key_event l key with
    | Some b => b = true
    | None => key ∈ pressed_keys s
    end.
Proof.
  revert s. induction l as [|i l IH]; intros s; [done|].
  rewrite state_after_cons, IH. cbn [last_key_event].
  destruct (last_key_event l key) as [b|]; [done|].
  rewrite step_pressed_keys.
  destruct i as [k now o|k|f t|]; cbn [key_event_of]; try done.
  - rewrite elem_of_union, elem_of_singleton.
    destruct (decide (k = key)) as [->|Hk]; intuition congruence.
  - rewrite elem_of_difference, elem_of_singleton.
    destruct (decide (k = key)) as [->|Hk]; intuition congruence.
Qed.

Lemma step_toggles_le_1 whisper (s : VoiceTypingAssistant) (i : input) :
  (toggles (step whisper s i).2 ≤ 1)%nat.
Proof.
  destruct i as [key now o|key|f t|].
  - cbn [step]. rewrite on_press_toggles. by destruct (_ && _); lia.
  - rewrite step_toggles_not_press; [lia|]. intros ???; discriminate.
  - rewrite step_toggles_not_press; [lia|]. intros ???; discriminate.
  - rewrite step_toggles_not_press; [lia|]. intros ???; discriminate.
Qed.

(** Along any run, [toggle_recording] is invoked at most once more than a
    concrete ctrl key is released, and not even that once when the run
    starts with the edge armed. Holding the hotkey while the keyboard
    repeats its keys therefore toggles once. *)
Theorem toggles_bounded_by_ctrl_releases whisper (s : VoiceTypingAssistant)
    (l : list input) :
  (total_toggles (run_inputs whisper s l).2
   ≤ (if hotkey_pressed s then 0 else 1) + ctrl_releases l)%nat.
Proof.
  revert s. induction l as [|i l IH]; intros s.
  { cbn. lia. }
  change (total_toggles (run_inputs whisper s (i :: l)).2)
    with (toggles (step whisper s i).2
          + total_toggles (run_inputs whisper (step whisper s i).1 l).2)%nat.
  specialize (IH (step whisper s i).1).
  pose proof (step_toggles_le_1 whisper s i) as Hle.
  assert (Hcr : ctrl_releases (i :: l)
                = ((if decide (is_ctrl_release i) then 1 else 0)
                   + ctrl_releases l)%nat).
  { unfold ctrl_releases. rewrite filter_cons. by destruct (decide _). }
  rewrite Hcr.
  destruct (hotkey_pressed s) eqn:Hh.
  - destruct (step_armed whisper s i Hh) as [H0 Hkeep]. rewrite H0.
    destruct (decide (is_ctrl_release i)) as [Hc|Hc].
    + destruct (hotkey_pressed (step whisper s i).1); lia.
    + rewrite (Hkeep Hc) in IH. lia.
  - destruct (decide (toggles (step whisper s i).2 = 1%nat)) as [H1|H1].
    + rewrite (step_fires_armed whisper s i H1) in IH. lia.
    + destruct (hotkey_pressed (step whisper s i).1); lia.
Qed.

(** ** The audio buffer *)

Section Buffer.
Implicit Types (s : VoiceTypingAssistant) (f : frame) (t : Q).
Local Opaque scale_int16 is_silent.

Lemma audio_callback_frames s f t :
  audio_frames (audio_callback s f t).1
  = if is_recording s then audio_frames s ++ [f] else audio_frames s.
Proof.
  unfold audio_callback. destruct (is_recording s); [|done].
  cbn. destruct (is_silent _ _); [|done].
  destruct (has_detected_speech s); [|done].
  destruct (silence_start_time s); try done.
  by destruct (Qle_bool _ _).
Qed.

(** The callback clears [is_recording] only together with setting
    [should_transcribe]. *)
Lemma audio_callback_stop s f t :
  is_recording s = true →
  is_recording (audio_callback s f t).1 = negb (auto_stops s (f, t)).
Proof.
  intros Hr. unfold auto_stops, audio_callback. cbn [fst snd]. rewrite Hr.
  cbn. destruct (is_silent _ _); [|by cbn; rewrite Hr].
  destruct (has_detected_speech s); [|by cbn; rewrite Hr].
  destruct (silence_start_time s); try (by cbn; rewrite Hr).
  destruct (Qle_bool _ _); [done|by cbn; rewrite Hr].
Qed.

Lemma audio_callback_stream s f t :
  stream (audio_callback s f t).1 = stream s.
Proof.
  unfold audio_callback. destruct (is_recording s); [|done].
  cbn. destruct (is_silent _ _); [|done].
  destruct (has_detected_speech s); [|done].
  destruct (silence_start_time s); try done.
  by destruct (Qle_bool _ _).
Qed.

Lemma feed_stream s (blocks : list (frame * Q)) :
  stream (feed s blocks) = stream s.
Proof.
  revert s. induction blocks as [|ft blocks IH]; intros s; [done|].
  cbn [feed]. by rewrite IH, audio_callback_stream.
Qed.

Lemma feed_not_recording s (blocks : list (frame * Q)) :
  is_recording s = false → feed s blocks = s.
Proof.
  intros Hr. induction blocks as [|ft blocks IH]; [done|].
  cbn [feed]. unfold audio_callback. by rewrite Hr.
Qed.

Lemma feed_app s (l1 l2 : list (frame * Q)) :
  feed s (l1 ++ l2) = feed (feed s l1) l2.
Proof. revert s. induction l1 as [|ft l1 IH]; intros s; [done|]. apply IH. Qed.

End Buffer.

(** The buffer when the callback has ended the recording at block [n]. *)
Lemma feed_frames_at_stop (s : VoiceTypingAssistant)
    (blocks : list (frame * Q)) (n : nat) :
  is_recording s = true →
  first_transition s blocks = Some n →
  audio_frames (feed s blocks)
  = audio_frames s ++ map fst (take (S n) blocks).
Proof.
  revert s n. induction blocks as [|[f t] blocks IH]; intros s n Hr Hf; [done|].
  cbn [feed first_transition fst snd] in *.
  pose proof (audio_callback_stop s f t Hr) as Hstop.
  pose proof (audio_callback_frames s f t) as Hfr. rewrite Hr in Hfr.
  destruct (auto_stops s (f, t)).
  - injection Hf as <-. rewrite feed_not_recording by exact Hstop.
    rewrite Hfr.
    change (take 1 ((f, t) :: blocks)) with ((f, t) :: take 0 blocks).
    by rewrite take_0.
  - destruct (first_transition _ blocks) as [m|] eqn:E; [|discriminate].
    injection Hf as <-. rewrite (IH _ m Hstop E), Hfr, <- app_assoc. done.
Qed.

(** While a recording runs, every block is appended to the buffer once, in
    the order of arrival, up to and including the block whose callback
    ends the recording; the blocks after that one are dropped. *)
Theorem buffer_accumulates (s : VoiceTypingAssistant)
    (blocks : list (frame * Q)) :
  is_recording s = true →
  audio_frames (feed s blocks)
  = audio_frames s
    ++ map fst (match first_transition s blocks with
                | Some n => take (S n) blocks
                | None => blocks
                end).
Proof.
  revert s. induction blocks as [|[f t] blocks IH]; intros s Hr.
  { cbn. by rewrite app_nil_r. }
  cbn [feed first_transition fst snd].
  pose proof (audio_callback_stop s f t Hr) as Hstop.
  pose proof (audio_callback_frames s f t) as Hfr. rewrite Hr in Hfr.
  destruct (auto_stops s (f, t)).
  - rewrite feed_not_recording by exact Hstop.
    rewrite Hfr.
    change (take 1 ((f, t) :: blocks)) with ((f, t) :: take 0 blocks).
    by rewrite take_0.
  - rewrite (IH _ Hstop), Hfr, <- app_assoc.
    by destruct (first_transition (audio_callback s f t).1 blocks).
Qed.

Lemma buffer_accumulates_witness :
  let s := (start_recording (init (Sample.cfg "ctrl+alt+0")) 0 stream_opened).1 in
  let blocks := synthetic 1 1 6 (1#4) in
  is_recording s = true
  ∧ first_transition s blocks = Some 6%nat
  ∧ audio_frames (feed s blocks) = map fst (take 7 blocks).
Proof.
  intros s blocks.
  assert (Hr : is_recording s = true) by reflexivity.
  assert (Hf : first_transition s blocks = Some 6%nat) by (vm_compute; reflexivity).
  split; [exact Hr|]. split; [exact Hf|].
  pose proof (buffer_accumulates s blocks Hr) as H. rewrite Hf in H. exact H.
Defined.

(** ** The control loop *)

Lemma transcribe_and_type_calls whisper (s : VoiceTypingAssistant) audio :
  transcriptions_create audio ∈ transcribe_and_type whisper s →
  audio = audio_frames s ∧ audio_frames s ≠ [].
Proof.
  unfold transcribe_and_type. destruct (audio_frames s) as [|f l] eqn:E.
  - intros Hin. apply list_elem_of_singleton in Hin. discriminate.
  - intros Hin. apply elem_of_cons in Hin as [Hin|Hin].
    + by injection Hin as ->.
    + exfalso. destruct (whisper (f :: l)) as [transcript|].
      * case_bool_decide;
          repeat (apply elem_of_cons in Hin as [Hin|Hin]; [discriminate|]);
          by apply elem_of_nil in Hin.
      * apply list_elem_of_singleton in Hin. discriminate.
Qed.

Lemma transcribe_and_type_frames whisper (s s' : VoiceTypingAssistant) :
  audio_frames s = audio_frames s' →
  transcribe_and_type whisper s = transcribe_and_type whisper s'.
Proof. unfold transcribe_and_type. by intros ->. Qed.

Lemma run_iteration_state whisper (s : VoiceTypingAssistant) :
  (run_iteration whisper s).1
  = if should_transcribe s
    then match stream s with
         | Some _ => set_stream (Some false) (set_should_transcribe false s)
         | None => set_should_transcribe false s
         end
    else s.
Proof.
  unfold run_iteration. destruct (should_transcribe s); [|done].
  cbn. destruct (stream s); cbn; by destruct (audio_frames s).
Qed.

Lemma run_iteration_effects whisper (s : VoiceTypingAssistant) :
  (run_iteration whisper s).2
  = if should_transcribe s
    then match stream s with Some _ => [stream_stop_close] | None => [] end
         ++ match audio_frames s with
            | [] => []
            | _ :: _ => transcribe_and_type whisper s
            end
    else [].
Proof.
  unfold run_iteration. destruct (should_transcribe s); [|done].
  cbn. destruct (stream s); cbn; destruct (audio_frames s) eqn:E; try done;
    cbn; f_equal; apply transcribe_and_type_frames; by cbn.
Qed.

Lemma run_iteration_consumes_state whisper (s : VoiceTypingAssistant) :
  should_transcribe (run_iteration whisper s).1 = false
  ∧ audio_frames (run_iteration whisper s).1 = audio_frames s
  ∧ is_recording (run_iteration whisper s).1 = is_recording s.
Proof.
  rewrite run_iteration_state.
  destruct (should_transcribe s) eqn:Hs; [by destruct (stream s)|done].
Qed.

(** One iteration of the loop consumes the request to transcribe. The
    transcription service is called exactly when the request is set and
    the buffer is not empty, with the whole buffer; the buffer and the
    recording flag are left as they are; and an iteration right after does
    nothing. *)
Theorem run_iteration_consumes_request whisper (s : VoiceTypingAssistant) :
  should_transcribe (run_iteration whisper s).1 = false
  ∧ audio_frames (run_iteration whisper s).1 = audio_frames s
  ∧ is_recording (run_iteration whisper s).1 = is_recording s
  ∧ (transcribes (run_iteration whisper s).2
     ↔ should_transcribe s = true ∧ audio_frames s ≠ [])
  ∧ (∀ audio, transcriptions_create audio ∈ (run_iteration whisper s).2 →
              audio = audio_frames s)
  ∧ run_iteration whisper (run_iteration whisper s).1
    = ((run_iteration whisper s).1, []).
Proof.
  rewrite run_iteration_state, run_iteration_effects.
  destruct (should_transcribe s) eqn:Hs.
  - split; [by destruct (stream s)|]. split; [by destruct (stream s)|].
    split; [by destruct (stream s)|]. split; [|split].
    + split.
      * intros (audio & Hin). split; [done|].
        apply elem_of_app in Hin as [Hin|Hin].
        { destruct (stream s); [|by apply elem_of_nil in Hin].
          apply list_elem_of_singleton in Hin. discriminate. }
        destruct (audio_frames s); [by apply elem_of_nil in Hin|done].
      * intros [_ Hne]. exists (audio_frames s). apply elem_of_app. right.
        destruct (audio_frames s) as [|f l] eqn:E; [done|].
        unfold transcribe_and_type. rewrite E. by left.
    + intros audio Hin. apply elem_of_app in Hin as [Hin|Hin].
      { destruct (stream s); [|by apply elem_of_nil in Hin].
        apply list_elem_of_singleton in Hin. discriminate. }
      destruct (audio_frames s) eqn:E; [by apply elem_of_nil in Hin|].
      rewrite <- E. by apply transcribe_and_type_calls in Hin as [-> _].
    + unfold run_iteration. by destruct (stream s).
  - split; [done|]. split; [done|]. split; [done|]. split; [|split].
    + split; [|by intros [? _]]. intros (audio & Hin).
      by apply elem_of_nil in Hin.
    + intros audio Hin. by apply elem_of_nil in Hin.
    + unfold run_iteration. by rewrite Hs.
Qed.

Lemma first_transition_length (s : VoiceTypingAssistant)
    (blocks : list (frame * Q)) (n : nat) :
  first_transition s blocks = Some n → (n < length blocks)%nat.
Proof.
  revert s n. induction blocks as [|ft blocks IH]; intros s n H; [done|].
  cbn [first_transition] in H. destruct (auto_stops s ft).
  - injection H as <-. cbn. lia.
  - destruct (first_transition _ blocks) as [m|] eqn:E; [|discriminate].
    injection H as <-. apply IH in E. cbn. lia.
Qed.
(** From the hotkey to the typed text. A recording that the audio callback
    ends at block [n] leaves a request that the next loop iteration serves:
    it stops the stream that the assistant has, sends to the transcription
    service the blocks recorded from the start up to block [n], and types
    the cleaned transcript, or reports that there was no speech when
    nothing is left of it. *)
Theorem silence_stop_is_transcribed whisper (s : VoiceTypingAssistant)
    (now : Q) (o : stream_outcome) (blocks : list (frame * Q)) (n : nat)
    (transcript : list N) :
  stream (start_recording s now o).1 ≠ None →
  first_transition (start_recording s now o).1 blocks = Some n →
  whisper (map fst (take (S n) blocks)) = Some transcript →
  (run_iteration whisper (feed (start_recording s now o).1 blocks)).2
  = [stream_stop_close; transcriptions_create (map fst (take (S n) blocks))]
    ++ (if bool_decide (clean_transcript transcript = [])
        then [print msg_no_speech]
        else [print (msg_transcribed (clean_transcript transcript));
              type_text (clean_transcript transcript);
              print msg_text_typed]).
Proof.
  intros Hopen Hf Hw. set (s0 := (start_recording s now o).1) in *.
  assert (Hr : is_recording s0 = true) by (by destruct o).
  pose proof (feed_frames_at_stop s0 blocks n Hr Hf) as Hbuf.
  assert (H0 : audio_frames s0 = []) by (by destruct o).
  rewrite H0 in Hbuf. cbn [app] in Hbuf.
  destruct (first_transition_Some s0 blocks n Hf) as [_ Hready].
  assert (Hsplit : feed s0 blocks = feed s0 (take (S n) blocks)).
  { rewrite <- (take_drop (S n) blocks) at 1. rewrite feed_app.
    apply feed_not_recording. unfold session_state in Hready.
    by destruct (is_recording (feed s0 (take (S n) blocks))). }
  assert (Hst : should_transcribe (feed s0 blocks) = true).
  { rewrite Hsplit. unfold session_state in Hready.
    destruct (is_recording (feed s0 (take (S n) blocks))); [discriminate|].
    by destruct (should_transcribe (feed s0 (take (S n) blocks))). }
  rewrite run_iteration_effects, Hst, feed_stream.
  destruct (stream s0) as [running|]; [|done].
  pose proof (first_transition_length _ _ _ Hf) as Hlen.
  unfold transcribe_and_type. rewrite Hbuf.
  destruct (take (S n) blocks) as [|ft rest] eqn:E.
  { destruct blocks; [cbn in Hlen; lia|discriminate]. }
  cbn [map app]. cbn [map] in Hw. by rewrite Hw.
Qed.

Lemma silence_stop_is_transcribed_witness :
  let whisper : list frame → option (list N) := λ _, Some sample_transcript in
  let s := init (Sample.cfg "ctrl+alt+0") in
  let blocks := synthetic 1 2 6 (1#4) in
  stream (start_recording s 0 stream_opened).1 ≠ None
  ∧ first_transition (start_recording s 0 stream_opened).1 blocks = Some 7%nat
  ∧ (run_iteration whisper (feed (start_recording s 0 stream_opened).1 blocks)).2
    = [stream_stop_close; transcriptions_create (map fst (take 8 blocks));
       print (msg_transcribed (py "Hello world")); type_text (py "Hello world");
       print msg_text_typed].
Proof.
  intros whisper s blocks.
  assert (Ho : stream (start_recording s 0 stream_opened).1 ≠ None)
    by discriminate.
  assert (Hf : first_transition (start_recording s 0 stream_opened).1 blocks
               = Some 7%nat) by (vm_compute; reflexivity).
  split; [exact Ho|]. split; [exact Hf|].
  exact (silence_stop_is_transcribed whisper s 0 stream_opened blocks 7
           sample_transcript Ho Hf eq_refl).
Defined.

(** ** What the recording flags guarantee *)

Lemma state_after_invariant whisper (P : VoiceTypingAssistant → Prop)
    (ok : input → Prop) (s : VoiceTypingAssistant) (l : list input) :
  (∀ s i, P s → ok i → P (step whisper s i).1) →
  P s → Forall ok l → P (state_after whisper s l).
Proof.
  intros Hstep Hs Hl. revert s Hs.
  induction Hl as [|i l Hi _ IH]; intros s Hs; [done|].
  rewrite state_after_cons. apply IH. by apply Hstep.
Qed.

Lemma step_keeps_stream whisper (s : VoiceTypingAssistant) (i : input) :
  (is_recording s = true ∨ should_transcribe s = true → stream s ≠ None) →
  stream_constructed i →
  is_recording (step whisper s i).1 = true
  ∨ should_transcribe (step whisper s i).1 = true →
  stream (step whisper s i).1 ≠ None.
Proof.
  intros IH Hi. destruct i as [key now o|key|f t|]; cbn [step].
  - unfold on_press, toggle_recording, stop_recording_and_transcribe.
    destruct (is_hotkey_pressed _).1; [|exact IH].
    destruct (negb _); [|exact IH]. cbn [fst set_hotkey_pressed is_recording].
    destruct (is_recording s) eqn:Hr; destruct o; cbn; rewrite ?Hr; cbn;
      try (by destruct Hi); try done;
      (intros [|Hs]; [done|]); apply IH; by right.
  - unfold on_release. by destruct (_ || _).
  - rewrite audio_callback_stream. unfold audio_callback.
    destruct (is_recording s) eqn:Hr; [|cbn [fst]; by rewrite Hr].
    intros _. apply IH. by left.
  - rewrite run_iteration_state.
    destruct (should_transcribe s) eqn:Hs; [|by rewrite Hs].
    assert (Hst : stream s ≠ None) by (apply IH; by right).
    destruct (stream s); [done|]. by destruct Hst.
Qed.

(** Along a run in which the constructor of the input stream never raises,
    the assistant has an input stream whenever a recording runs or a
    request to transcribe is pending; so the loop iteration that serves a
    request stops and closes the stream before anything else. When the
    constructor raises on the first recording, the recording flag is set
    although the assistant has no stream. *)
Theorem request_has_stream whisper cfg (l : list input) :
  Forall stream_constructed l →
  let s := state_after whisper (init cfg) l in
  (is_recording s = true ∨ should_transcribe s = true → stream s ≠ None)
  ∧ (should_transcribe s = true →
     ∃ rest, (run_iteration whisper s).2 = stream_stop_close :: rest)
  ∧ ∀ now,
      is_recording (start_recording (init cfg) now constructor_raises).1 = true
      ∧ stream (start_recording (init cfg) now constructor_raises).1 = None.
Proof.
  intros Hl s.
  assert (Hinv : is_recording s = true ∨ should_transcribe s = true →
                 stream s ≠ None).
  { unfold s.
    apply (state_after_invariant whisper
             (λ s, is_recording s = true ∨ should_transcribe s = true →
                   stream s ≠ None) stream_constructed); [| |exact Hl].
    - intros s' i. apply step_keeps_stream.
    - by intros [|]. }
  split; [exact Hinv|]. split; [|done]. intros Hs.
  rewrite run_iteration_effects, Hs.
  destruct (stream s); [by eexists|]. by destruct Hinv; [right|].
Qed.

Lemma request_has_stream_witness :
  let whisper : list frame → option (list N) := λ _, None in
  let cfg := Sample.cfg "ctrl+alt+0" in
  let l := [ key_press (special Key_ctrl_l) 0%Q stream_opened;
             key_press (special Key_alt_l) 0%Q stream_opened;
             key_press (Sample.kc "0") 0%Q stream_opened;
             audio_block Sample_audio.loud 1%Q;
             audio_block Sample_audio.quiet 2%Q;
             audio_block Sample_audio.quiet 4%Q ] in
  Forall stream_constructed l
  ∧ should_transcribe (state_after whisper (init cfg) l) = true
  ∧ ∃ rest, (run_iteration whisper (state_after whisper (init cfg) l)).2
            = stream_stop_close :: rest.
Proof.
  intros whisper cfg l.
  assert (Hl : Forall stream_constructed l) by (repeat constructor).
  assert (Hs : should_transcribe (state_after whisper (init cfg) l) = true)
    by (vm_compute; reflexivity).
  split; [exact Hl|]. split; [exact Hs|].
  exact (proj1 (proj2 (request_has_stream whisper cfg l Hl)) Hs).
Defined.

(** The matcher prints nothing but warnings about unknown keys. *)
Lemma check_parts_only_warns hotkey (pressed : gset key_id)
    (parts : list (list N)) (e : effect) :
  e ∈ (check_parts hotkey pressed parts).2 →
  ∃ p h, e = print (msg_unknown_key p h).
Proof.
  induction parts as [|part rest IH]; intros He.
  { by apply elem_of_nil in He. }
  cbn [check_parts] in He.
  destruct (modifier_map !! part).
  { destruct (any_pressed _ _); [by apply IH|by apply elem_of_nil in He]. }
  destruct (special_key_map !! part).
  { case_bool_decide; [by apply IH|by apply elem_of_nil in He]. }
  destruct (PyStr.len part =? 1)%nat.
  { destruct (char_pressed _ _); [by apply IH|by apply elem_of_nil in He]. }
  apply list_elem_of_singleton in He as ->. by eexists _, _.
Qed.

(** Only the audio callback asks for a transcription: along a run without
    audio blocks that starts with no request pending, the transcription
    service is never called and no text is typed, whatever keys are
    pressed and however often the loop runs. *)
Theorem no_audio_no_transcription whisper (s : VoiceTypingAssistant)
    (l : list input) :
  should_transcribe s = false →
  (∀ i, i ∈ l → ¬ is_audio_block i) →
  should_transcribe (state_after whisper s l) = false
  ∧ ∀ out e, out ∈ (run_inputs whisper s l).2 → e ∈ out →
      (∀ audio, e ≠ transcriptions_create audio) ∧ (∀ text, e ≠ type_text text).
Proof.
  revert s. induction l as [|i l IH]; intros s Hs Hl.
  { split; [done|]. intros out e Hin. by apply elem_of_nil in Hin. }
  assert (Hstep : should_transcribe (step whisper s i).1 = false
                  ∧ ∀ e, e ∈ (step whisper s i).2 →
                      (∀ audio, e ≠ transcriptions_create audio)
                      ∧ (∀ text, e ≠ type_text text)).
  { destruct i as [key now o|key|f t|]; cbn [step].
    - unfold on_press. split.
      + destruct (is_hotkey_pressed _).1; [|done].
        destruct (negb _); [|done].
        unfold toggle_recording, stop_recording_and_transcribe.
        by destruct (negb _), o.
      + intros e He.
        pose proof (check_parts_only_warns
                      (hotkey_str (config s)) ({[ key ]} ∪ pressed_keys s)
                      (parse_hotkey (config s))) as Hw.
        change (check_parts _ _ _)
          with (is_hotkey_pressed
                  (set_pressed_keys ({[ key ]} ∪ pressed_keys s) s)) in Hw.
        destruct (is_hotkey_pressed _).1.
        * destruct (negb _).
          -- cbn [snd] in He. apply elem_of_app in He as [He|He].
             { destruct (Hw e He) as (p & h & ->). by split. }
             unfold toggle_recording, stop_recording_and_transcribe,
               start_recording, toggle_raises in He.
             destruct (negb (is_recording _)), o; cbn in He;
               repeat (apply elem_of_cons in He as [->|He]; [by split|]);
               by apply elem_of_nil in He.
          -- destruct (Hw e He) as (p & h & ->). by split.
        * destruct (Hw e He) as (p & h & ->). by split.
    - unfold on_release. split; [by destruct (_ || _)|].
      intros e He. destruct (_ || _); by apply elem_of_nil in He.
    - exfalso. apply (Hl (audio_block f t)); [by left|exact I].
    - unfold run_iteration. rewrite Hs. split; [done|].
      intros e He. by apply elem_of_nil in He. }
  destruct Hstep as [Hs' He'].
  destruct (IH (step whisper s i).1 Hs') as [H1 H2].
  { intros j Hj. apply Hl. by right. }
  split; [exact H1|].
  intros out e Hout He. cbn [run_inputs snd] in Hout.
  apply elem_of_cons in Hout as [->|Hout]; [by apply He'|].
  by apply (H2 out e).
Qed.

Lemma no_audio_no_transcription_witness :
  let whisper : list frame → option (list N) := λ _, Some (py "hello") in
  let s := init (Sample.cfg "ctrl+alt+0") in
  let l := [ key_press (special Key_ctrl_l) 0%Q stream_opened;
             key_press (special Key_alt_l) 0%Q stream_opened;
             key_press (Sample.kc "0") 0%Q stream_opened; loop_tick;
             key_release (special Key_ctrl_l);
             key_press (special Key_ctrl_l) 5%Q stream_opened; loop_tick ] in
  should_transcribe s = false
  ∧ (∀ i, i ∈ l → ¬ is_audio_block i)
  ∧ total_toggles (run_inputs whisper s l).2 = 2%nat
  ∧ should_transcribe (state_after whisper s l) = false.
Proof.
  intros whisper s l.
  assert (H1 : should_transcribe s = false) by reflexivity.
  assert (H2 : ∀ i, i ∈ l → ¬ is_audio_block i).
  { intros i Hi Ha. unfold l in Hi.
    repeat (apply elem_of_cons in Hi as [->|Hi]; [exact Ha|]).
    by apply elem_of_nil in Hi. }
  split; [exact H1|]. split; [exact H2|]. split; [vm_compute; reflexivity|].
  exact (proj1 (no_audio_no_transcription whisper s l H1 H2)).
Defined.
(** ** The cleaned transcript *)

(** The text that comes out of the cleaning has no white space at either
    end. It is empty exactly when the transcript, stripped of surrounding
    white space, consists of the characters '.', ',', ';' and ':' only (in
    particular when the transcript is empty or all white space): these are
    the transcripts for which "no speech" is reported. A stripped
    transcript that does not end in one of the four characters is typed as
    it is. *)
Theorem clean_transcript_shape (transcript : list N) :
  no_leading_space (clean_transcript transcript)
  ∧ no_trailing_space (clean_transcript transcript)
  ∧ (clean_transcript transcript = []
     ↔ Forall (λ c, c ∈ trailing_punctuation) (PyStr.strip transcript))
  ∧ (white transcript → clean_transcript transcript = [])
  ∧ ((∀ c, last (PyStr.strip transcript) = Some c →
           c ∉ trailing_punctuation) →
     clean_transcript transcript = PyStr.strip transcript).
Proof.
  rewrite clean_transcript_eq.
  set (A := PyStr.strip transcript).
  assert (HA : no_leading_space A ∧ no_trailing_space A) by apply strip_clean.
  destruct (rstrip_punct_spec A) as (dots & HAB & Hdots & Hlast).
  assert (HlB : no_leading_space (rstrip_punct A)).
  { intros c Hc. apply (proj1 HA). rewrite HAB.
    by destruct (rstrip_punct A). }
  assert (Hnil : PyStr.strip (rstrip_punct A) = []
                 ↔ Forall (λ c, c ∈ trailing_punctuation) A).
  { rewrite strip_nil. split.
    - intros Hw. destruct (rstrip_punct A) as [|c B] eqn:E.
      + by rewrite HAB.
      + apply Forall_cons in Hw as [Hw _]. by rewrite (HlB c eq_refl) in Hw.
    - intros Hall. unfold rstrip_punct.
      replace (drop_punct (rev A)) with (@nil N); [constructor|].
      symmetry. apply drop_punct_nil. by apply Forall_rev. }
  split; [apply strip_clean|]. split; [apply strip_clean|].
  split; [exact Hnil|]. split.
  - intros Hw. apply Hnil. unfold A.
    replace (PyStr.strip transcript) with (@nil N); [constructor|].
    symmetry. by apply strip_nil.
  - intros Hl. unfold rstrip_punct.
    rewrite drop_punct_fixed, rev_involutive; [apply strip_fixed; apply HA|].
    intros c Hc. apply Hl. by rewrite <- head_rev.
Qed.

(** ** More on the silence classification *)

(** Raising the threshold never turns a silent block into speech. *)
Theorem is_silent_threshold_monotone (cfg cfg' : Config) (audio_data : list Z) :
  (SILENCE_THRESHOLD cfg ≤ SILENCE_THRESHOLD cfg')%Z →
  is_silent cfg audio_data = true →
  is_silent cfg' audio_data = true.
Proof.
  intros Hle. unfold is_silent.
  destruct (np_mean (map np_abs audio_data)) as [m|]; [|done].
  rewrite !Qlt_bool_true. intros Hm.
  eapply Qlt_le_trans; [exact Hm|]. by rewrite <- Zle_Qle.
Qed.

Lemma is_silent_threshold_monotone_witness :
  let cfg := mkConfig 16000 0 300 1 (py "ctrl+alt+0") in
  let cfg' := mkConfig 16000 0 500 1 (py "ctrl+alt+0") in
  (SILENCE_THRESHOLD cfg ≤ SILENCE_THRESHOLD cfg')%Z
  ∧ is_silent cfg [200; -250; 100] = true
  ∧ is_silent cfg' [200; -250; 100] = true.
Proof.
  intros cfg cfg'.
  assert (H1 : (SILENCE_THRESHOLD cfg ≤ SILENCE_THRESHOLD cfg')%Z) by (cbn; lia).
  assert (H2 : is_silent cfg [200; -250; 100] = true) by reflexivity.
  split; [exact H1|]. split; [exact H2|].
  exact (is_silent_threshold_monotone cfg cfg' _ H1 H2).
Defined.

Lemma np_sum_abs_nonneg (l : list Z) : (0 ≤ np_sum (map Z.abs l))%Z.
Proof.
  unfold np_sum. induction l as [|x l IH]; cbn [map foldr]; lia.
Qed.

(** With a threshold of zero or less no block of samples in -32767..32767
    is silent, so the silence timeout cannot end a recording of such
    blocks. An empty block is never silent either, whatever the
    threshold. *)
Theorem is_silent_never (cfg : Config) (audio_data : list Z) :
  ((SILENCE_THRESHOLD cfg ≤ 0)%Z →
   Forall (λ x, (-32768 < x ≤ 32767)%Z) audio_data →
   is_silent cfg audio_data = false)
  ∧ is_silent cfg [] = false.
Proof.
  split; [|done]. intros Ht Hr.
  destruct audio_data as [|x l]; [done|].
  rewrite is_silent_in_range by done.
  apply not_true_is_false. rewrite Qlt_bool_true.
  unfold mean_abs_amplitude, Qlt. cbn [Qnum Qden inject_Z].
  pose proof (np_sum_abs_nonneg (x :: l)). nia.
Qed.

Lemma is_silent_never_witness :
  let cfg := mkConfig 16000 0 0 1 (py "ctrl+alt+0") in
  (SILENCE_THRESHOLD cfg ≤ 0)%Z
  ∧ Forall (λ x, (-32768 < x ≤ 32767)%Z) [0; 0; 0]
  ∧ is_silent cfg [0; 0; 0] = false.
Proof.
  intros cfg.
  assert (H1 : (SILENCE_THRESHOLD cfg ≤ 0)%Z) by (cbn; lia).
  assert (H2 : Forall (λ x, (-32768 < x ≤ 32767)%Z) [0; 0; 0])
    by (repeat constructor; lia).
  split; [exact H1|]. split; [exact H2|].
  exact (proj1 (is_silent_never cfg [0; 0; 0]) H1 H2).
Defined.

(** *** Scaling to 16 bits *)

Lemma truncate_bounds (x : Q) (n : Z) :
  (0 < n)%Z → (- inject_Z n < x)%Q → (x < inject_Z n)%Q →
  (- n < truncate x < n)%Z.
Proof.
  intros Hn Hlo Hhi. unfold truncate, Qlt in *. destruct x as [p q].
  cbn [Qnum Qden inject_Z Qopp] in *.
  assert (Hq : 0 < Z.pos q) by lia.
  destruct (Z.le_gt_cases 0 p) as [Hp|Hp].
  - rewrite Z.quot_div_nonneg by lia.
    split; [pose proof (Z.div_pos p (Z.pos q) Hp Hq); lia|].
    apply Z.div_lt_upper_bound; lia.
  - rewrite <- (Z.opp_involutive p), Z.quot_opp_l by lia.
    rewrite Z.quot_div_nonneg by lia.
    split; [|pose proof (Z.div_pos (- p) (Z.pos q) ltac:(lia) Hq); lia].
    assert (- p / Z.pos q < n); [|lia].
    apply Z.div_lt_upper_bound; lia.
Qed.

(** A sample strictly between -1 and 1 scales without wrapping: the 16-bit
    value is the truncation toward zero of 32768 times the sample, and it
    lies in -32767..32767. *)
Lemma astype_int16_in_range (x : Q) :
  (-1 < x)%Q → (x < 1)%Q →
  astype_int16 (x * 32768)%Q = truncate (x * 32768)%Q
  ∧ (-32768 < truncate (x * 32768)%Q ≤ 32767)%Z.
Proof.
  intros Hlo Hhi.
  assert (Hb : (- (32768) < truncate (x * 32768)%Q < 32768)%Z).
  { apply (truncate_bounds (x * 32768)%Q 32768); [lia| |].
    - change (- inject_Z 32768)%Q with ((-1) * 32768)%Q.
      apply Qmult_lt_compat_r; [reflexivity|exact Hlo].
    - change (inject_Z 32768) with (1 * 32768)%Q.
      apply Qmult_lt_compat_r; [reflexivity|exact Hhi]. }
  split; [|lia].
  unfold astype_int16. fold (truncate (x * 32768)%Q). unfold wrap_int16.
  rewrite Z.mod_small by lia. lia.
Qed.

(** For an unclipped, non-empty block (every sample strictly between -1
    and 1) the audio callback's classification is the strict comparison of
    the mean absolute amplitude of the truncated 16-bit samples with the
    threshold. *)
Theorem frame_silent_unclipped (cfg : Config) (indata : frame) :
  indata ≠ [] →
  Forall (λ x, (-1 < x)%Q ∧ (x < 1)%Q) indata →
  scale_int16 indata = map (λ x, truncate (x * 32768)%Q) indata
  ∧ (frame_silent cfg indata = true
     ↔ (mean_abs_amplitude (map (λ x, truncate (x * 32768)%Q) indata)
        < inject_Z (SILENCE_THRESHOLD cfg))%Q).
Proof.
  intros Hne Hr.
  assert (Hs : scale_int16 indata = map (λ x, truncate (x * 32768)%Q) indata).
  { unfold scale_int16. apply map_ext_in. intros x Hx.
    apply list_elem_of_In in Hx.
    destruct (proj1 (Forall_forall _ _) Hr x Hx) as [Hlo Hhi].
    by destruct (astype_int16_in_range x Hlo Hhi). }
  split; [exact Hs|]. unfold frame_silent. rewrite Hs.
  apply is_silent_strict.
  - by destruct indata.
  - apply Forall_map. eapply Forall_impl; [exact Hr|].
    intros x [Hlo Hhi]. by destruct (astype_int16_in_range x Hlo Hhi).
Qed.

Lemma frame_silent_unclipped_witness :
  let cfg := Sample.cfg "ctrl+alt+0" in
  let indata : frame := [(1#100)%Q; (-1#50)%Q; (499#32768)%Q] in
  indata ≠ []
  ∧ Forall (λ x, (-1 < x)%Q ∧ (x < 1)%Q) indata
  ∧ scale_int16 indata = [327; -655; 499]
  ∧ frame_silent cfg indata = true.
Proof.
  intros cfg indata.
  assert (H1 : indata ≠ []) by discriminate.
  assert (H2 : Forall (λ x, (-1 < x)%Q ∧ (x < 1)%Q) indata).
  { repeat constructor. }
  split; [exact H1|]. split; [exact H2|].
  destruct (frame_silent_unclipped cfg indata H1 H2) as [Hs Hiff].
  split; [exact Hs|]. apply Hiff. reflexivity.
Defined.

(** ** Typing the text *)

Section Typing.
Implicit Types (ops : list kbd_op) (fails : list bool) (log : list kbd_event).

Lemma keys_down_app log1 log2 (down : gset key_id) :
  keys_down (log1 ++ log2) down = keys_down log2 (keys_down log1 down).
Proof.
  revert down. induction log1 as [|e log1 IH]; intros down; [done|].
  destruct e as [[]|]; cbn; apply IH.
Qed.

Lemma chars_sent_app log1 log2 :
  chars_sent (log1 ++ log2) = chars_sent log1 ++ chars_sent log2.
Proof.
  induction log1 as [|e log1 IH]; [done|].
  destruct e as [op|op]; [|exact IH].
  destruct op as [d|t|key|key|c|m]; try exact IH; [|by cbn; rewrite IH].
  destruct key as [k|[str|v]]; try exact IH.
  destruct str as [|c [|c' str]]; try exact IH. by cbn; rewrite IH.
Qed.

(** A block logs its own operations, in order, each at most once. *)
Lemma perform_events ops fails :
  Forall (λ e, event_op e ∈ ops) (perform ops fails).1.1.
Proof.
  revert fails. induction ops as [|op ops IH]; intros fails; [constructor|].
  assert (Hrest : ∀ f, Forall (λ e, event_op e ∈ op :: ops) (perform ops f).1.1).
  { intros f. eapply Forall_impl; [apply IH|]. intros e He. by right. }
  cbn [perform]. destruct (may_raise op).
  - destruct fails as [|[] fails]; cbn.
    + constructor; [by left|apply Hrest].
    + constructor; [by left|constructor].
    + constructor; [by left|apply Hrest].
  - cbn. constructor; [by left|apply Hrest].
Qed.

(** A block whose calls all return runs to its end and logs every
    operation as returned. *)
Lemma perform_no_raise ops fails :
  Forall (λ b, b = false) fails →
  (perform ops fails).1.1 = map returned ops
  ∧ Forall (λ b, b = false) (perform ops fails).1.2
  ∧ (perform ops fails).2 = true.
Proof.
  revert fails. induction ops as [|op ops IH]; intros fails Hf; [done|].
  cbn [perform]. destruct (may_raise op).
  - destruct fails as [|b fails].
    + destruct (IH [] Hf) as (H1 & H2 & H3). cbn. by rewrite H1.
    + apply Forall_cons in Hf as [-> Hf].
      destruct (IH fails Hf) as (H1 & H2 & H3). cbn. by rewrite H1.
  - destruct (IH fails Hf) as (H1 & H2 & H3). cbn. by rewrite H1.
Qed.

Lemma type_chars_events (text : list N) prev fails :
  Forall (λ e, char_op (event_op e)) (type_chars text prev fails).1.
Proof.
  revert prev fails. induction text as [|c text IH]; intros prev fails;
    [constructor|].
  cbn [type_chars].
  set (b1 := [op_press (char_key c); op_sleep (1#100); op_release (char_key c);
              op_sleep (char_delay prev c)]).
  set (b2 := [op_type c; op_sleep (char_delay prev c)]).
  assert (H1 : ∀ f, Forall (λ e, char_op (event_op e)) (perform b1 f).1.1).
  { intros f. eapply Forall_impl; [apply perform_events|].
    intros e He. unfold b1 in He.
    repeat (apply elem_of_cons in He as [->|He]; [cbn; eauto|]).
    by apply elem_of_nil in He. }
  assert (H2 : ∀ f, Forall (λ e, char_op (event_op e)) (perform b2 f).1.1).
  { intros f. eapply Forall_impl; [apply perform_events|].
    intros e He. unfold b2 in He.
    repeat (apply elem_of_cons in He as [->|He]; [cbn; eauto|]).
    by apply elem_of_nil in He. }
  destruct (perform b1 fails).2.
  - cbn [fst]. apply Forall_app. split; [apply H1|apply IH].
  - destruct (perform b2 _).2; cbn [fst].
    + apply Forall_app. split; [apply H1|].
      apply Forall_app. split; [apply H2|apply IH].
    + apply Forall_app. split; [apply H1|apply H2].
Qed.

(** Operations on character keys leave the special keys as they are. *)
Lemma keys_down_char_ops log (down : gset key_id) (k : Key) :
  Forall (λ e, char_op (event_op e)) log →
  special k ∈ keys_down log down ↔ special k ∈ down.
Proof.
  intros Hl. revert down. induction Hl as [|e log He _ IH]; intros down; [done|].
  destruct e as [[s|t|key|key|c|m]|op]; cbn [keys_down]; rewrite ?IH; try done.
  - destruct He as [c ->]. rewrite elem_of_union, elem_of_singleton.
    unfold char_key. intuition congruence.
  - destruct He as [c ->]. rewrite elem_of_difference, elem_of_singleton.
    unfold char_key. intuition congruence.
Qed.

End Typing.

Lemma type_chars_no_raise (text : list N) (prev : option N)
    (fails : list bool) :
  Forall (λ b, b = false) fails →
  (type_chars text prev fails).2 = true
  ∧ chars_sent (type_chars text prev fails).1 = text
  ∧ Forall (λ e, ∃ op, e = returned op) (type_chars text prev fails).1
  ∧ ∀ down : gset key_id, keys_down (type_chars text prev fails).1 down ⊆ down.
Proof.
  revert prev fails. induction text as [|c text IH]; intros prev fails Hf.
  { split; [done|]. split; [done|]. split; [constructor|done]. }
  cbn [type_chars].
  destruct (perform_no_raise
              [op_press (char_key c); op_sleep (1#100); op_release (char_key c);
               op_sleep (char_delay prev c)] fails Hf) as (H1 & H2 & H3).
  rewrite H3, H1. cbn [fst snd].
  destruct (IH (Some c) _ H2) as (I1 & I2 & I3 & I4).
  split; [exact I1|]. split; [|split].
  - rewrite chars_sent_app, I2. reflexivity.
  - cbn [map app]. repeat (constructor; [by eexists|]). exact I3.
  - intros down. cbn [map app keys_down]. etrans; [apply I4|].
    intros k Hk. apply elem_of_difference in Hk as [Hk Hne].
    apply elem_of_union in Hk as [Hk|Hk]; [contradiction|exact Hk].
Qed.

(** When the clipboard paste raises and nothing raises after that, the
    fallback sends the characters of the text through the keyboard, each
    once and in order, releases every key it presses, and reports no
    failure. *)
Theorem fallback_spells_text (text : list N) (fails : list bool) :
  (perform (paste_ops text) fails).2 = false →
  Forall (λ b, b = false) (perform (paste_ops text) fails).1.2 →
  ∃ fallback,
    type_text_ops text fails
    = (perform (paste_ops text) fails).1.1
      ++ [returned (op_print msg_paste_error); returned (op_print msg_traceback);
          returned (op_print msg_falling_back)]
      ++ fallback
    ∧ chars_sent fallback = text
    ∧ Forall (λ e, ∃ op, e = returned op) fallback
    ∧ ∀ down : gset key_id, keys_down fallback down ⊆ down.
Proof.
  intros Hfail Hrest. unfold type_text_ops. rewrite Hfail.
  destruct (type_chars_no_raise text None _ Hrest) as (H1 & H2 & H3 & H4).
  exists (type_chars text None (perform (paste_ops text) fails).1.2).1.
  rewrite H1, app_nil_r. done.
Qed.

Lemma fallback_spells_text_witness :
  let fails := [true] in
  let text := py "h" ++ [233; 8364; 128512]%N in
  (perform (paste_ops text) fails).2 = false
  ∧ Forall (λ b, b = false) (perform (paste_ops text) fails).1.2
  ∧ chars_sent (type_text_ops text fails) = text.
Proof.
  intros fails text.
  assert (H1 : (perform (paste_ops text) fails).2 = false) by reflexivity.
  assert (H2 : Forall (λ b, b = false) (perform (paste_ops text) fails).1.2)
    by constructor.
  split; [exact H1|]. split; [exact H2|].
  destruct (fallback_spells_text text fails H1 H2) as (fb & He & Hc & _).
  rewrite He, !chars_sent_app, Hc. reflexivity.
Defined.

(** When nothing in the paste block raises, [type_text] copies the text
    to the clipboard, sends one ctrl+v chord and leaves no key down; the
    fallback is not entered. *)
Theorem paste_when_nothing_raises (text : list N) (fails : list bool) :
  Forall (λ b, b = false) (take 5 fails) →
  type_text_ops text fails = map returned (paste_ops text)
  ∧ keys_down (type_text_ops text fails) ∅ = ∅
  ∧ chars_sent (type_text_ops text fails) = py "v".
Proof.
  intros Hf.
  assert (He : type_text_ops text fails = map returned (paste_ops text)).
  { unfold type_text_ops.
    do 5 (destruct fails as [|? fails];
          [reflexivity|apply Forall_cons in Hf as [-> Hf]]).
    reflexivity. }
  rewrite He. split; [done|]. split; [|reflexivity].
  cbn [paste_ops map keys_down]. apply set_eq. intros key.
  rewrite !elem_of_difference, !elem_of_union, !elem_of_singleton.
  split; [|by intros ?%not_elem_of_empty]. intuition congruence.
Qed.

Lemma paste_when_nothing_raises_witness :
  Forall (λ b, b = false) (take 5 [false; false; false; false; false; true])
  ∧ type_text_ops (py "hi") [false; false; false; false; false; true]
    = map returned (paste_ops (py "hi")).
Proof.
  assert (H : Forall (λ b, b = false)
                (take 5 [false; false; false; false; false; true])).
  { repeat constructor. }
  split; [exact H|].
  exact (proj1 (paste_when_nothing_raises (py "hi") _ H)).
Defined.

(** When the clipboard copy and the press of ctrl have returned and a later
    call of the paste block raises, ctrl is never released: it is still
    down when the fallback types the characters and when [type_text]
    returns. *)
Theorem ctrl_left_down (text : list N) (fails : list bool) :
  (perform (paste_ops text) (false :: false :: fails)).2 = false →
  special Key_ctrl_l
  ∈ keys_down (type_text_ops text (false :: false :: fails)) ∅.
Proof.
  intros Hfail. unfold type_text_ops. rewrite Hfail.
  rewrite !keys_down_app.
  set (fb := (type_chars _ _ _).1).
  assert (Hfb : Forall (λ e, char_op (event_op e)) fb)
    by apply type_chars_events.
  assert (Hpaste : special Key_ctrl_l
                   ∈ keys_down (perform (paste_ops text)
                                  (false :: false :: fails)).1.1 ∅).
  { destruct fails as [|[] fails]; [discriminate| |].
    { cbn. apply elem_of_union. left. by apply elem_of_singleton. }
    destruct fails as [|[] fails]; [discriminate| |].
    { cbn. apply elem_of_union. right. apply elem_of_union. left.
      by apply elem_of_singleton. }
    destruct fails as [|[] fails]; [discriminate| |discriminate].
    cbn. apply elem_of_difference. split; [|by intros ?%elem_of_singleton].
    apply elem_of_union. right. apply elem_of_union. left.
    by apply elem_of_singleton. }
  destruct (type_chars _ _ _).2; cbn [keys_down];
    by rewrite (keys_down_char_ops fb _ _ Hfb).
Qed.

Lemma ctrl_left_down_witness :
  (perform (paste_ops (py "ok")) [false; false; true]).2 = false
  ∧ special Key_ctrl_l
    ∈ keys_down (type_text_ops (py "ok") [false; false; true]) ∅
  ∧ chars_sent (type_text_ops (py "ok") [false; false; true]) = py "ok".
Proof.
  assert (H : (perform (paste_ops (py "ok")) [false; false; true]).2 = false)
    by reflexivity.
  split; [exact H|].
  split; [exact (ctrl_left_down (py "ok") [true] H)|reflexivity].
Defined.
(** ** The hotkey and the recording *)

(** A press that completes the hotkey while the edge is not armed arms the
    edge and flips the recording. From idle it starts a recording with an
    empty buffer and the silence detection reset, and opens a new stream;
    when opening the stream raises, the recording flag is set all the
    same, no stream is started, and the key press error is printed: if the
    constructor raised the assistant keeps the stream it had, if any.
    During a recording the press stops the recording, keeping the buffer,
    the stream and the request flag as they are. The call prints no
    warning. *)
Theorem hotkey_press_flips_recording (s : VoiceTypingAssistant)
    (key : key_id) (now : Q) (o : stream_outcome) :
  (is_hotkey_pressed (set_pressed_keys ({[ key ]} ∪ pressed_keys s) s)).1 = true →
  hotkey_pressed s = false →
  hotkey_pressed (on_press s key now o).1 = true
  ∧ is_recording (on_press s key now o).1 = negb (is_recording s)
  ∧ should_transcribe (on_press s key now o).1 = should_transcribe s
  ∧ (is_recording s = false →
     audio_frames (on_press s key now o).1 = []
     ∧ has_detected_speech (on_press s key now o).1 = false
     ∧ silence_start_time (on_press s key now o).1 = attr_None
     ∧ recording_start_time (on_press s key now o).1 = Some now
     ∧ match o with
       | stream_opened =>
           stream (on_press s key now o).1 = Some true
           ∧ (on_press s key now o).2
             = [call_toggle_recording; print msg_recording_started;
                stream_start]
       | constructor_raises =>
           stream (on_press s key now o).1 = stream s
           ∧ (on_press s key now o).2
             = [call_toggle_recording; print msg_recording_started;
                print msg_key_press_error]
       | start_raises =>
           stream (on_press s key now o).1 = Some false
           ∧ (on_press s key now o).2
             = [call_toggle_recording; print msg_recording_started;
                print msg_key_press_error]
       end)
  ∧ (is_recording s = true →
     audio_frames (on_press s key now o).1 = audio_frames s
     ∧ stream (on_press s key now o).1 = stream s
     ∧ (on_press s key now o).2
       = [call_toggle_recording; print msg_recording_stopped]).
Proof.
  intros Hm Hh. unfold on_press.
  pose proof (check_parts_match_quiet _ _ _ Hm) as Hq.
  fold (is_hotkey_pressed (set_pressed_keys ({[ key ]} ∪ pressed_keys s) s)) in Hq.
  rewrite Hm, Hq. cbn [hotkey_pressed set_pressed_keys]. rewrite Hh.
  cbn [negb fst snd app].
  unfold toggle_recording, toggle_raises, stop_recording_and_transcribe.
  cbn [is_recording set_hotkey_pressed set_pressed_keys].
  destruct (is_recording s), o; cbn; repeat split; done.
Qed.

Lemma hotkey_press_flips_recording_witness :
  let s := Sample.holding "ctrl+alt+0"
             {[ special Key_ctrl_l; special Key_alt_r ]} in
  (is_hotkey_pressed
     (set_pressed_keys ({[ Sample.kc "0" ]} ∪ pressed_keys s) s)).1 = true
  ∧ hotkey_pressed s = false
  ∧ is_recording (on_press s (Sample.kc "0") 3 constructor_raises).1 = true.
Proof.
  intros s.
  assert (H1 : (is_hotkey_pressed
                  (set_pressed_keys ({[ Sample.kc "0" ]} ∪ pressed_keys s) s)).1
               = true) by (vm_compute; reflexivity).
  assert (H2 : hotkey_pressed s = false) by reflexivity.
  split; [exact H1|]. split; [exact H2|].
  destruct (hotkey_press_flips_recording s (Sample.kc "0") 3
              constructor_raises H1 H2) as (_ & H & _).
  exact H.
Defined.

Section Restart.
Implicit Types (s : VoiceTypingAssistant) (blocks : list (frame * Q)).
Local Opaque scale_int16 is_silent.

Lemma audio_callback_keeps_request s f t :
  should_transcribe s = true →
  should_transcribe (audio_callback s f t).1 = true.
Proof.
  intros Hs. unfold audio_callback. destruct (is_recording s); [|done].
  cbn. destruct (is_silent _ _); [|done].
  destruct (has_detected_speech s); [|done].
  destruct (silence_start_time s); try done.
  by destruct (Qle_bool _ _).
Qed.

Lemma feed_keeps_request s blocks :
  should_transcribe s = true → should_transcribe (feed s blocks) = true.
Proof.
  revert s. induction blocks as [|ft blocks IH]; intros s Hs; [done|].
  cbn [feed]. by apply IH, audio_callback_keeps_request.
Qed.

(** The buffer after some blocks: the buffer before, then the blocks up
    to some position, which is not the first when a recording runs. *)
Lemma feed_frames_take s blocks :
  ∃ n, audio_frames (feed s blocks) = audio_frames s ++ map fst (take n blocks)
       ∧ (is_recording s = true → blocks ≠ [] → (0 < n)%nat).
Proof.
  revert s. induction blocks as [|[f t] blocks IH]; intros s.
  { exists 0%nat. split; [by rewrite app_nil_r|done]. }
  cbn [feed fst snd]. destruct (IH (audio_callback s f t).1) as (n & Hn & _).
  rewrite audio_callback_frames in Hn. destruct (is_recording s) eqn:Hr.
  - exists (S n). split; [|lia]. by rewrite Hn, <- app_assoc.
  - exists 0%nat. split; [|done]. rewrite take_0, app_nil_r.
    assert (Hc : (audio_callback s f t).1 = s).
    { unfold audio_callback. by rewrite Hr. }
    rewrite Hc. by rewrite feed_not_recording.
Qed.

Lemma feed_keeps_recording s blocks :
  is_recording s = true → first_transition s blocks = None →
  is_recording (feed s blocks) = true.
Proof.
  revert s. induction blocks as [|[f t] blocks IH]; intros s Hr Hf; [done|].
  cbn [feed first_transition fst snd] in *.
  pose proof (audio_callback_stop s f t Hr) as Hstop.
  destruct (auto_stops s (f, t)); [discriminate|].
  apply IH; [exact Hstop|].
  by destruct (first_transition (audio_callback s f t).1 blocks).
Qed.

End Restart.

(** A recording restarted before the loop has served the pending request
    loses the finished recording: the new recording empties the buffer and
    the request stays pending, through the audio blocks that arrive before
    the loop runs. The loop iteration that then runs serves the stale
    request against the new recording: it stops and closes the stream that
    the assistant has, which is the stream of the new recording when it
    was opened, and it sends to the transcription service the blocks of
    the new recording buffered so far, exactly when there are any; it
    clears the request and leaves the recording flag as it is, so that a
    new recording that has not ended goes on without a running stream. *)
Theorem restart_before_loop_iteration whisper (s : VoiceTypingAssistant)
    (now : Q) (o : stream_outcome) (blocks : list (frame * Q)) :
  is_recording s = false →
  should_transcribe s = true →
  let s1 := (toggle_recording s now o).1 in
  let s2 := feed s1 blocks in
  let r := run_iteration whisper s2 in
  is_recording s1 = true ∧ audio_frames s1 = []
  ∧ (∃ n, audio_frames s2 = map fst (take n blocks))
  ∧ (transcribes r.2 ↔ blocks ≠ [])
  ∧ (∀ audio, transcriptions_create audio ∈ r.2 → audio = audio_frames s2)
  ∧ (blocks = [] →
     r.2 = match stream s1 with Some _ => [stream_stop_close] | None => [] end)
  ∧ (o = stream_opened →
     stream s1 = Some true ∧ stream r.1 = Some false
     ∧ ∃ rest, r.2 = stream_stop_close :: rest)
  ∧ should_transcribe r.1 = false
  ∧ is_recording r.1 = is_recording s2
  ∧ (first_transition s1 blocks = None → is_recording r.1 = true).
Proof.
  intros Hr Hs s1 s2 r.
  assert (Hr1 : is_recording s1 = true).
  { unfold s1, toggle_recording. rewrite Hr. by destruct o. }
  assert (Hf1 : audio_frames s1 = []).
  { unfold s1, toggle_recording. rewrite Hr. by destruct o. }
  assert (Hs1 : should_transcribe s1 = true).
  { unfold s1, toggle_recording. rewrite Hr. by destruct o. }
  assert (Hs2 : should_transcribe s2 = true) by by apply feed_keeps_request.
  destruct (feed_frames_take s1 blocks) as (n & Hn & Hpos).
  rewrite Hf1 in Hn. cbn [app] in Hn. fold s2 in Hn.
  destruct (run_iteration_consumes_state whisper s2) as (R1 & R2 & R3).
  pose proof (run_iteration_effects whisper s2) as He. rewrite Hs2 in He.
  fold r in R1, R2, R3, He.
  split; [exact Hr1|]. split; [exact Hf1|]. split; [by exists n|].
  split; [|split; [|split; [|split; [|split; [|split]]]]].
  - rewrite He. split.
    + intros (audio & Hin) Hb.
      assert (E : audio_frames s2 = []) by (unfold s2; by rewrite Hb).
      rewrite E in Hin.
      apply elem_of_app in Hin as [Hin|Hin]; [|by apply elem_of_nil in Hin].
      destruct (stream s2); [|by apply elem_of_nil in Hin].
      apply list_elem_of_singleton in Hin. discriminate.
    + intros Hne. specialize (Hpos Hr1 Hne).
      exists (audio_frames s2). apply elem_of_app. right.
      destruct (audio_frames s2) as [|f l] eqn:E.
      * destruct blocks as [|ft blocks]; [done|].
        destruct n; [lia|discriminate].
      * rewrite <- E. unfold transcribe_and_type. rewrite E. by left.
  - intros audio Hin. rewrite He in Hin.
    apply elem_of_app in Hin as [Hin|Hin].
    { destruct (stream s2); [|by apply elem_of_nil in Hin].
      apply list_elem_of_singleton in Hin. discriminate. }
    destruct (audio_frames s2) eqn:E; [by apply elem_of_nil in Hin|].
    rewrite <- E. by apply transcribe_and_type_calls in Hin as [-> _].
  - intros Hb. rewrite He.
    assert (E : audio_frames s2 = []) by (unfold s2; by rewrite Hb).
    rewrite E, app_nil_r. unfold s2. by rewrite feed_stream.
  - intros ->.
    assert (Hst : stream s1 = Some true).
    { unfold s1, toggle_recording. by rewrite Hr. }
    assert (Hst2 : stream s2 = Some true) by (unfold s2; by rewrite feed_stream).
    split; [exact Hst|]. split.
    + unfold r. rewrite run_iteration_state, Hs2, Hst2. done.
    + rewrite He, Hst2. by eexists.
  - exact R1.
  - exact R3.
  - intros Hnone. rewrite R3. by apply feed_keeps_recording.
Qed.

Lemma restart_before_loop_iteration_witness :
  let whisper : list frame → option (list N) := λ _, Some (py "lost") in
  let s := state_after whisper (init (Sample.cfg "ctrl+alt+0"))
             [ key_press (special Key_ctrl_l) 0%Q stream_opened;
               key_press (special Key_alt_l) 0%Q stream_opened;
               key_press (Sample.kc "0") 0%Q stream_opened;
               audio_block Sample_audio.loud 1%Q;
               audio_block Sample_audio.quiet 2%Q;
               audio_block Sample_audio.quiet 4%Q ] in
  let blocks := [(Sample_audio.quiet, 5%Q)] in
  is_recording s = false
  ∧ should_transcribe s = true
  ∧ audio_frames s = [Sample_audio.loud; Sample_audio.quiet; Sample_audio.quiet]
  ∧ transcribes
      (run_iteration whisper
         (feed (toggle_recording s 5 stream_opened).1 blocks)).2
  ∧ ∀ audio,
      transcriptions_create audio
      ∈ (run_iteration whisper
           (feed (toggle_recording s 5 stream_opened).1 blocks)).2 →
      audio = audio_frames (feed (toggle_recording s 5 stream_opened).1 blocks).
Proof.
  intros whisper s blocks.
  assert (H1 : is_recording s = false) by (vm_compute; reflexivity).
  assert (H2 : should_transcribe s = true) by (vm_compute; reflexivity).
  split; [exact H1|]. split; [exact H2|].
  split; [vm_compute; reflexivity|].
  destruct (restart_before_loop_iteration whisper s 5 stream_opened blocks
              H1 H2) as (_ & _ & _ & Ht & Ha & _).
  split; [|exact Ha]. apply (proj2 Ht). discriminate.
Defined.
